(** * GrowTrack backend: the check-in / streak / XP / achievement pipeline

    A shallow embedding of the parts of the backend that run when a habit
    is checked in:

    - [routes/habits.js]   [POST /:id/checkIn]      ([habits_checkIn])
    - [routes/checkins.js] [POST /]                 ([checkins_create])
    - [services/achievementService.js]              ([addXP], [handleLevelUp],
      [checkAchievements], [checkStreakAchievements],
      [checkCompletionAchievements])
    - [services/fcmService.js]                      ([sendNotification],
      [sendStreakEndAlert])
    - [models/*.js]                                 (the [create...Data] builders)

    Modelling conventions.

    - JavaScript numbers are integers of [Z] (the pipeline only adds and
      compares counters far below 2^53).
    - A calendar date string ['YYYY-MM-DD'] is represented by the number of
      the civil day it names (days since 1970-01-01); an instant is a number
      of milliseconds since the epoch.  What the runtime's [Date] computes
      in the server's local zone is not in the sources: the step of one
      local calendar day is a parameter of [habits_checkIn], the offset
      that [formatDateString] applies is one of [checkins_create].
    - Firestore is a record of collections.  Documents addressed by id
      ([habits], [users]) live in a [gmap]; collections that are only
      appended to and queried ([checkins], [achievements], [notifications])
      are lists in insertion order, a document's id being its position.
    - Every [await] on the store or on the push gateway may reject.  The
      world carries the plan of these outcomes ([faults]); the empty plan is
      a run in which no call rejects.
    - The store has its default settings, which no source changes: it
      refuses a document that holds [undefined] before any call is made.
    - [async] functions are computations in the monad [M]: state passing
      with exceptions, where the state reached so far survives a [throw]. *)

From stdpp Require Import base gmap strings list pretty.

Open Scope Z_scope.

(** ** JavaScript values and coercions *)

Inductive JsVal :=
  | JUndefined
  | JNull
  | JBool (b : bool)
  | JNum (n : Z)
  | JStr (s : string).

#[global] Instance JsVal_eq_dec : EqDecision JsVal.
Proof. solve_decision. Defined.

(** [ToBoolean]: what [if (v)] and [v && ...] test. *)
Definition truthy (v : JsVal) : bool :=
  match v with
  | JUndefined | JNull => false
  | JBool b => b
  | JNum n => negb (n =? 0)
  | JStr s => negb (String.eqb s "")
  end.

(** [v !== false] *)
Definition notFalse (v : JsVal) : bool :=
  match v with
  | JBool false => false
  | _ => true
  end.

(** [x || d] on an optional number: [undefined] and [0] give [d]. *)
Definition numOr (x : option Z) (d : Z) : Z :=
  match x with
  | Some n => if n =? 0 then d else n
  | None => d
  end.

(** [x || null] on an optional string: the empty string is falsy. *)
Definition strOrNull (x : option string) : option string :=
  match x with
  | Some s => if String.eqb s "" then None else Some s
  | None => None
  end.

(** [arr.includes(x)] *)
Definition includes `{EqDecision A} (x : A) (l : list A) : bool :=
  bool_decide (x ∈ l).

(** ** Instants and calendar days *)

Abbreviation Timestamp := Z (only parsing).
Abbreviation DateStr := Z (only parsing).

Definition msPerDay : Z := 86400000.

(** [t.toISOString().split('T')[0]]: the UTC calendar day of an instant. *)
Definition isoDate (t : Timestamp) : DateStr := t `div` msPerDay.

(** [d.setDate(d.getDate() - 1)] moves an instant to the same wall-clock
    time of the local calendar day before.  How far that is depends on the
    server's zone: 24 hours where the offset from UTC is fixed, 23 or 25
    hours across a change of the clocks.  [minusOneDay] is the step of a
    zone at a fixed offset. *)
Definition minusOneDay (t : Timestamp) : Timestamp := t - msPerDay.


(** ** models/Habit.js *)

Module Habit.
Record Frequency := {
  type : string;
  days : option (list Z);
  dates : option (list Z);
  time : option string
}.

Record t := {
  userId : string;
  name : string;
  frequency : Frequency;
  status : string;
  archived : bool;
  paused : bool;
  streak : option Z;
  longestStreak : option Z;
  totalCompletions : option Z;
  completedDates : option (list DateStr);
  createdAt : Timestamp;
  updatedAt : Timestamp;
  lastCheckIn : option Timestamp
}.

(** The fields of the request body that [createHabitData] copies into the
    fields kept here. *)
Record Input := {
  in_name : string;
  in_frequency : option Frequency
}.

Definition createHabitData (now : Timestamp) (uid : string) (habitData : Input) : t :=
  {| userId := uid;
     name := in_name habitData;
     frequency :=
       {| type := match in_frequency habitData with
                  | Some f => if String.eqb (type f) "" then "daily" else type f
                  | None => "daily"
                  end;
          days := in_frequency habitData ≫= days;
          dates := in_frequency habitData ≫= dates;
          time := strOrNull (in_frequency habitData ≫= time) |};
     status := "active";
     archived := false;
     paused := false;
     streak := Some 0;
     longestStreak := Some 0;
     totalCompletions := Some 0;
     completedDates := Some [];
     createdAt := now;
     updatedAt := now;
     lastCheckIn := None |}.

(** [habitRef.update({ completedDates, streak, updatedAt, lastCheckIn })]:
    the four named fields are replaced, every other field is kept. *)
Definition updateCheckIn (cd : list DateStr) (s : Z) (now : Timestamp) (h : t) : t :=
  {| userId := userId h;
     name := name h;
     frequency := frequency h;
     status := status h;
     archived := archived h;
     paused := paused h;
     streak := Some s;
     longestStreak := longestStreak h;
     totalCompletions := totalCompletions h;
     completedDates := Some cd;
     createdAt := createdAt h;
     updatedAt := now;
     lastCheckIn := Some now |}.
End Habit.

(** ** models/User.js *)

Module User.
Record t := {
  xp : option Z;
  level : option Z;
  fcmToken : option string;
  lastActivity : Timestamp;
  updatedAt : option Timestamp
}.

Definition createUserData (now : Timestamp) : t :=
  {| xp := Some 0; level := Some 1; fcmToken := None;
     lastActivity := now; updatedAt := None |}.

(** [update({ lastActivity })] *)
Definition touch (now : Timestamp) (u : t) : t :=
  {| xp := xp u; level := level u; fcmToken := fcmToken u;
     lastActivity := now; updatedAt := updatedAt u |}.

(** [update({ xp, level, updatedAt })] *)
Definition setXP (newXP newLevel : Z) (now : Timestamp) (u : t) : t :=
  {| xp := Some newXP; level := Some newLevel; fcmToken := fcmToken u;
     lastActivity := lastActivity u; updatedAt := Some now |}.
End User.

(** ** models/CheckIn.js *)

Module CheckIn.
Record t := {
  habitId : string;
  userId : string;
  date : Timestamp;
  completed : bool;
  completionPercentage : Z;
  notes : option string;
  photoUrl : option string;
  mood : option string;
  createdAt : Timestamp
}.

Record Input := {
  in_date : option Timestamp;
  in_completed : JsVal;
  in_completionPercentage : option Z;
  in_notes : option string;
  in_photoUrl : option string;
  in_mood : option string
}.

Definition createCheckInData (now : Timestamp) (hid uid : string) (checkInData : Input) : t :=
  {| habitId := hid;
     userId := uid;
     date := default now (in_date checkInData);
     completed := notFalse (in_completed checkInData);
     completionPercentage :=
       numOr (in_completionPercentage checkInData)
             (if notFalse (in_completed checkInData) then 100 else 0);
     notes := strOrNull (in_notes checkInData);
     photoUrl := strOrNull (in_photoUrl checkInData);
     mood := strOrNull (in_mood checkInData);
     createdAt := now |}.
End CheckIn.

(** ** models/Achievement.js *)

Module Achievement.
(** The free-form [metadata] object: the keys the service writes. *)
Record Metadata := {
  m_streak : option Z;
  m_completions : option Z;
  m_habitId : option string;
  m_level : option Z
}.

Record t := {
  userId : string;
  type : string;
  title : string;
  description : string;
  icon : string;
  xpReward : Z;
  unlockedAt : Timestamp;
  metadata : option Metadata
}.

Record Input := {
  in_type : string;
  in_title : string;
  in_description : string;
  in_icon : string;
  in_xpReward : Z;
  in_metadata : option Metadata
}.

Definition createAchievementData (now : Timestamp) (uid : string) (achievementData : Input) : t :=
  {| userId := uid;
     type := in_type achievementData;
     title := in_title achievementData;
     description := in_description achievementData;
     icon := if String.eqb (in_icon achievementData) "" then "🏆" else in_icon achievementData;
     xpReward := numOr (Some (in_xpReward achievementData)) 10;
     unlockedAt := now;
     metadata := in_metadata achievementData |}.
End Achievement.

(** ** models/Notification.js *)

Module Notification.
(** The [data] object of the notifications the achievement service
    creates.  Both places that build one write the key [achievementId];
    [None] is [undefined], the value of a property the object read from
    does not have.  The key [level] is written by one of them only. *)
Record Data := {
  achievementId : option nat;
  d_level : option Z
}.

Record t := {
  userId : string;
  type : string;
  title : string;
  message : string;
  data : option Data;
  read : bool;
  createdAt : Timestamp
}.

Record Input := {
  in_type : string;
  in_title : string;
  in_message : string;
  in_data : option Data
}.

Definition createNotificationData (now : Timestamp) (uid : string) (notificationData : Input) : t :=
  {| userId := uid;
     type := in_type notificationData;
     title := in_title notificationData;
     message := in_message notificationData;
     data := in_data notificationData;
     read := false;
     createdAt := now |}.
End Notification.


(** ** services/fcmService.js: the push message handed to the gateway *)

Module Fcm.
Record Message := {
  title : string;
  body : string;
  data : list (string * string);
  token : string
}.

(** What [sendNotification] resolves to. *)
Inductive Result :=
  | Sent (messageId : nat)
  | NoToken
  | Failed.
End Fcm.

(** ** The world: Firestore, the push gateway, the console, the clock *)

Inductive Exn :=
  | JsError (message : string)      (* [throw new Error(message)] *)
  | Unavailable                     (* a store or gateway call rejected *)
  | NotFound                        (* [update] of a document that does not exist *)
  | UndefinedValue (field : string).   (* a document holding [undefined] at [field] *)

Inductive LogEntry :=
  | ConsoleLog (text : string)
  | ConsoleWarn (text : string) (e : Exn)
  | ConsoleError (text : string) (e : Exn).

Record World := {
  habits : gmap string Habit.t;
  users : gmap string User.t;
  checkins : list CheckIn.t;
  achievements : list Achievement.t;
  notifications : list Notification.t;
  outbox : list Fcm.Message;
  console : list LogEntry;
  clock : Timestamp;
  faults : list bool
}.

Definition withHabits (x : gmap string Habit.t) (w : World) : World :=
  {| habits := x; users := users w; checkins := checkins w;
     achievements := achievements w; notifications := notifications w;
     outbox := outbox w; console := console w; clock := clock w; faults := faults w |}.

Definition withUsers (x : gmap string User.t) (w : World) : World :=
  {| habits := habits w; users := x; checkins := checkins w;
     achievements := achievements w; notifications := notifications w;
     outbox := outbox w; console := console w; clock := clock w; faults := faults w |}.

Definition withCheckins (x : list CheckIn.t) (w : World) : World :=
  {| habits := habits w; users := users w; checkins := x;
     achievements := achievements w; notifications := notifications w;
     outbox := outbox w; console := console w; clock := clock w; faults := faults w |}.

Definition withAchievements (x : list Achievement.t) (w : World) : World :=
  {| habits := habits w; users := users w; checkins := checkins w;
     achievements := x; notifications := notifications w;
     outbox := outbox w; console := console w; clock := clock w; faults := faults w |}.

Definition withNotifications (x : list Notification.t) (w : World) : World :=
  {| habits := habits w; users := users w; checkins := checkins w;
     achievements := achievements w; notifications := x;
     outbox := outbox w; console := console w; clock := clock w; faults := faults w |}.

Definition withOutbox (x : list Fcm.Message) (w : World) : World :=
  {| habits := habits w; users := users w; checkins := checkins w;
     achievements := achievements w; notifications := notifications w;
     outbox := x; console := console w; clock := clock w; faults := faults w |}.

Definition withConsole (x : list LogEntry) (w : World) : World :=
  {| habits := habits w; users := users w; checkins := checkins w;
     achievements := achievements w; notifications := notifications w;
     outbox := outbox w; console := x; clock := clock w; faults := faults w |}.

Definition withFaults (x : list bool) (w : World) : World :=
  {| habits := habits w; users := users w; checkins := checkins w;
     achievements := achievements w; notifications := notifications w;
     outbox := outbox w; console := console w; clock := clock w; faults := x |}.

(** ** The monad of [async] code *)

(** How a computation ends: it returns, it throws, or the model ran out of
    the fuel that bounds its recursion. *)
Inductive Res (A : Type) :=
  | Ok (a : A)
  | Throw (e : Exn)
  | Diverge.
Arguments Ok {A} a.
Arguments Throw {A} e.
Arguments Diverge {A}.

Definition M (A : Type) : Type := World → Res A * World.

#[global] Instance M_ret : MRet M := λ A a w, (Ok a, w).

#[global] Instance M_bind : MBind M := λ A B f m w,
  match m w with
  | (Ok a, w') => f a w'
  | (Throw e, w') => (Throw e, w')
  | (Diverge, w') => (Diverge, w')
  end.

Definition throw {A} (e : Exn) : M A := λ w, (Throw e, w).

Definition diverge {A} : M A := λ w, (Diverge, w).

(** [try { m } catch (e) { h e }]: running out of fuel is not an exception. *)
Definition tryCatch {A} (m : M A) (h : Exn → M A) : M A := λ w,
  match m w with
  | (Throw e, w') => h e w'
  | r => r
  end.

(** [new Date()] *)
Definition newDate : M Timestamp := λ w, (Ok (clock w), w).

Definition consoleLog (text : string) : M unit := λ w,
  (Ok (), withConsole (console w ++ [ConsoleLog text]) w).

Definition consoleWarn (text : string) (e : Exn) : M unit := λ w,
  (Ok (), withConsole (console w ++ [ConsoleWarn text e]) w).

Definition consoleError (text : string) (e : Exn) : M unit := λ w,
  (Ok (), withConsole (console w ++ [ConsoleError text e]) w).

(** One awaited call to the store or the gateway: it takes the next outcome
    of the plan and rejects when the plan says so. *)
Definition await : M unit := λ w,
  match faults w with
  | [] => (Ok (), w)
  | b :: plan => (if b : bool then Throw Unavailable else Ok (), withFaults plan w)
  end.

(** Reading and replacing the state. *)
Definition reads {A} (f : World → A) : M A := λ w, (Ok (f w), w).

Definition modify (f : World → World) : M unit := λ w, (Ok (), f w).

(** *** Firestore calls *)

(** [db.collection('habits').doc(id).get()] *)
Definition getHabit (id : string) : M (option Habit.t) :=
  await;; reads (λ w, habits w !! id).

(** [db.collection('habits').doc(id).update(fields)] *)
Definition updateHabit (id : string) (f : Habit.t → Habit.t) : M unit :=
  await;;
  doc ← reads (λ w, habits w !! id);
  match doc with
  | Some h => modify (λ w, withHabits (<[id := f h]> (habits w)) w)
  | None => throw NotFound
  end.

(** [db.collection('users').doc(id).get()] *)
Definition getUser (id : string) : M (option User.t) :=
  await;; reads (λ w, users w !! id).

(** [db.collection('users').doc(id).update(fields)] *)
Definition updateUser (id : string) (f : User.t → User.t) : M unit :=
  await;;
  doc ← reads (λ w, users w !! id);
  match doc with
  | Some u => modify (λ w, withUsers (<[id := f u]> (users w)) w)
  | None => throw NotFound
  end.

(** [db.collection('checkins').add(doc)]: resolves to the new document's id. *)
Definition addCheckin (c : CheckIn.t) : M nat :=
  await;;
  id ← reads (λ w, length (checkins w));
  modify (λ w, withCheckins (checkins w ++ [c]) w);;
  mret id.

(** [db.collection('achievements').add(doc)] *)
Definition addAchievement (a : Achievement.t) : M nat :=
  await;;
  id ← reads (λ w, length (achievements w));
  modify (λ w, withAchievements (achievements w ++ [a]) w);;
  mret id.

(** The field of a notification that holds [undefined], if one does. *)
Definition undefinedField (n : Notification.t) : option string :=
  match Notification.data n with
  | Some d =>
    match Notification.achievementId d with
    | None => Some "data.achievementId"
    | Some _ => None
    end
  | None => None
  end.

(** [db.collection('notifications').add(doc)].  The store validates the
    document before it sends anything: with [ignoreUndefinedProperties]
    off, as it is by default, a document holding [undefined] is refused. *)
Definition addNotification (n : Notification.t) : M nat :=
  match undefinedField n with
  | Some field => throw (UndefinedValue field)
  | None =>
    await;;
    id ← reads (λ w, length (notifications w));
    modify (λ w, withNotifications (notifications w ++ [n]) w);;
    mret id
  end.

(** [db.collection('achievements').where(...)....get()] *)
Definition queryAchievements (p : Achievement.t → bool) : M (list Achievement.t) :=
  await;; reads (λ w, List.filter p (achievements w)).

(** [db.collection('checkins').where(...)....get()] *)
Definition queryCheckins (p : CheckIn.t → bool) : M (list CheckIn.t) :=
  await;; reads (λ w, List.filter p (checkins w)).

(** [admin.messaging().send(message)]: resolves to a message id. *)
Definition messagingSend (m : Fcm.Message) : M nat :=
  await;;
  id ← reads (λ w, length (outbox w));
  modify (λ w, withOutbox (outbox w ++ [m]) w);;
  mret id.

(** ** services/fcmService.js *)

(** [sendNotification(userId, title, body, data)].  [Date.now().toString()]
    is the decimal rendering of the clock. *)
Definition sendNotification (userId title body : string) (data : list (string * string))
  : M Fcm.Result :=
  tryCatch
    (userDoc ← getUser userId;
     match userDoc with
     | None => throw (JsError "User not found")
     | Some userData =>
       match strOrNull (User.fcmToken userData) with
       | None =>
         consoleLog ("No FCM token for user " +:+ userId);;
         mret Fcm.NoToken
       | Some fcmToken =>
         now ← newDate;
         let message :=
           {| Fcm.title := title;
              Fcm.body := body;
              Fcm.data := data ++ [("timestamp", pretty now)];
              Fcm.token := fcmToken |} in
         response ← messagingSend message;
         consoleLog "✅ Notification sent:";;
         mret (Fcm.Sent response)
       end
     end)
    (λ error, consoleError "❌ FCM Error:" error;; mret Fcm.Failed).

(** [sendStreakEndAlert(userId, habitName, previousStreak)] *)
Definition sendStreakEndAlert (userId habitName : string) (previousStreak : Z) : M Fcm.Result :=
  sendNotification userId
    "Don't Give Up!"
    ("Your " +:+ pretty previousStreak +:+ "-day streak with " +:+ habitName
       +:+ " ended. You can start a new one today!")
    [("type", "streak_end"); ("previousStreak", pretty previousStreak)].

(** ** HTTP responses of the two check-in routes *)

(** What [updateStreak] of [services/streakService.js] resolves to; the
    routes read [currentStreak] only. *)
Record StreakResult := {
  currentStreak : option Z;
  updated : bool
}.

Module Http.
Inductive Body :=
  | Failure (message : string) (error : option Exn)
  | HabitCheckedIn (habit : option Habit.t) (streak : Z)
  | CheckInCreated (id : nat) (checkIn : CheckIn.t) (streak : StreakResult).

Record Response := {
  status : Z;
  body : Body
}.

(** [res.status(code).json({ success: false, message })] *)
Definition fail (code : Z) (message : string) : Response :=
  {| status := code; body := Failure message None |}.

(** [res.json(payload)] *)
Definition json (payload : Body) : Response :=
  {| status := 200; body := payload |}.
End Http.

(** ** routes/habits.js: [POST /:id/checkIn] *)

Section HabitsRoute.

(** [d.setDate(d.getDate() - 1)] as the runtime computes it in the zone of
    the server: the instant at the same wall-clock time of the local
    calendar day before. *)
Variable dayBefore : Timestamp → Timestamp.

(** [uid] is [req.user.uid], [id] is [req.params.id]. *)
Definition habits_checkIn (uid id : string) : M Http.Response :=
  tryCatch
    (habitDoc ← getHabit id;
     match habitDoc with
     | None => mret (Http.fail 404 "Habit not found")
     | Some habit =>
       if negb (bool_decide (Habit.userId habit = uid)) then
         mret (Http.fail 403 "Unauthorized access")
       else if Habit.archived habit || Habit.paused habit then
         mret (Http.fail 400 "Cannot check in to archived or paused habit")
       else
         now ← newDate;
         let today := isoDate now in
         let completedDates := default [] (Habit.completedDates habit) in
         let previousStreak := numOr (Habit.streak habit) 0 in
         if includes today completedDates then
           mret (Http.fail 400 "Already checked in today")
         else
           newStreak ←
             (if bool_decide (0 < length completedDates)%nat then
                let yesterday := dayBefore now in
                let yesterdayStr := isoDate yesterday in
                if includes yesterdayStr completedDates then
                  mret (previousStreak + 1)
                else if 0 <? previousStreak then
                  sendStreakEndAlert uid (Habit.name habit) previousStreak;;
                  mret 1
                else mret 1
              else mret 1);
           let completedDates := completedDates ++ [today] in
           updateHabit id (Habit.updateCheckIn completedDates newStreak now);;
           tryCatch
             (userDoc ← getUser uid;
              match userDoc with
              | Some _ => updateUser uid (User.touch now)
              | None => mret ()
              end)
             (λ userUpdateError,
                consoleWarn "Failed to update user lastActivity:" userUpdateError);;
           updatedDoc ← getHabit id;
           mret (Http.json (Http.HabitCheckedIn updatedDoc newStreak))
     end)
    (λ error,
       consoleError "Check-in error:" error;;
       mret (Http.fail 500 "Failed to check in")).

End HabitsRoute.

(** ** config/constants.js *)

Record XpValues := {
  LEVEL_UP : Z;
  STREAK_7 : Z;
  STREAK_30 : Z;
  STREAK_100 : Z
}.

(** [for (const x of l) body], threading the variables the body assigns. *)
Fixpoint forOf {A S} (l : list A) (body : S → A → M S) (s : S) : M S :=
  match l with
  | [] => mret s
  | x :: l' => s' ← body s x; forOf l' body s'
  end.

(** What [addXP] resolves to. *)
Record XpResult := {
  xp : Z;
  level : Z;
  levelUp : bool
}.

(** The [context] argument of [checkAchievements]. *)
Record Context := {
  ctx_type : string;
  ctx_habitId : string;
  ctx_streak : option Z
}.

(** The body of [POST /] of [routes/checkins.js]. *)
Record CheckInRequest := {
  req_habitId : string;
  req_date : option Timestamp;
  req_completed : JsVal;
  req_completionPercentage : option Z;
  req_notes : option string;
  req_photoUrl : option string;
  req_mood : option string
}.

Section Services.

(** The tables of [config/constants.js], which the service imports. *)
Variable LEVEL_XP_REQUIREMENTS : list Z.
Variable STREAK_MILESTONES : list Z.
Variable XP_VALUES : XpValues.

(** ** services/achievementService.js *)

(** The loop of [addXP] that computes the new level,
    [for (let i = n - 1; i >= 0; i--) if (newXP >= T[i]) { newLevel = i + 1; break; }],
    with [n] indices left to visit. *)
Fixpoint levelLoop (n : nat) (newXP newLevel : Z) : Z :=
  match n with
  | O => newLevel
  | S i =>
    match LEVEL_XP_REQUIREMENTS !! i with
    | Some required =>
      if required <=? newXP then Z.of_nat i + 1 else levelLoop i newXP newLevel
    | None => levelLoop i newXP newLevel
    end
  end.

(** [handleLevelUp(userId, newLevel)], open in its call back to [addXP].
    [achievement] is what [createAchievementData] built, which has no field
    [id]: the notification's [data.achievementId] is [undefined]. *)
Definition handleLevelUp (addXP : string → Z → string → M XpResult)
    (userId : string) (newLevel : Z) : M unit :=
  tryCatch
    (now ← newDate;
     let achievement :=
       Achievement.createAchievementData now userId
         {| Achievement.in_type := "level";
            Achievement.in_title := "Level " +:+ pretty newLevel +:+ "!";
            Achievement.in_description := "You've reached level " +:+ pretty newLevel +:+ "!";
            Achievement.in_icon := "⭐";
            Achievement.in_xpReward := LEVEL_UP XP_VALUES;
            Achievement.in_metadata :=
              Some {| Achievement.m_streak := None; Achievement.m_completions := None;
                      Achievement.m_habitId := None; Achievement.m_level := Some newLevel |} |} in
     addAchievement achievement;;
     now ← newDate;
     let notification :=
       Notification.createNotificationData now userId
         {| Notification.in_type := "achievement";
            Notification.in_title := "Level Up!";
            Notification.in_message :=
              "Congratulations! You've reached level " +:+ pretty newLevel +:+ "!";
            Notification.in_data :=
              Some {| Notification.achievementId := None;
                      Notification.d_level := Some newLevel |} |} in
     addNotification notification;;
     addXP userId (LEVEL_UP XP_VALUES) "level_up";;
     mret ())
    (λ error, consoleError "Error handling level up:" error).

(** [addXP(userId, amount, source)].  [fuel] bounds the depth of the
    recursion through [handleLevelUp]. *)
Fixpoint addXP (fuel : nat) (userId : string) (amount : Z) (source : string) : M XpResult :=
  match fuel with
  | O => diverge
  | S fuel' =>
    tryCatch
      (userDoc ← getUser userId;
       match userDoc with
       | None => throw (JsError "User not found")
       | Some user =>
         let currentXP := numOr (User.xp user) 0 in
         let currentLevel := numOr (User.level user) 1 in
         let newXP := currentXP + amount in
         let newLevel := levelLoop (length LEVEL_XP_REQUIREMENTS) newXP currentLevel in
         now ← newDate;
         updateUser userId (User.setXP newXP newLevel now);;
         (if currentLevel <? newLevel
          then handleLevelUp (addXP fuel') userId newLevel
          else mret ());;
         mret {| xp := newXP; level := newLevel; levelUp := currentLevel <? newLevel |}
       end)
      (λ error, consoleError "Error adding XP:" error;; throw error)
  end.

(** The Firestore query of [checkStreakAchievements]:
    [userId == userId], [type == 'streak'], [metadata.streak == streak]. *)
Definition isStreakAchievement (userId : string) (streak : Z) (a : Achievement.t) : bool :=
  bool_decide (Achievement.userId a = userId)
  && bool_decide (Achievement.type a = "streak")
  && bool_decide (Achievement.metadata a ≫= Achievement.m_streak = Some streak).

(** The object [checkStreakAchievements] passes to [createAchievementData]. *)
Definition streakAchievementData (streak : Z) (habitId : string) : Achievement.Input :=
  {| Achievement.in_type := "streak";
     Achievement.in_title := pretty streak +:+ " Day Streak!";
     Achievement.in_description :=
       "Amazing! You've maintained a " +:+ pretty streak +:+ "-day streak!";
     Achievement.in_icon :=
       if 100 <=? streak then "🔥" else if 30 <=? streak then "⭐" else "✨";
     Achievement.in_xpReward :=
       if 100 <=? streak then STREAK_100 XP_VALUES
       else if 30 <=? streak then STREAK_30 XP_VALUES
       else STREAK_7 XP_VALUES;
     Achievement.in_metadata :=
       Some {| Achievement.m_streak := Some streak;
               Achievement.m_completions := None;
               Achievement.m_habitId := Some habitId;
               Achievement.m_level := None |} |}.

(** [checkStreakAchievements(userId, streak, habitId)] *)
Definition checkStreakAchievements (userId : string) (streak : Z) (habitId : string)
  : M (list Achievement.t) :=
  existingAchievements ← queryAchievements (isStreakAchievement userId streak);
  if negb (bool_decide (existingAchievements = [])) then mret []
  else if includes streak STREAK_MILESTONES then
    now ← newDate;
    mret [Achievement.createAchievementData now userId
            (streakAchievementData streak habitId)]
  else mret [].

(** The two Firestore queries of [checkCompletionAchievements]. *)
Definition isCompletedCheckIn (userId habitId : string) (c : CheckIn.t) : bool :=
  bool_decide (CheckIn.userId c = userId)
  && bool_decide (CheckIn.habitId c = habitId)
  && bool_decide (CheckIn.completed c = true).

Definition isCompletionAchievement (userId habitId : string) (milestone : Z)
    (a : Achievement.t) : bool :=
  bool_decide (Achievement.userId a = userId)
  && bool_decide (Achievement.type a = "completion")
  && bool_decide (Achievement.metadata a ≫= Achievement.m_completions = Some milestone)
  && bool_decide (Achievement.metadata a ≫= Achievement.m_habitId = Some habitId).

Definition milestones : list Z := [10; 25; 50; 100; 250; 500].

(** The object [checkCompletionAchievements] passes to
    [createAchievementData]. *)
Definition completionAchievementData (milestone : Z) (habitId : string)
  : Achievement.Input :=
  {| Achievement.in_type := "completion";
     Achievement.in_title := pretty milestone +:+ " Completions!";
     Achievement.in_description :=
       "You've completed this habit " +:+ pretty milestone +:+ " times!";
     Achievement.in_icon := "🎯";
     Achievement.in_xpReward :=
       if 100 <=? milestone then 100 else if 50 <=? milestone then 50 else 25;
     Achievement.in_metadata :=
       Some {| Achievement.m_streak := None;
               Achievement.m_completions := Some milestone;
               Achievement.m_habitId := Some habitId;
               Achievement.m_level := None |} |}.

(** The body of the loop over [milestones] in [checkCompletionAchievements]:
    it may push one achievement onto [achievements]. *)
Definition checkMilestone (userId habitId : string) (totalCompletions : Z)
    (achievements : list Achievement.t) (milestone : Z) : M (list Achievement.t) :=
  if totalCompletions =? milestone then
    existing ← queryAchievements (isCompletionAchievement userId habitId milestone);
    if bool_decide (existing = []) then
      now ← newDate;
      mret (achievements ++
        [Achievement.createAchievementData now userId
           (completionAchievementData milestone habitId)])
    else mret achievements
  else mret achievements.

(** [checkCompletionAchievements(userId, habitId)] *)
Definition checkCompletionAchievements (userId habitId : string) : M (list Achievement.t) :=
  checkInsSnapshot ← queryCheckins (isCompletedCheckIn userId habitId);
  let totalCompletions := Z.of_nat (length checkInsSnapshot) in
  forOf milestones (checkMilestone userId habitId totalCompletions) [].

(** The body of the loop of [checkAchievements] that saves one achievement. *)
Definition saveAchievement (fuel : nat) (userId : string) (achievement : Achievement.t)
  : M unit :=
  achievementRef ← addAchievement achievement;
  now ← newDate;
  let notification :=
    Notification.createNotificationData now userId
      {| Notification.in_type := "achievement";
         Notification.in_title := Achievement.title achievement;
         Notification.in_message := Achievement.description achievement;
         Notification.in_data :=
           Some {| Notification.achievementId := Some achievementRef;
                   Notification.d_level := None |} |} in
  addNotification notification;;
  addXP fuel userId (Achievement.xpReward achievement) "achievement";;
  mret ().

(** [checkAchievements(userId, context)] *)
Definition checkAchievements (fuel : nat) (userId : string) (context : Context)
  : M (list Achievement.t) :=
  tryCatch
    (streakAchievements ←
       match ctx_streak context with
       | Some streak =>
         if bool_decide (ctx_type context = "check_in") && negb (streak =? 0)
         then checkStreakAchievements userId streak (ctx_habitId context)
         else mret []
       | None => mret []
       end;
     completionAchievements ←
       (if bool_decide (ctx_type context = "check_in")
        then checkCompletionAchievements userId (ctx_habitId context)
        else mret []);
     let achievements := streakAchievements ++ completionAchievements in
     forOf achievements (λ _ achievement, saveAchievement fuel userId achievement) ();;
     mret achievements)
    (λ error, consoleError "Error checking achievements:" error;; mret []).

(** ** routes/checkins.js: [POST /] *)

(** The offset of the server's local zone from UTC, in milliseconds. *)
Variable utcOffset : Z.

(** [formatDateString(date)]: the local calendar day of an instant. *)
Definition formatDateString (date : Timestamp) : DateStr :=
  (date + utcOffset) `div` msPerDay.

(** The two functions the route imports from [services/streakService.js]. *)
Variable isDateValidForHabit : Habit.t → Timestamp → bool.
Variable updateStreak : string → string → Timestamp → M StreakResult.

(** The [try] block that awards XP and checks achievements after a
    completed check-in; its [catch] logs a warning. *)
Definition awardCheckIn (fuel : nat) (userId habitId : string) (streakResult : StreakResult)
  : M unit :=
  tryCatch
    (addXP fuel userId 10 "check_in";;
     checkAchievements fuel userId
       {| ctx_type := "check_in"; ctx_habitId := habitId;
          ctx_streak := currentStreak streakResult |};;
     mret ())
    (λ achievementError, consoleWarn "Achievement error (non-fatal):" achievementError).

(** The route from [createCheckInData] on, that is once every validation of
    the request has passed. *)
Definition recordCheckIn (fuel : nat) (userId : string) (req : CheckInRequest)
    (habit : Habit.t) (checkInDate : Timestamp) : M Http.Response :=
  let habitId := req_habitId req in
  let completed := req_completed req in
  now ← newDate;
  let checkInData :=
    CheckIn.createCheckInData now habitId userId
      {| CheckIn.in_date := Some checkInDate;
         CheckIn.in_completed := JBool (notFalse completed);
         CheckIn.in_completionPercentage :=
           Some (numOr (req_completionPercentage req)
                       (if notFalse completed then 100 else 0));
         CheckIn.in_notes := req_notes req;
         CheckIn.in_photoUrl := req_photoUrl req;
         CheckIn.in_mood := req_mood req |} in
  checkInRef ← addCheckin checkInData;
  streakResult ←
    (if notFalse completed then
       streakResult ← updateStreak habitId userId checkInDate;
       awardCheckIn fuel userId habitId streakResult;;
       mret (Some streakResult)
     else mret None);
  now ← newDate;
  updateUser userId (User.touch now);;
  mret (Http.json
          (Http.CheckInCreated checkInRef checkInData
             (default {| currentStreak := Habit.streak habit; updated := false |}
                      streakResult))).

(** [userId] is [req.user.uid], [req] is [req.body]. *)
Definition checkins_create (fuel : nat) (userId : string) (req : CheckInRequest)
  : M Http.Response :=
  tryCatch
    (habitDoc ← getHabit (req_habitId req);
     match habitDoc with
     | None => mret (Http.fail 404 "Habit not found")
     | Some habit =>
       if negb (bool_decide (Habit.userId habit = userId)) then
         mret (Http.fail 403 "Unauthorized")
       else if negb (bool_decide (Habit.status habit = "active")) then
         mret (Http.fail 400 "Habit is not active")
       else
         now ← newDate;
         let checkInDate := default now (req_date req) in
         if negb (isDateValidForHabit habit checkInDate) then
           mret (Http.fail 400 "Check-in date is not valid for this habit frequency")
         else
           let dateStr := formatDateString checkInDate in
           if match Habit.completedDates habit with
              | Some completedDates => includes dateStr completedDates
              | None => false
              end && truthy (req_completed req)
           then mret (Http.fail 400 "Already checked in for this date")
           else recordCheckIn fuel userId req habit checkInDate
     end)
    (λ error,
       consoleError "Create check-in error:" error;;
       mret {| Http.status := 500;
               Http.body := Http.Failure "Failed to create check-in" (Some error) |}).

End Services.

(** ** Fixtures: the tables of the spec's scenarios, and a streak service *)

(** The threshold table of the scenario ([thresholds = [0, 100, 250]]). *)
Definition scenarioThresholds : list Z := [0; 100; 250].

Definition scenarioMilestones : list Z := [7; 30; 50; 100].

Definition scenarioXpValues : XpValues :=
  {| LEVEL_UP := 50; STREAK_7 := 50; STREAK_30 := 200; STREAK_100 := 1000 |}.

(** Noon UTC of a civil day. *)
Definition noon (day : DateStr) : Timestamp := day * msPerDay + 43200000.

(** 2024-01-06, the day of the gap scenario. *)
Definition jan6 : DateStr := 19728.

(** A store holding the given documents, with nothing yet sent or logged. *)
Definition mkWorld (hs : gmap string Habit.t) (us : gmap string User.t)
    (cs : list CheckIn.t) (acs : list Achievement.t) (now : Timestamp)
    (plan : list bool) : World :=
  {| habits := hs; users := us; checkins := cs; achievements := acs;
     notifications := []; outbox := []; console := []; clock := now; faults := plan |}.

(** The user of the scenarios: [xp = 95], [level = 1], a registered token. *)
Definition sampleUser : User.t :=
  {| User.xp := Some 95; User.level := Some 1; User.fcmToken := Some "token-1";
     User.lastActivity := 0; User.updatedAt := None |}.

(** An active daily habit of user [u1] with the given streak fields. *)
Definition sampleHabit (streak longest : Z) (completedDates : list DateStr) : Habit.t :=
  {| Habit.userId := "u1";
     Habit.name := "Run";
     Habit.frequency :=
       {| Habit.type := "daily"; Habit.days := None; Habit.dates := None;
          Habit.time := None |};
     Habit.status := "active";
     Habit.archived := false;
     Habit.paused := false;
     Habit.streak := Some streak;
     Habit.longestStreak := Some longest;
     Habit.totalCompletions := Some 0;
     Habit.completedDates := Some completedDates;
     Habit.createdAt := 0;
     Habit.updatedAt := 0;
     Habit.lastCheckIn := None |}.

(** The world of a check-in of habit [h1] by user [u1] at noon of [day]. *)
Definition habitWorld (habit : Habit.t) (day : DateStr) : World :=
  mkWorld {[ "h1" := habit ]} {[ "u1" := sampleUser ]} [] [] (noon day) [].




(** [habitRef.update({ streak, longestStreak, completedDates, updatedAt })] *)
Definition setStreak (cd : list DateStr) (s l : Z) (now : Timestamp) (h : Habit.t) : Habit.t :=
  {| Habit.userId := Habit.userId h;
     Habit.name := Habit.name h;
     Habit.frequency := Habit.frequency h;
     Habit.status := Habit.status h;
     Habit.archived := Habit.archived h;
     Habit.paused := Habit.paused h;
     Habit.streak := Some s;
     Habit.longestStreak := Some l;
     Habit.totalCompletions := Habit.totalCompletions h;
     Habit.completedDates := Some cd;
     Habit.createdAt := Habit.createdAt h;
     Habit.updatedAt := now;
     Habit.lastCheckIn := Habit.lastCheckIn h |}.

(** Modelled from the spec: [updateStreak] of [services/streakService.js],
    which is not among the sources.  Section 4.2: a date already in
    [completedDates] is a no-op that signals so; otherwise the streak grows
    by one when the preceding day is in [completedDates] and restarts at 1
    when it is not (with a "streak ended" alert when the previous streak
    was positive), the longest streak is the maximum of its former value and
    the new streak, and the date is appended, all in one update.  It stands
    in for the import wherever a run of [checkins_create] is evaluated. *)
Definition updateStreak_spec (utcOffset : Z) (habitId userId : string)
    (checkInDate : Timestamp) : M StreakResult :=
  habitDoc ← getHabit habitId;
  match habitDoc with
  | None => throw (JsError "Habit not found")
  | Some habit =>
    let dateStr := formatDateString utcOffset checkInDate in
    let completedDates := default [] (Habit.completedDates habit) in
    let previousStreak := numOr (Habit.streak habit) 0 in
    if includes dateStr completedDates then
      mret {| currentStreak := Some previousStreak; updated := false |}
    else
      newStreak ←
        (if includes (dateStr - 1) completedDates then mret (previousStreak + 1)
         else if 0 <? previousStreak then
           sendStreakEndAlert userId (Habit.name habit) previousStreak;;
           mret 1
         else mret 1);
      let newLongest := Z.max (numOr (Habit.longestStreak habit) 0) newStreak in
      now ← newDate;
      updateHabit habitId (setStreak (completedDates ++ [dateStr]) newStreak newLongest now);;
      mret {| currentStreak := Some newStreak; updated := true |}
  end.

(** * Predicates used in the statements *)

(** A computation respects a relation on worlds when every run of it,
    however it ends, takes a world to a related one. *)
Definition respects {A} (R : relation World) (m : M A) : Prop :=
  ∀ w, R w (m w).2.

(** What the achievement service leaves alone: habits, check-ins, the clock
    and the set of user documents are unchanged, achievements are only
    appended, each appended one satisfying [P], and a plan without
    rejections stays one. *)
Record Frame (P : Achievement.t → Prop) (w w' : World) : Prop := {
  frame_habits : habits w' = habits w;
  frame_checkins : checkins w' = checkins w;
  frame_clock : clock w' = clock w;
  frame_users : ∀ id, is_Some (users w' !! id) ↔ is_Some (users w !! id);
  frame_achievements : ∃ l, achievements w' = achievements w ++ l ∧ Forall P l;
  frame_faults : faults w = [] → faults w' = []
}.


(** The test of [POST /:id/checkIn] under which the streak-end alert is
    sent: the date the route takes for yesterday is not a completed date,
    some date is, and the previous streak is positive. *)
Definition streakEnds (completedDates : list DateStr) (yesterdayStr : DateStr)
    (previousStreak : Z) : bool :=
  negb (includes yesterdayStr completedDates)
  && bool_decide (completedDates ≠ [])
  && (0 <? previousStreak).

(** An achievement of type [level], the only kind [addXP] creates. *)
Definition isLevel (a : Achievement.t) : Prop := Achievement.type a = "level".

(** The achievement [handleLevelUp] stores for a new level, and the line it
    logs when the store has refused the notification that goes with it. *)
Definition levelAchievement (V : XpValues) (now : Timestamp) (userId : string)
    (newLevel : Z) : Achievement.t :=
  Achievement.createAchievementData now userId
    {| Achievement.in_type := "level";
       Achievement.in_title := "Level " +:+ pretty newLevel +:+ "!";
       Achievement.in_description := "You've reached level " +:+ pretty newLevel +:+ "!";
       Achievement.in_icon := "⭐";
       Achievement.in_xpReward := LEVEL_UP V;
       Achievement.in_metadata :=
         Some {| Achievement.m_streak := None; Achievement.m_completions := None;
                 Achievement.m_habitId := None; Achievement.m_level := Some newLevel |} |}.

Definition levelUpRefused : LogEntry :=
  ConsoleError "Error handling level up:" (UndefinedValue "data.achievementId").

(** The world a run of [addXP] without rejections leaves for a user whose
    document is [u]: the new XP and level are stored, and when a level was
    gained its achievement is stored and the refusal logged. *)
Definition afterAddXP (T : list Z) (V : XpValues) (userId : string) (amount : Z)
    (u : User.t) (w : World) : World :=
  let newXP := numOr (User.xp u) 0 + amount in
  let newLevel := levelLoop T (length T) newXP (numOr (User.level u) 1) in
  let stored := withUsers (<[userId := User.setXP newXP newLevel (clock w) u]> (users w)) w in
  if numOr (User.level u) 1 <? newLevel then
    withConsole (console w ++ [levelUpRefused])
      (withAchievements
         (achievements w ++ [levelAchievement V (clock w) userId newLevel]) stored)
  else stored.

(** The XP and the level of a user document as [addXP] reads them
    ([user.xp || 0], [user.level || 1]). *)
Definition xpOf (u : User.t) : Z := numOr (User.xp u) 0.
Definition levelOf (u : User.t) : Z := numOr (User.level u) 1.

(** Enough fuel for [addXP] in world [w]: more than the table has entries,
    or more than the number of levels the user is below its last entry. *)
Definition fuelled (T : list Z) (fuel : nat) (userId : string) (w : World) : Prop :=
  (0 < fuel)%nat
  ∧ ((length T < fuel)%nat
     ∨ ∀ u, users w !! userId = Some u → Z.of_nat (length T) - levelOf u < Z.of_nat fuel).

(** The stored level is the one the table assigns to the stored XP: the
    level loop returns it whatever level it is entered with. *)
Definition derivedLevel (T : list Z) (u : User.t) : Prop :=
  ∀ d, levelLoop T (length T) (xpOf u) d = levelOf u.

(** A sequence of calls of [addXP] for one user, one for each amount of the
    list, in order. *)
Definition addXPs (T : list Z) (V : XpValues) (fuel : nat) (userId : string)
    (amounts : list Z) (source : string) : M unit :=
  forOf amounts (λ _ amount, addXP T V fuel userId amount source;; mret ()) ().

(** How many more levels the table holds for the user. *)
Definition levelsLeft (T : list Z) (userId : string) (w : World) : nat :=
  match users w !! userId with
  | Some u => Z.to_nat (Z.min (Z.of_nat (length T)) (Z.of_nat (length T) - levelOf u))
  | None => 0
  end.

(** How many achievements of type [streak] the user holds for the streak
    value, and how many completed check-ins the habit has. *)
Definition streakCount (userId : string) (streak : Z) (w : World) : nat :=
  length (List.filter (isStreakAchievement userId streak) (achievements w)).

Definition completions (userId habitId : string) (w : World) : Z :=
  Z.of_nat (length (List.filter (isCompletedCheckIn userId habitId) (checkins w))).

(** The completion milestone is already unlocked for the habit. *)
Definition completionUnlocked (userId habitId : string) (milestone : Z) (w : World)
  : bool :=
  negb (bool_decide
          (List.filter (isCompletionAchievement userId habitId milestone)
             (achievements w) = [])).

(** What the two sub-checks of [checkAchievements] return in world [w] when
    no call rejects. *)
Definition streakUnlocks (MS : list Z) (V : XpValues) (userId : string)
    (context : Context) (w : World) : list Achievement.t :=
  match ctx_streak context with
  | Some streak =>
    if bool_decide (ctx_type context = "check_in") && negb (streak =? 0)
       && (streakCount userId streak w =? 0)%nat && includes streak MS
    then [Achievement.createAchievementData (clock w) userId
            (streakAchievementData V streak (ctx_habitId context))]
    else []
  | None => []
  end.

Definition completionUnlocks (userId : string) (context : Context) (w : World)
  : list Achievement.t :=
  let total := completions userId (ctx_habitId context) w in
  if bool_decide (ctx_type context = "check_in")
     && includes total milestones
     && negb (completionUnlocked userId (ctx_habitId context) total w)
  then [Achievement.createAchievementData (clock w) userId
          (completionAchievementData total (ctx_habitId context))]
  else [].

(** An achievement of type [completion]. *)
Definition isCompletion (a : Achievement.t) : Prop := Achievement.type a = "completion".

(** A computation that never runs out of fuel. *)
Definition total {A} (m : M A) : Prop := ∀ w, (m w).1 ≠ Diverge.

#[global] Instance Exn_eq_dec : EqDecision Exn.
Proof. solve_decision. Defined.

(** A line of the console that reports the exception [e]. *)
Definition reports (e : Exn) (entry : LogEntry) : bool :=
  match entry with
  | ConsoleLog _ => false
  | ConsoleWarn _ e' | ConsoleError _ e' => bool_decide (e' = e)
  end.

(** How many calls a stretch of the plan rejects, and how many lines of a
    stretch of the console report the exception [e]. *)
Definition rejections (plan : list bool) : nat := length (List.filter id plan).

Definition reported (e : Exn) (entries : list LogEntry) : nat :=
  length (List.filter (reports e) entries).

(** Between [w] and [w'] calls were made, which took [consumed] off the
    plan, and lines were written to the console; the lines that report a
    rejected call are at least as many as the calls that were rejected, but
    for [owed] of them. *)
Definition Logged (owed : nat) (w w' : World) : Prop :=
  ∃ consumed entries,
    faults w = consumed ++ faults w'
    ∧ console w' = console w ++ entries
    ∧ (rejections consumed ≤ reported Unavailable entries + owed)%nat.

(** The rejection a result carries to the handler that will catch it. *)
Definition owes {A} (r : Res A) : nat :=
  match r with
  | Throw Unavailable => 1
  | _ => 0
  end.

(** A computation that logs the rejections it catches: every run logs
    every call rejected in it, but for the one it throws. *)
Definition logsRejections {A} (m : M A) : Prop :=
  ∀ w, Logged (owes (m w).1) w (m w).2.

(** The notification [checkAchievements] stores with an achievement that
    it has stored under the id [ref]. *)
Definition achievementNotification (now : Timestamp) (userId : string)
    (a : Achievement.t) (ref : nat) : Notification.t :=
  Notification.createNotificationData now userId
    {| Notification.in_type := "achievement";
       Notification.in_title := Achievement.title a;
       Notification.in_message := Achievement.description a;
       Notification.in_data :=
         Some {| Notification.achievementId := Some ref;
                 Notification.d_level := None |} |}.

(** The XP the achievements of a list are worth. *)
Definition rewards (l : list Achievement.t) : Z :=
  foldr Z.add 0 (Achievement.xpReward <$> l).

(** The [catch] block of [POST /] of [routes/checkins.js]. *)
Definition createCheckInCatch (error : Exn) : M Http.Response :=
  consoleError "Create check-in error:" error;;
  mret {| Http.status := 500;
          Http.body := Http.Failure "Failed to create check-in" (Some error) |}.

(** The check-in document [POST /] builds from a request. *)
Definition checkInOf (now : Timestamp) (userId : string) (req : CheckInRequest)
    (checkInDate : Timestamp) : CheckIn.t :=
  CheckIn.createCheckInData now (req_habitId req) userId
    {| CheckIn.in_date := Some checkInDate;
       CheckIn.in_completed := JBool (notFalse (req_completed req));
       CheckIn.in_completionPercentage :=
         Some (numOr (req_completionPercentage req)
                     (if notFalse (req_completed req) then 100 else 0));
       CheckIn.in_notes := req_notes req;
       CheckIn.in_photoUrl := req_photoUrl req;
       CheckIn.in_mood := req_mood req |}.

(** A request for habit [h1] that names neither a date nor notes. *)
Definition bareRequest (completed : JsVal) : CheckInRequest :=
  {| req_habitId := "h1"; req_date := None; req_completed := completed;
     req_completionPercentage := None; req_notes := None; req_photoUrl := None;
     req_mood := None |}.

(** A frequency rule that accepts every date, as [daily] does. *)
Definition anyDate (habit : Habit.t) (date : Timestamp) : bool := true.


(** * The rest of the files: senders, habit routes *)

(** ** services/fcmService.js: the other senders *)

(** [sendHabitReminder(userId, habitId, habitName)] *)
Definition sendHabitReminder (userId habitId habitName : string) : M Fcm.Result :=
  sendNotification userId
    "Habit Reminder"
    ("Time to check in: " +:+ habitName)
    [("type", "habit_reminder"); ("habitId", habitId)].

(** [sendStreakAlert(userId, habitName, streak)] *)
Definition sendStreakAlert (userId habitName : string) (streak : Z) : M Fcm.Result :=
  sendNotification userId
    "🔥 Streak Alert!"
    ("You're on a " +:+ pretty streak +:+ "-day streak with " +:+ habitName
       +:+ "! Keep it up!")
    [("type", "streak_alert"); ("streak", pretty streak)].

(** [sendMotivation(userId, message)] *)
Definition sendMotivation (userId message : string) : M Fcm.Result :=
  sendNotification userId
    "💪 Your Daily Motivation"
    message
    [("type", "motivation")].

(** ** routes/habits.js: [GET /:id], [PATCH /:id/pause], [PATCH /:id/archive] *)

(** [habitRef.update({ paused, updatedAt })] *)
Definition setPaused (p : bool) (now : Timestamp) (h : Habit.t) : Habit.t :=
  {| Habit.userId := Habit.userId h;
     Habit.name := Habit.name h;
     Habit.frequency := Habit.frequency h;
     Habit.status := Habit.status h;
     Habit.archived := Habit.archived h;
     Habit.paused := p;
     Habit.streak := Habit.streak h;
     Habit.longestStreak := Habit.longestStreak h;
     Habit.totalCompletions := Habit.totalCompletions h;
     Habit.completedDates := Habit.completedDates h;
     Habit.createdAt := Habit.createdAt h;
     Habit.updatedAt := now;
     Habit.lastCheckIn := Habit.lastCheckIn h |}.

(** [habitRef.update({ archived: true, paused: true, updatedAt })] *)
Definition setArchived (now : Timestamp) (h : Habit.t) : Habit.t :=
  {| Habit.userId := Habit.userId h;
     Habit.name := Habit.name h;
     Habit.frequency := Habit.frequency h;
     Habit.status := Habit.status h;
     Habit.archived := true;
     Habit.paused := true;
     Habit.streak := Habit.streak h;
     Habit.longestStreak := Habit.longestStreak h;
     Habit.totalCompletions := Habit.totalCompletions h;
     Habit.completedDates := Habit.completedDates h;
     Habit.createdAt := Habit.createdAt h;
     Habit.updatedAt := now;
     Habit.lastCheckIn := Habit.lastCheckIn h |}.

(** The responses of these three routes. *)
Module HabitsHttp.
Inductive Body :=
  | Failure (message : string)
  | Done (message : string)
  | HabitDoc (message : option string) (id : string) (habit : Habit.t).

Record Response := {
  status : Z;
  body : Body
}.

(** [res.status(code).json({ success: false, message })] *)
Definition fail (code : Z) (message : string) : Response :=
  {| status := code; body := Failure message |}.

(** [res.json(payload)] *)
Definition json (payload : Body) : Response :=
  {| status := 200; body := payload |}.
End HabitsHttp.

(** [GET /:id].  [uid] is [req.user.uid], [id] is [req.params.id]. *)
Definition habits_get (uid id : string) : M HabitsHttp.Response :=
  tryCatch
    (habitDoc ← getHabit id;
     match habitDoc with
     | None => mret (HabitsHttp.fail 404 "Habit not found")
     | Some habit =>
       if negb (bool_decide (Habit.userId habit = uid)) then
         mret (HabitsHttp.fail 403 "Unauthorized access")
       else
         mret (HabitsHttp.json (HabitsHttp.HabitDoc None id habit))
     end)
    (λ error,
       consoleError "Get habit error:" error;;
       mret (HabitsHttp.fail 500 "Failed to fetch habit")).

(** [PATCH /:id/pause].  Reading [paused] off a document that is gone is a
    [TypeError]. *)
Definition habits_pause (uid id : string) : M HabitsHttp.Response :=
  tryCatch
    (habitDoc ← getHabit id;
     match habitDoc with
     | None => mret (HabitsHttp.fail 404 "Habit not found")
     | Some habit =>
       if negb (bool_decide (Habit.userId habit = uid)) then
         mret (HabitsHttp.fail 403 "Unauthorized access")
       else
         now ← newDate;
         updateHabit id (setPaused (negb (Habit.paused habit)) now);;
         updatedDoc ← getHabit id;
         match updatedDoc with
         | None => throw (JsError "Cannot read properties of undefined (reading 'paused')")
         | Some updated =>
           mret (HabitsHttp.json
                   (HabitsHttp.HabitDoc
                      (Some ("Habit "
                               +:+ (if Habit.paused updated then "paused" else "resumed")
                               +:+ " successfully"))
                      id updated))
         end
     end)
    (λ error,
       consoleError "Pause habit error:" error;;
       mret (HabitsHttp.fail 500 "Failed to pause/resume habit")).

(** [PATCH /:id/archive] *)
Definition habits_archive (uid id : string) : M HabitsHttp.Response :=
  tryCatch
    (habitDoc ← getHabit id;
     match habitDoc with
     | None => mret (HabitsHttp.fail 404 "Habit not found")
     | Some habit =>
       if negb (bool_decide (Habit.userId habit = uid)) then
         mret (HabitsHttp.fail 403 "Unauthorized access")
       else
         now ← newDate;
         updateHabit id (setArchived now);;
         mret (HabitsHttp.json (HabitsHttp.Done "Habit archived successfully"))
     end)
    (λ error,
       consoleError "Archive habit error:" error;;
       mret (HabitsHttp.fail 500 "Failed to archive habit")).

(** ** Predicates used in the statements about them *)

(** Nothing stored, sent or logged differs between two worlds: at most the
    plan of rejections has advanced. *)
Definition untouched (w w' : World) : Prop :=
  habits w' = habits w ∧ users w' = users w ∧ checkins w' = checkins w
  ∧ achievements w' = achievements w ∧ notifications w' = notifications w
  ∧ outbox w' = outbox w ∧ console w' = console w ∧ clock w' = clock w.

(** The same, but for lines written to the console. *)
Definition storeUntouched (w w' : World) : Prop :=
  habits w' = habits w ∧ users w' = users w ∧ checkins w' = checkins w
  ∧ achievements w' = achievements w ∧ notifications w' = notifications w
  ∧ outbox w' = outbox w ∧ clock w' = clock w.

(** Two habit documents that agree on every field but [paused],
    [archived] and [updatedAt]. *)
Definition sameButFlags (h h' : Habit.t) : Prop :=
  Habit.userId h' = Habit.userId h ∧ Habit.name h' = Habit.name h
  ∧ Habit.frequency h' = Habit.frequency h ∧ Habit.status h' = Habit.status h
  ∧ Habit.streak h' = Habit.streak h ∧ Habit.longestStreak h' = Habit.longestStreak h
  ∧ Habit.totalCompletions h' = Habit.totalCompletions h
  ∧ Habit.completedDates h' = Habit.completedDates h
  ∧ Habit.createdAt h' = Habit.createdAt h ∧ Habit.lastCheckIn h' = Habit.lastCheckIn h.

(** A sender that is best effort for user [userId]: it always resolves,
    leaves every collection of the store alone, and either sends nothing or
    hands the gateway one message addressed to the token stored for the
    user. *)
Definition bestEffort (userId : string) (send : M Fcm.Result) : Prop :=
  ∀ w, ∃ r w',
    send w = (Ok r, w')
    ∧ habits w' = habits w ∧ users w' = users w ∧ checkins w' = checkins w
    ∧ achievements w' = achievements w ∧ notifications w' = notifications w
    ∧ ((outbox w' = outbox w ∧ ∀ id, r ≠ Fcm.Sent id)
       ∨ ∃ u m,
           users w !! userId = Some u
           ∧ strOrNull (User.fcmToken u) = Some (Fcm.token m)
           ∧ r = Fcm.Sent (length (outbox w))
           ∧ outbox w' = outbox w ++ [m]).

(** Two habit documents that agree on every field but [streak],
    [completedDates], [updatedAt] and [lastCheckIn]. *)
Definition sameButStreak (h h' : Habit.t) : Prop :=
  Habit.userId h' = Habit.userId h ∧ Habit.name h' = Habit.name h
  ∧ Habit.frequency h' = Habit.frequency h ∧ Habit.status h' = Habit.status h
  ∧ Habit.archived h' = Habit.archived h ∧ Habit.paused h' = Habit.paused h
  ∧ Habit.longestStreak h' = Habit.longestStreak h
  ∧ Habit.totalCompletions h' = Habit.totalCompletions h
  ∧ Habit.createdAt h' = Habit.createdAt h.

(** [sameButFlags], and an archived habit is still archived. *)
Definition flagsOnly (h h' : Habit.t) : Prop :=
  sameButFlags h h' ∧ (Habit.archived h = true → Habit.archived h' = true).

(** What a habit route keeps: no habit document is created or deleted,
    each one is related by [Q] to what it was, and check-ins, achievements
    and stored notifications are unchanged. *)
Record Keeps (Q : relation Habit.t) (w w' : World) : Prop := {
  keeps_habits : ∀ id, option_Forall2 Q (habits w !! id) (habits w' !! id);
  keeps_checkins : checkins w' = checkins w;
  keeps_achievements : achievements w' = achievements w;
  keeps_notifications : notifications w' = notifications w
}.

(** The achievements of another type than [level]: the ones that
    [checkAchievements] unlocks. *)
Definition unlockedAmong (l : list Achievement.t) : list Achievement.t :=
  List.filter (λ a, negb (bool_decide (isLevel a))) l.

(** Unlocked achievements and stored notifications grow together: when no
    call rejects in [w], none does in [w'], and as many notifications as
    achievements of another type than [level] were added between the two. *)
Definition Paired (w w' : World) : Prop :=
  faults w = [] →
  faults w' = []
  ∧ (length (unlockedAmong (achievements w')) + length (notifications w)
     = length (unlockedAmong (achievements w)) + length (notifications w'))%nat.

(** An achievement of user [userId]. *)
Definition ownedBy (userId : string) (a : Achievement.t) : Prop :=
  Achievement.userId a = userId.

(** Every stored notification that names an achievement names a stored
    one, and carries its title and its description. *)
Definition notificationsResolve (w : World) : Prop :=
  ∀ n ref,
    n ∈ notifications w →
    Notification.data n ≫= Notification.achievementId = Some ref →
    ∃ a, achievements w !! ref = Some a
         ∧ Notification.title n = Achievement.title a
         ∧ Notification.message n = Achievement.description a.

(** Achievements are only appended between [w] and [w'], and if the
    notifications resolve in [w] they do in [w']. *)
Definition Resolves (w w' : World) : Prop :=
  achievements w `prefix_of` achievements w'
  ∧ (notificationsResolve w → notificationsResolve w').
(** * Reasoning about computations *)

Lemma bind_inv {A B} (m : M A) (f : A → M B) w r w' :
  (m ≫= f) w = (r, w') →
  (∃ a w1, m w = (Ok a, w1) ∧ f a w1 = (r, w'))
  ∨ (∃ e, m w = (Throw e, w') ∧ r = Throw e)
  ∨ (m w = (Diverge, w') ∧ r = Diverge).
Proof.
  unfold mbind, M_bind. destruct (m w) as [[a|e|] w1]; intros H.
  - left. eauto.
  - right; left. inversion H; subst. eauto.
  - right; right. inversion H; subst. eauto.
Qed.

Lemma bind_ok {A B} (m : M A) (f : A → M B) w a w1 :
  m w = (Ok a, w1) → (m ≫= f) w = f a w1.
Proof. unfold mbind, M_bind. intros ->. reflexivity. Qed.

Lemma bind_throw {A B} (m : M A) (f : A → M B) w e w1 :
  m w = (Throw e, w1) → (m ≫= f) w = (Throw e, w1).
Proof. unfold mbind, M_bind. intros ->. reflexivity. Qed.

Lemma bind_diverge {A B} (m : M A) (f : A → M B) w w1 :
  m w = (Diverge, w1) → (m ≫= f) w = (Diverge, w1).
Proof. unfold mbind, M_bind. intros ->. reflexivity. Qed.

Lemma tryCatch_inv {A} (m : M A) (h : Exn → M A) w r w' :
  tryCatch m h w = (r, w') →
  (∃ a, m w = (Ok a, w') ∧ r = Ok a)
  ∨ (∃ e w1, m w = (Throw e, w1) ∧ h e w1 = (r, w'))
  ∨ (m w = (Diverge, w') ∧ r = Diverge).
Proof.
  unfold tryCatch. destruct (m w) as [[a|e|] w1]; intros H.
  - left. inversion H; subst. eauto.
  - right; left. eauto.
  - right; right. inversion H; subst. eauto.
Qed.

Lemma tryCatch_ok {A} (m : M A) (h : Exn → M A) w a w1 :
  m w = (Ok a, w1) → tryCatch m h w = (Ok a, w1).
Proof. unfold tryCatch. intros ->. reflexivity. Qed.

Lemma tryCatch_throw {A} (m : M A) (h : Exn → M A) w e w1 :
  m w = (Throw e, w1) → tryCatch m h w = h e w1.
Proof. unfold tryCatch. intros ->. reflexivity. Qed.

Lemma tryCatch_diverge {A} (m : M A) (h : Exn → M A) w w1 :
  m w = (Diverge, w1) → tryCatch m h w = (Diverge, w1).
Proof. unfold tryCatch. intros ->. reflexivity. Qed.

Lemma mret_run {A} (a : A) w : (mret a : M A) w = (Ok a, w).
Proof. reflexivity. Qed.

Lemma bind_newDate {B} (f : Z → M B) w : (newDate ≫= f) w = f (clock w) w.
Proof. reflexivity. Qed.

(** *** Inversion of runs *)

Lemma await_inv w r w' :
  await w = (r, w') →
  ∃ fl, w' = withFaults fl w ∧ (faults w = [] → fl = [])
    ∧ (r = Ok () ∨ (r = Throw Unavailable ∧ faults w ≠ [])).
Proof.
  unfold await. destruct w as [hs us cs acs ns ob con clk fl]; simpl.
  destruct fl as [|[] fl]; intros [= <- <-]; eexists; (split; [reflexivity|]); simpl;
    split; auto; discriminate.
Qed.

Lemma reads_inv {A} (f : World → A) w r w' : reads f w = (r, w') → r = Ok (f w) ∧ w' = w.
Proof. by intros [= <- <-]. Qed.

Lemma modify_inv f w r w' : modify f w = (r, w') → r = Ok () ∧ w' = f w.
Proof. by intros [= <- <-]. Qed.

Lemma mret_inv {A} (a : A) w r w' : (mret a : M A) w = (r, w') → r = Ok a ∧ w' = w.
Proof. by intros [= <- <-]. Qed.

Lemma throw_inv {A} e w (r : Res A) w' : throw e w = (r, w') → r = Throw e ∧ w' = w.
Proof. by intros [= <- <-]. Qed.

Lemma diverge_inv {A} w (r : Res A) w' : diverge w = (r, w') → r = Diverge ∧ w' = w.
Proof. by intros [= <- <-]. Qed.

Lemma newDate_inv w r w' : newDate w = (r, w') → r = Ok (clock w) ∧ w' = w.
Proof. by intros [= <- <-]. Qed.

Lemma consoleLog_inv t w r w' :
  consoleLog t w = (r, w') → r = Ok () ∧ w' = withConsole (console w ++ [ConsoleLog t]) w.
Proof. by intros [= <- <-]. Qed.

Lemma consoleWarn_inv t e w r w' :
  consoleWarn t e w = (r, w') → r = Ok () ∧ w' = withConsole (console w ++ [ConsoleWarn t e]) w.
Proof. by intros [= <- <-]. Qed.

Lemma consoleError_inv t e w r w' :
  consoleError t e w = (r, w') → r = Ok () ∧ w' = withConsole (console w ++ [ConsoleError t e]) w.
Proof. by intros [= <- <-]. Qed.

(** [minv H] takes a run [H : m w = (r, w')] apart along the structure of
    [m]: binds, [try]/[catch] blocks, branches and store calls. *)
Ltac minv H :=
  lazymatch type of H with
  | mbind _ _ _ = _ =>
      let H1 := fresh "Hrun" in
      let H2 := fresh "Hrun" in
      apply bind_inv in H as [(? & ? & H1 & H2) | [(? & H1 & ?) | (H1 & ?)]];
      [simplify_eq; minv H1; minv H2 | simplify_eq; minv H1 | simplify_eq; minv H1]
  | tryCatch _ _ _ = _ =>
      let H1 := fresh "Hrun" in
      let H2 := fresh "Hrun" in
      apply tryCatch_inv in H as [(? & H1 & ?) | [(? & ? & H1 & H2) | (H1 & ?)]];
      [simplify_eq; minv H1 | simplify_eq; minv H1; minv H2 | simplify_eq; minv H1]
  | await _ = _ => apply await_inv in H as (? & ? & ? & [? | [? ?]]); simplify_eq
  | reads _ _ = _ => apply reads_inv in H as [? ?]; simplify_eq
  | modify _ _ = _ => apply modify_inv in H as [? ?]; simplify_eq
  | mret _ _ = _ => apply mret_inv in H as [? ?]; simplify_eq
  | throw _ _ = _ => apply throw_inv in H as [? ?]; simplify_eq
  | diverge _ = _ => apply diverge_inv in H as [? ?]; simplify_eq
  | newDate _ = _ => apply newDate_inv in H as [? ?]; simplify_eq
  | consoleLog _ _ = _ => apply consoleLog_inv in H as [? ?]; simplify_eq
  | consoleWarn _ _ _ = _ => apply consoleWarn_inv in H as [? ?]; simplify_eq
  | consoleError _ _ _ = _ => apply consoleError_inv in H as [? ?]; simplify_eq
  | getUser _ _ = _ => unfold getUser in H; minv H
  | getHabit _ _ = _ => unfold getHabit in H; minv H
  | updateUser _ _ _ = _ => unfold updateUser in H; minv H
  | updateHabit _ _ _ = _ => unfold updateHabit in H; minv H
  | addCheckin _ _ = _ => unfold addCheckin in H; minv H
  | addAchievement _ _ = _ => unfold addAchievement in H; minv H
  | addNotification _ _ = _ => unfold addNotification in H; minv H
  | queryAchievements _ _ = _ => unfold queryAchievements in H; minv H
  | queryCheckins _ _ = _ => unfold queryCheckins in H; minv H
  | messagingSend _ _ = _ => unfold messagingSend in H; minv H
  | (match ?x with Some _ => _ | None => _ end) _ = _ =>
      let E := fresh "E" in destruct x eqn:E; minv H
  | (if ?b then _ else _) _ = _ =>
      let E := fresh "E" in destruct b eqn:E; minv H
  | _ => idtac
  end.

(** *** Relations every step of a computation respects *)

Section Respects.
Context (R : relation World) `{!PreOrder R}.

Lemma respects_ret {A} (a : A) : respects R (mret a : M A).
Proof. intros w. reflexivity. Qed.

Lemma respects_throw {A} e : respects R (throw e : M A).
Proof. intros w. reflexivity. Qed.

Lemma respects_diverge {A} : respects R (diverge : M A).
Proof. intros w. reflexivity. Qed.

Lemma respects_reads {A} (f : World → A) : respects R (reads f).
Proof. intros w. reflexivity. Qed.

Lemma respects_newDate : respects R newDate.
Proof. intros w. reflexivity. Qed.

Lemma respects_bind {A B} (m : M A) (f : A → M B) :
  respects R m → (∀ a, respects R (f a)) → respects R (m ≫= f).
Proof.
  intros Hm Hf w. specialize (Hm w). unfold mbind, M_bind.
  destruct (m w) as [[a|e|] w1]; simpl in *; auto.
  etransitivity; [exact Hm|]. apply Hf.
Qed.

Lemma respects_tryCatch {A} (m : M A) (h : Exn → M A) :
  respects R m → (∀ e, respects R (h e)) → respects R (tryCatch m h).
Proof.
  intros Hm Hh w. specialize (Hm w). unfold tryCatch.
  destruct (m w) as [[a|e|] w1]; simpl in *; auto.
  etransitivity; [exact Hm|]. apply Hh.
Qed.

Lemma respects_forOf {A S} (l : list A) (body : S → A → M S) :
  (∀ s x, respects R (body s x)) → ∀ s, respects R (forOf l body s).
Proof.
  intros Hb. induction l as [|x l IH]; intros s; simpl.
  - apply respects_ret.
  - apply respects_bind; auto.
Qed.

Lemma respects_run {A} (m : M A) w r w' :
  respects R m → m w = (r, w') → R w w'.
Proof. intros Hm E. specialize (Hm w). rewrite E in Hm. exact Hm. Qed.
End Respects.

(** *** Runs in which no call rejects *)

Lemma await_reliable w : faults w = [] → await w = (Ok (), w).
Proof. unfold await. intros ->. reflexivity. Qed.

Lemma getHabit_reliable w id :
  faults w = [] → getHabit id w = (Ok (habits w !! id), w).
Proof. intros H. unfold getHabit. rewrite (bind_ok _ _ _ _ _ (await_reliable w H)). reflexivity. Qed.

Lemma getUser_reliable w id :
  faults w = [] → getUser id w = (Ok (users w !! id), w).
Proof. intros H. unfold getUser. rewrite (bind_ok _ _ _ _ _ (await_reliable w H)). reflexivity. Qed.

Lemma updateHabit_reliable w id f h :
  faults w = [] → habits w !! id = Some h →
  updateHabit id f w = (Ok (), withHabits (<[id := f h]> (habits w)) w).
Proof.
  intros H Hh. unfold updateHabit. rewrite (bind_ok _ _ _ _ _ (await_reliable w H)).
  unfold mbind, M_bind, reads. rewrite Hh. reflexivity.
Qed.

Lemma updateUser_reliable w id f u :
  faults w = [] → users w !! id = Some u →
  updateUser id f w = (Ok (), withUsers (<[id := f u]> (users w)) w).
Proof.
  intros H Hu. unfold updateUser. rewrite (bind_ok _ _ _ _ _ (await_reliable w H)).
  unfold mbind, M_bind, reads. rewrite Hu. reflexivity.
Qed.

Lemma updateUser_missing w id f :
  faults w = [] → users w !! id = None → updateUser id f w = (Throw NotFound, w).
Proof.
  intros H Hu. unfold updateUser. rewrite (bind_ok _ _ _ _ _ (await_reliable w H)).
  unfold mbind, M_bind, reads. rewrite Hu. reflexivity.
Qed.

Lemma addCheckin_reliable w c :
  faults w = [] →
  addCheckin c w = (Ok (length (checkins w)), withCheckins (checkins w ++ [c]) w).
Proof. intros H. unfold addCheckin. rewrite (bind_ok _ _ _ _ _ (await_reliable w H)). reflexivity. Qed.

Lemma addAchievement_reliable w a :
  faults w = [] →
  addAchievement a w = (Ok (length (achievements w)), withAchievements (achievements w ++ [a]) w).
Proof. intros H. unfold addAchievement. rewrite (bind_ok _ _ _ _ _ (await_reliable w H)). reflexivity. Qed.

Lemma addNotification_reliable w n :
  faults w = [] → undefinedField n = None →
  addNotification n w
  = (Ok (length (notifications w)), withNotifications (notifications w ++ [n]) w).
Proof.
  intros H Hn. unfold addNotification. rewrite Hn.
  rewrite (bind_ok _ _ _ _ _ (await_reliable w H)). reflexivity.
Qed.

(** A notification that holds [undefined] is refused, whatever the plan. *)
Lemma addNotification_undefined w n field :
  undefinedField n = Some field → addNotification n w = (Throw (UndefinedValue field), w).
Proof. intros Hn. unfold addNotification. by rewrite Hn. Qed.

Lemma queryAchievements_reliable w p :
  faults w = [] → queryAchievements p w = (Ok (List.filter p (achievements w)), w).
Proof. intros H. unfold queryAchievements. rewrite (bind_ok _ _ _ _ _ (await_reliable w H)). reflexivity. Qed.

Lemma queryCheckins_reliable w p :
  faults w = [] → queryCheckins p w = (Ok (List.filter p (checkins w)), w).
Proof. intros H. unfold queryCheckins. rewrite (bind_ok _ _ _ _ _ (await_reliable w H)). reflexivity. Qed.

Lemma messagingSend_reliable w m :
  faults w = [] →
  messagingSend m w = (Ok (length (outbox w)), withOutbox (outbox w ++ [m]) w).
Proof. intros H. unfold messagingSend. rewrite (bind_ok _ _ _ _ _ (await_reliable w H)). reflexivity. Qed.

(** [sendNotification] when no call rejects: the three ways it ends. *)
Lemma sendNotification_reliable w userId title body data :
  faults w = [] →
  sendNotification userId title body data w =
  match users w !! userId with
  | None =>
    (Ok Fcm.Failed,
     withConsole (console w ++ [ConsoleError "❌ FCM Error:" (JsError "User not found")]) w)
  | Some userData =>
    match strOrNull (User.fcmToken userData) with
    | None =>
      (Ok Fcm.NoToken,
       withConsole (console w ++ [ConsoleLog ("No FCM token for user " +:+ userId)]) w)
    | Some fcmToken =>
      (Ok (Fcm.Sent (length (outbox w))),
       withConsole (console w ++ [ConsoleLog "✅ Notification sent:"])
         (withOutbox
            (outbox w ++ [{| Fcm.title := title; Fcm.body := body;
                             Fcm.data := data ++ [("timestamp", pretty (clock w))];
                             Fcm.token := fcmToken |}]) w))
    end
  end.
Proof.
  intros H. unfold sendNotification.
  destruct (users w !! userId) as [u|] eqn:Hu.
  - destruct (strOrNull (User.fcmToken u)) as [tok|] eqn:Htok.
    + erewrite tryCatch_ok; [reflexivity|].
      rewrite (bind_ok _ _ _ _ _ (getUser_reliable w userId H)), Hu, Htok.
      rewrite (bind_ok _ _ _ _ _ (eq_refl : newDate w = (Ok (clock w), w))).
      rewrite (bind_ok _ _ _ _ _ (messagingSend_reliable w _ H)).
      reflexivity.
    + erewrite tryCatch_ok; [reflexivity|].
      rewrite (bind_ok _ _ _ _ _ (getUser_reliable w userId H)), Hu, Htok.
      reflexivity.
  - erewrite tryCatch_throw; [reflexivity|].
    rewrite (bind_ok _ _ _ _ _ (getUser_reliable w userId H)), Hu. reflexivity.
Qed.

Lemma sendNotification_reliable_frame w userId title body data :
  faults w = [] →
  let w' := (sendNotification userId title body data w).2 in
  faults w' = [] ∧ habits w' = habits w ∧ users w' = users w ∧ clock w' = clock w
  ∧ checkins w' = checkins w ∧ achievements w' = achievements w
  ∧ notifications w' = notifications w.
Proof.
  intros H. simpl. rewrite sendNotification_reliable by done.
  destruct (users w !! userId) as [u|]; [destruct (strOrNull _)|]; simpl; repeat split; done.
Qed.

Lemma sendNotification_returns w userId title body data :
  faults w = [] → ∃ r, (sendNotification userId title body data w).1 = Ok r.
Proof.
  intros H. rewrite sendNotification_reliable by done.
  destruct (users w !! userId) as [u|]; [destruct (strOrNull _)|]; simpl; eauto.
Qed.

(** ** The calendar *)


(** * routes/habits.js: the check-in of a habit *)






(** A check-in on a day that is already a completed date is refused and
    the world is left as it was. *)
Lemma habits_checkIn_duplicate dayBefore (w : World) (uid id : string) (habit : Habit.t) :
  faults w = [] → habits w !! id = Some habit → Habit.userId habit = uid →
  Habit.archived habit = false → Habit.paused habit = false →
  isoDate (clock w) ∈ default [] (Habit.completedDates habit) →
  habits_checkIn dayBefore uid id w = (Ok (Http.fail 400 "Already checked in today"), w).
Proof.
  intros reliable stored owned Ha Hp Hdup.
  unfold habits_checkIn. erewrite tryCatch_ok; [reflexivity|].
  rewrite (bind_ok _ _ _ _ _ (getHabit_reliable w id reliable)), stored.
  rewrite bool_decide_true by done. rewrite Ha, Hp. cbn [negb orb].
  rewrite (bind_ok _ _ _ _ _ (eq_refl : newDate w = (Ok (clock w), w))).
  unfold includes. rewrite bool_decide_true by done. reflexivity.
Qed.

(** *** The longest streak *)

(** C2 fails on [POST /:id/checkIn]: the update names [completedDates],
    [streak], [updatedAt] and [lastCheckIn] only.  The first check-in of a
    habit as [createHabitData] builds it leaves [streak = 1] above
    [longestStreak = 0], in whatever zone the server runs. *)
Theorem checkIn_leaves_longestStreak (dayBefore : Timestamp → Timestamp) :
  let habit := Habit.createHabitData 0 "u1"
                 {| Habit.in_name := "Run"; Habit.in_frequency := None |} in
  let w := habitWorld habit jan6 in
  let w' := (habits_checkIn dayBefore "u1" "h1" w).2 in
  Habit.streak habit = Some 0
  ∧ Habit.longestStreak habit = Some 0
  ∧ (habits_checkIn dayBefore "u1" "h1" w).1
    = Ok (Http.json (Http.HabitCheckedIn (habits w' !! "h1") 1))
  ∧ (habits w' !! "h1") ≫= Habit.streak = Some 1
  ∧ (habits w' !! "h1") ≫= Habit.longestStreak = Some 0
  ∧ (habits w' !! "h1") ≫= Habit.completedDates = Some [jan6].
Proof. vm_compute. repeat split; reflexivity. Qed.
(** * services/achievementService.js: XP and levels *)

Section LevelLoop.
Context (T : list Z).

Lemma levelLoop_range n xp d :
  levelLoop T n xp d = d ∨ 1 ≤ levelLoop T n xp d ≤ Z.of_nat n.
Proof.
  induction n as [|i IH]; simpl; [by left|].
  destruct (T !! i) as [req|].
  - destruct (req <=? xp); [right; lia|]. destruct IH; [by left | right; lia].
  - destruct IH; [by left | right; lia].
Qed.

(** The loop returns [i + 1] for the greatest index [i] below [n] whose
    threshold [newXP] reaches, and the level it was entered with when there
    is none. *)
Lemma levelLoop_spec n xp d :
  (∃ i req, (i < n)%nat ∧ T !! i = Some req ∧ req ≤ xp
            ∧ levelLoop T n xp d = Z.of_nat i + 1
            ∧ ∀ j req', (i < j < n)%nat → T !! j = Some req' → xp < req')
  ∨ (levelLoop T n xp d = d
     ∧ ∀ j req', (j < n)%nat → T !! j = Some req' → xp < req').
Proof.
  induction n as [|n IH]; simpl.
  - right. split; [done|]. intros; lia.
  - destruct (T !! n) as [req|] eqn:Hn.
    + destruct (Z.leb_spec req xp) as [Hle|Hlt].
      * left. exists n, req. repeat split; try done; try lia.
      * destruct IH as [(i & r & Hi & Hr & Hle & Hl & Hgt) | [Hl Hall]].
        -- left. exists i, r. repeat split; try done; try lia.
           intros j req' Hj Hreq. destruct (decide (j = n)) as [->|].
           ++ congruence.
           ++ apply (Hgt j); [lia|done].
        -- right. split; [done|]. intros j req' Hj Hreq.
           destruct (decide (j = n)) as [->|]; [congruence|]. apply (Hall j); [lia|done].
    + destruct IH as [(i & r & Hi & Hr & Hle & Hl & Hgt) | [Hl Hall]].
      * left. exists i, r. repeat split; try done; try lia.
        intros j req' Hj Hreq. destruct (decide (j = n)) as [->|]; [congruence|].
        apply (Hgt j); [lia|done].
      * right. split; [done|]. intros j req' Hj Hreq.
        destruct (decide (j = n)) as [->|]; [congruence|]. apply (Hall j); [lia|done].
Qed.

(** Once a threshold is reached, the level entered with plays no part. *)
Lemma levelLoop_reached n xp i req d d' :
  (i < n)%nat → T !! i = Some req → req ≤ xp →
  levelLoop T n xp d = levelLoop T n xp d' ∧ Z.of_nat i + 1 ≤ levelLoop T n xp d.
Proof.
  intros Hi Hreq Hle.
  destruct (levelLoop_spec n xp d) as [(j & r & Hj & Hr & Hrle & Hl & Hgt) | [_ Hall]];
    [|specialize (Hall i req Hi Hreq); exfalso; lia].
  destruct (levelLoop_spec n xp d') as [(j' & r' & Hj' & Hr' & Hrle' & Hl' & Hgt') | [_ Hall]];
    [|specialize (Hall i req Hi Hreq); exfalso; lia].
  assert (¬ (j < j')%nat) by (intros ?; specialize (Hgt j' r' ltac:(lia) Hr'); lia).
  assert (¬ (j' < j)%nat) by (intros ?; specialize (Hgt' j r ltac:(lia) Hr); lia).
  assert (¬ (j < i)%nat) by (intros ?; specialize (Hgt i req ltac:(lia) Hreq); lia).
  split; lia.
Qed.
End LevelLoop.

(** ** What the achievement service leaves alone *)

#[global] Instance Frame_preorder P : PreOrder (Frame P).
Proof.
  split.
  - intros w. split; try done. exists []. by rewrite app_nil_r.
  - intros w1 w2 w3 [Hh Hc Hk Hu (l & Ha & Hl) Hf] [Hh' Hc' Hk' Hu' (l' & Ha' & Hl') Hf'].
    split; try congruence.
    + intros id. by rewrite Hu'.
    + exists (l ++ l'). rewrite Ha', Ha, app_assoc. split; [done|]. by apply Forall_app.
    + auto.
Qed.

Section FrameSteps.
Context (P : Achievement.t → Prop).

Lemma frame_same_data w w' :
  habits w' = habits w → checkins w' = checkins w → clock w' = clock w →
  users w' = users w → achievements w' = achievements w →
  (faults w = [] → faults w' = []) → Frame P w w'.
Proof.
  intros Hh Hc Hk Hu Ha Hf. split; try done.
  - intros id. by rewrite Hu.
  - exists []. by rewrite app_nil_r.
Qed.

Lemma await_frame : respects (Frame P) await.
Proof.
  intros w. destruct (await w) as [r w'] eqn:H. minv H; apply frame_same_data; simpl; auto.
Qed.

Lemma getUser_frame id : respects (Frame P) (getUser id).
Proof.
  intros w. destruct (getUser id w) as [r w'] eqn:H. minv H; apply frame_same_data; simpl; auto.
Qed.

Lemma updateUser_frame id f : respects (Frame P) (updateUser id f).
Proof.
  intros w. destruct (updateUser id f w) as [r w'] eqn:H.
  minv H; try (apply frame_same_data; simpl; by auto).
  split; simpl; try done.
  - intros id'. destruct (decide (id = id')) as [<-|].
    + rewrite lookup_insert_eq, E. split; eauto.
    + by rewrite lookup_insert_ne.
  - exists []. by rewrite app_nil_r.
Qed.

Lemma addAchievement_frame a : P a → respects (Frame P) (addAchievement a).
Proof.
  intros Ha w. destruct (addAchievement a w) as [r w'] eqn:H.
  minv H; try (apply frame_same_data; simpl; by auto).
  split; simpl; try done. exists [a]. split; [done|]. by apply Forall_singleton.
Qed.

Lemma addNotification_frame n : respects (Frame P) (addNotification n).
Proof.
  intros w. destruct (addNotification n w) as [r w'] eqn:H.
  minv H; apply frame_same_data; simpl; auto.
Qed.

Lemma queryAchievements_frame p : respects (Frame P) (queryAchievements p).
Proof.
  intros w. destruct (queryAchievements p w) as [r w'] eqn:H.
  minv H; apply frame_same_data; simpl; auto.
Qed.

Lemma queryCheckins_frame p : respects (Frame P) (queryCheckins p).
Proof.
  intros w. destruct (queryCheckins p w) as [r w'] eqn:H.
  minv H; apply frame_same_data; simpl; auto.
Qed.

Lemma consoleError_frame t e : respects (Frame P) (consoleError t e).
Proof. intros w. by apply frame_same_data. Qed.

Lemma consoleWarn_frame t e : respects (Frame P) (consoleWarn t e).
Proof. intros w. by apply frame_same_data. Qed.
End FrameSteps.

Lemma withFaults_same w : withFaults (faults w) w = w.
Proof. by destruct w. Qed.

(** [reliable] carries the absence of rejections along an inverted run. *)
Ltac reliable :=
  repeat match goal with
  | H : ?a = [] → _, H' : ?a = [] |- _ => specialize (H H')
  | H : faults (_ _ _) = [] → _ |- _ => simpl in H
  | H : faults (_ _ _) ≠ [] |- _ => simpl in H
  | H : ?x = [] |- _ => is_var x; subst x
  | H : ?a ≠ [], H' : ?a = [] |- _ => by destruct H
  | H : [] ≠ [] |- _ => by destruct H
  end.

Section AddXP.
Context (T : list Z) (V : XpValues).

Lemma handleLevelUp_frame f userId newLevel :
  (∀ u a s, respects (Frame isLevel) (f u a s)) →
  respects (Frame isLevel) (handleLevelUp V f userId newLevel).
Proof.
  intros Hf. unfold handleLevelUp.
  apply respects_tryCatch; [apply _| |intros; apply consoleError_frame].
  apply respects_bind; [apply _|apply respects_newDate; apply _|intros now].
  apply respects_bind; [apply _|by apply addAchievement_frame|intros _].
  apply respects_bind; [apply _|apply respects_newDate; apply _|intros now'].
  apply respects_bind; [apply _|by apply addNotification_frame|intros _].
  apply respects_bind; [apply _|apply Hf|intros _]. apply respects_ret; apply _.
Qed.

Lemma addXP_frame fuel userId amount source :
  respects (Frame isLevel) (addXP T V fuel userId amount source).
Proof.
  revert userId amount source.
  induction fuel as [|fuel IH]; intros userId amount source; simpl.
  - apply respects_diverge; apply _.
  - apply respects_tryCatch; [apply _| |].
    + apply respects_bind; [apply _|apply getUser_frame|intros [user|]].
      * apply respects_bind; [apply _|apply respects_newDate; apply _|intros now].
        apply respects_bind; [apply _|apply updateUser_frame|intros _].
        apply respects_bind; [apply _| |intros _; apply respects_ret; apply _].
        destruct (_ <? _); [by apply handleLevelUp_frame|apply respects_ret; apply _].
      * apply respects_throw; apply _.
    + intros e. apply respects_bind; [apply _|apply consoleError_frame|intros _].
      apply respects_throw; apply _.
Qed.

Lemma fuelled_levelUp f userId w w' u newXP now :
  fuelled T (S f) userId w → users w !! userId = Some u →
  levelOf u < levelLoop T (length T) newXP (levelOf u) →
  users w' !! userId
  = Some (User.setXP newXP (levelLoop T (length T) newXP (levelOf u)) now u) →
  fuelled T f userId w'.
Proof.
  intros [Hpos Hm] Hu Hup Hu'.
  pose proof (levelLoop_range T (length T) newXP (levelOf u)) as [Heq|Hrange]; [lia|].
  set (newLevel := levelLoop T (length T) newXP (levelOf u)) in *.
  assert (levelOf (User.setXP newXP newLevel now u) = newLevel) as Hlevel.
  { unfold levelOf at 1; simpl. destruct (Z.eqb_spec newLevel 0); [lia|done]. }
  assert (Z.of_nat (length T) - newLevel < Z.of_nat f) as Hless.
  { destruct Hm as [Hm|Hm]; [lia|]. specialize (Hm u Hu). lia. }
  split; [lia|]. right. rewrite Hu'. intros ? [= <-]. by rewrite Hlevel.
Qed.

Lemma addXP_terminates fuel : ∀ w userId amount source r w',
  fuelled T fuel userId w →
  addXP T V fuel userId amount source w = (r, w') → r ≠ Diverge.
Proof.
  induction fuel as [|f IH]; intros w uid amt src r w' Hfuel Hrun; [destruct Hfuel; lia|].
  intros ->. simpl in Hrun. unfold handleLevelUp in Hrun.
  (* the notification is refused before the call back to [addXP] *)
  minv Hrun.
Qed.

(** [handleLevelUp] catches whatever is thrown below it. *)
Lemma handleLevelUp_catches f userId newLevel w r w' :
  handleLevelUp V f userId newLevel w = (r, w') → r = Ok () ∨ r = Diverge.
Proof. unfold handleLevelUp. intros H. minv H; auto. Qed.

Lemma addXP_returns fuel w userId amount source u :
  faults w = [] → users w !! userId = Some u → fuelled T fuel userId w →
  ∃ w',
    addXP T V fuel userId amount source w
    = (Ok {| xp := xpOf u + amount;
             level := levelLoop T (length T) (xpOf u + amount) (levelOf u);
             levelUp := levelOf u <? levelLoop T (length T) (xpOf u + amount) (levelOf u) |},
       w').
Proof.
  intros Hrel Hu Hfuel.
  destruct (addXP T V fuel userId amount source w) as [r w'] eqn:Hrun.
  pose proof (addXP_terminates _ _ _ _ _ _ _ Hfuel Hrun) as Hterm.
  destruct fuel as [|f]; [destruct Hfuel; lia|]. simpl in Hrun.
  minv Hrun; reliable; simpl in *; simplify_eq; eauto;
    try match goal with
    | H : handleLevelUp _ _ _ _ _ = _ |- _ =>
        apply handleLevelUp_catches in H as [?|?]; simplify_eq
    end.
  all: unfold xpOf, levelOf; rewrite E; eauto.
Qed.

Lemma addXP_user_not_found fuel w userId amount source :
  faults w = [] → users w !! userId = None → (0 < fuel)%nat →
  addXP T V fuel userId amount source w
  = (Throw (JsError "User not found"),
     withConsole (console w ++ [ConsoleError "Error adding XP:" (JsError "User not found")]) w).
Proof.
  intros Hrel Hu Hfuel. destruct fuel as [|f]; [lia|]. simpl.
  erewrite tryCatch_throw; [reflexivity|].
  by rewrite (bind_ok _ _ _ _ _ (getUser_reliable w userId Hrel)), Hu.
Qed.

Lemma derivedLevel_reached u :
  derivedLevel T u →
  ∃ i req, (i < length T)%nat ∧ T !! i = Some req ∧ req ≤ xpOf u
           ∧ levelOf u = Z.of_nat i + 1.
Proof.
  intros Hd.
  destruct (levelLoop_spec T (length T) (xpOf u) (levelOf u + 1))
    as [(i & req & Hi & Hreq & Hle & Hl & _) | [Hl _]].
  - exists i, req. rewrite Hd in Hl. done.
  - rewrite Hd in Hl. lia.
Qed.

Lemma derivedLevel_setXP u newXP now :
  derivedLevel T u → xpOf u ≤ newXP →
  let u' := User.setXP newXP (levelLoop T (length T) newXP (levelOf u)) now u in
  xpOf u' = newXP ∧ levelOf u' = levelLoop T (length T) newXP (levelOf u)
  ∧ levelOf u ≤ levelOf u' ∧ derivedLevel T u'.
Proof.
  intros Hd Hle. destruct (derivedLevel_reached u Hd) as (i & req & Hi & Hreq & Hreq_le & HL).
  destruct (levelLoop_reached T (length T) newXP i req (levelOf u) 0 Hi Hreq ltac:(lia))
    as [_ Hge].
  set (newLevel := levelLoop T (length T) newXP (levelOf u)) in *.
  assert (xpOf (User.setXP newXP newLevel now u) = newXP) as Hxp.
  { unfold xpOf; simpl. destruct (Z.eqb_spec newXP 0); [lia|done]. }
  assert (levelOf (User.setXP newXP newLevel now u) = newLevel) as Hlv.
  { unfold levelOf; simpl. destruct (Z.eqb_spec newLevel 0); [lia|done]. }
  simpl. repeat split; try done; try lia.
  intros d. rewrite Hxp, Hlv.
  by destruct (levelLoop_reached T (length T) newXP i req d (levelOf u) Hi Hreq ltac:(lia)).
Qed.

(** A run of [addXP] in which no call rejects, for a user who exists: the
    level-up handler stores the achievement, is refused the notification
    and stops there. *)
Lemma handleLevelUp_reliable f userId newLevel w :
  faults w = [] →
  handleLevelUp V f userId newLevel w
  = (Ok (),
     withConsole (console w ++ [levelUpRefused])
       (withAchievements (achievements w ++ [levelAchievement V (clock w) userId newLevel]) w)).
Proof.
  intros Hrel. unfold handleLevelUp.
  erewrite tryCatch_throw; cycle 1.
  { rewrite bind_newDate.
    rewrite (bind_ok _ _ _ _ _ (addAchievement_reliable w _ Hrel)).
    rewrite bind_newDate.
    erewrite bind_throw; [reflexivity|].
    by apply addNotification_undefined. }
  reflexivity.
Qed.

Lemma addXP_reliable fuel w userId amount source u :
  faults w = [] → users w !! userId = Some u → (0 < fuel)%nat →
  addXP T V fuel userId amount source w
  = (Ok {| xp := xpOf u + amount;
           level := levelLoop T (length T) (xpOf u + amount) (levelOf u);
           levelUp := levelOf u <? levelLoop T (length T) (xpOf u + amount) (levelOf u) |},
     afterAddXP T V userId amount u w).
Proof.
  intros Hrel Hu Hfuel. destruct fuel as [|f]; [lia|]. simpl.
  unfold afterAddXP, xpOf, levelOf.
  destruct (_ <? _) eqn:Hup; (erewrite tryCatch_ok; [reflexivity|]);
    rewrite (bind_ok _ _ _ _ _ (getUser_reliable w userId Hrel)), Hu;
    rewrite bind_newDate;
    rewrite (bind_ok _ _ _ _ _ (updateUser_reliable w userId _ u Hrel Hu));
    rewrite Hup; [|reflexivity].
  erewrite bind_ok; cycle 1.
  { apply handleLevelUp_reliable. exact Hrel. }
  reflexivity.
Qed.

Lemma afterAddXP_frame userId amount u w :
  let w' := afterAddXP T V userId amount u w in
  faults w' = faults w ∧ habits w' = habits w ∧ checkins w' = checkins w
  ∧ clock w' = clock w ∧ outbox w' = outbox w ∧ notifications w' = notifications w
  ∧ users w' = <[userId := User.setXP (xpOf u + amount)
                             (levelLoop T (length T) (xpOf u + amount) (levelOf u))
                             (clock w) u]> (users w).
Proof. unfold afterAddXP, xpOf, levelOf. simpl. by destruct (_ <? _). Qed.

Lemma xpOf_setXP newXP newLevel now u : xpOf (User.setXP newXP newLevel now u) = newXP.
Proof. unfold xpOf; simpl. destruct (Z.eqb_spec newXP 0); [lia|done]. Qed.

Lemma addXP_level_ups fuel : ∀ w userId amount source r w',
  addXP T V fuel userId amount source w = (r, w') →
  (length (achievements w') ≤ length (achievements w) + levelsLeft T userId w)%nat.
Proof.
  induction fuel as [|f IH]; intros w uid amt src r w' Hrun.
  - injection Hrun as <- <-. lia.
  - simpl in Hrun. unfold handleLevelUp in Hrun.
    minv Hrun; simpl; try lia;
      try match goal with H : addXP _ _ _ _ _ _ _ = _ |- _ => apply IH in H; revert H end;
      unfold levelsLeft, levelOf; simpl; rewrite ?lookup_insert_eq, ?length_app; simpl;
      match goal with H : users w !! uid = Some ?u |- _ => rewrite H end;
      match goal with H : (_ <? _) = true |- _ => apply Z.ltb_lt in H end;
      pose proof (levelLoop_range T (length T) (numOr (User.xp t) 0 + amt)
                    (numOr (User.level t) 1)) as [Heq|Hrange]; try lia;
      destruct (Z.eqb_spec (levelLoop T (length T) (numOr (User.xp t) 0 + amt)
                              (numOr (User.level t) 1)) 0); lia.
Qed.

Lemma bind_ext {A B} (m : M A) (f g : A → M B) w :
  (∀ a w1, m w = (Ok a, w1) → f a w1 = g a w1) → (m ≫= f) w = (m ≫= g) w.
Proof. unfold mbind, M_bind. destruct (m w) as [[a|e|] w1]; auto. Qed.

Lemma bind_ext_l {A B} (m m' : M A) (f : A → M B) w :
  m w = m' w → (m ≫= f) w = (m' ≫= f) w.
Proof. unfold mbind, M_bind. by intros ->. Qed.

Lemma tryCatch_ext_l {A} (m m' : M A) (h : Exn → M A) w :
  m w = m' w → tryCatch m h w = tryCatch m' h w.
Proof. unfold tryCatch. by intros ->. Qed.

(** With enough fuel, more fuel changes nothing. *)
Lemma addXP_fuel f : ∀ w userId amount source,
  fuelled T f userId w →
  addXP T V (S f) userId amount source w = addXP T V f userId amount source w.
Proof.
  induction f as [|g IH]; intros w uid amt src Hfuel; [destruct Hfuel; lia|].
  simpl. apply tryCatch_ext_l. apply bind_ext. intros [u|] w1 Hget; [|done].
  apply bind_ext. intros now w2 Hnow. apply bind_ext. intros ? w3 Hupd.
  apply bind_ext_l. destruct (_ <? _) eqn:Hup; [|done].
  unfold handleLevelUp. apply tryCatch_ext_l.
  apply bind_ext. intros now' w4 Hnow'. apply bind_ext. intros ? w5 Hach.
  apply bind_ext. intros now'' w6 Hnow''. apply bind_ext. intros ? w7 Hnot.
  (* the notification is refused: the call back to [addXP] is not reached *)
  by minv Hnot.
Qed.
End AddXP.

(** ** The claims about [addXP] *)

Lemma fuelled_table T k userId w : fuelled T (S (length T) + k) userId w.
Proof. split; [lia|left; lia]. Qed.

Lemma addXP_fuel_plus T V k w userId amount source :
  addXP T V (S (length T) + k) userId amount source w
  = addXP T V (S (length T)) userId amount source w.
Proof.
  induction k as [|k IH]; [by rewrite Nat.add_0_r|].
  rewrite <- IH. replace (S (length T) + S k)%nat with (S (S (length T) + k)) by lia.
  apply addXP_fuel, fuelled_table.
Qed.

(** C4, as stated, fails where no threshold is reached: the level is then
    the user's current level, not 1.  With thresholds [[0, 100, 250]], a
    user with [xp = 120] at level 2 given [-200] has [xp = -80], below every
    threshold, and the call resolves to level 2 and stores it. *)
Lemma addXP_keeps_level_below_table :
  let user := {| User.xp := Some 120; User.level := Some 2; User.fcmToken := None;
                 User.lastActivity := 0; User.updatedAt := None |} in
  let w := mkWorld ∅ {[ "u1" := user ]} [] [] (noon jan6) [] in
  let run := addXP scenarioThresholds scenarioXpValues 4 "u1" (-200) "admin" w in
  run.1 = Ok {| xp := -80; level := 2; levelUp := false |}
  ∧ List.filter (λ required, required <=? -80) scenarioThresholds = []
  ∧ (users run.2 !! "u1") ≫= User.xp = Some (-80)
  ∧ (users run.2 !! "u1") ≫= User.level = Some 2.
Proof. vm_compute. repeat split; reflexivity. Qed.

(** C4 (amended).  For a user document that exists, [addXP] resolves to
    [{xp, level, levelUp}] where [xp] is the current XP plus the amount,
    [level] is [i + 1] for the greatest [i] with
    [xp >= LEVEL_XP_REQUIREMENTS[i]] (and the current level, which is 1 for a
    user without one, when no threshold is reached), and [levelUp] holds
    exactly when the level is above the current one.  With thresholds
    [[0, 100, 250]], a user with [xp = 95] and [level = 1] given 10 XP gets
    [{xp: 105, level: 2, levelUp: true}]. *)
Theorem addXP_result :
  (∀ (T : list Z) (V : XpValues) (k : nat) (w : World) (userId : string)
     (amount : Z) (source : string) (user : User.t),
     faults w = [] → users w !! userId = Some user →
     ∃ r w',
       addXP T V (S (length T) + k) userId amount source w = (Ok r, w')
       ∧ xp r = xpOf user + amount
       ∧ (levelUp r = true ↔ levelOf user < level r)
       ∧ ((∃ i required,
             T !! i = Some required ∧ required ≤ xp r ∧ level r = Z.of_nat i + 1
             ∧ ∀ j required', T !! j = Some required' → required' ≤ xp r → (j ≤ i)%nat)
          ∨ ((∀ j required', T !! j = Some required' → xp r < required')
             ∧ level r = levelOf user)))
  ∧ (∀ (V : XpValues) (k : nat) (w : World) (userId source : string) (user : User.t),
       faults w = [] → users w !! userId = Some user →
       User.xp user = Some 95 → User.level user = Some 1 →
       ∃ w',
         addXP [0; 100; 250] V (4 + k) userId 10 source w
         = (Ok {| xp := 105; level := 2; levelUp := true |}, w')).
Proof.
  split.
  - intros T V k w userId amount source user Hrel Hu.
    eexists _, _. split.
    { apply (addXP_reliable T V _ w userId amount source user Hrel Hu). lia. }
    simpl. split; [done|]. split.
    + apply Z.ltb_lt.
    + destruct (levelLoop_spec T (length T) (xpOf user + amount) (levelOf user))
        as [(i & req & Hi & Hreq & Hle & Hl & Hgt) | [Hl Hall]].
      * left. exists i, req. repeat split; try done.
        intros j req' Hj Hle'. destruct (decide (j ≤ i)%nat) as [|Hn]; [done|].
        assert (j < length T)%nat by (apply lookup_lt_is_Some; eauto).
        specialize (Hgt j req' ltac:(lia) Hj). lia.
      * right. split; [|done]. intros j req' Hj.
        apply (Hall j); [|done]. apply lookup_lt_is_Some; eauto.
  - intros V k w userId source user Hrel Hu Hxp Hlevel.
    eexists.
    rewrite (addXP_reliable [0; 100; 250] V (4 + k) w userId 10 source user Hrel Hu)
      by lia.
    unfold xpOf, levelOf. rewrite Hxp, Hlevel. reflexivity.
Qed.

(** The scenario in a store that holds the user. *)
Lemma addXP_result_witness :
  ∃ w',
    addXP scenarioThresholds scenarioXpValues 4 "u1" 10 "check_in"
      (habitWorld (sampleHabit 0 0 []) jan6)
    = (Ok {| xp := 105; level := 2; levelUp := true |}, w').
Proof.
  exact (proj2 addXP_result scenarioXpValues 0%nat (habitWorld (sampleHabit 0 0 []) jan6)
           "u1" "check_in" sampleUser eq_refl eq_refl eq_refl eq_refl).
Defined.

(** C7, as stated, fails: [addXP] adds a negative amount as it is given.  A
    user with [xp = 120] at level 2 given [-50] is left with [xp = 70] at
    level 1, and the call resolves. *)
Lemma addXP_takes_negative_amounts :
  let user := {| User.xp := Some 120; User.level := Some 2; User.fcmToken := None;
                 User.lastActivity := 0; User.updatedAt := None |} in
  let w := mkWorld ∅ {[ "u1" := user ]} [] [] (noon jan6) [] in
  let run := addXP scenarioThresholds scenarioXpValues 4 "u1" (-50) "admin" w in
  run.1 = Ok {| xp := 70; level := 1; levelUp := false |}
  ∧ (users run.2 !! "u1") ≫= User.xp = Some 70
  ∧ (users run.2 !! "u1") ≫= User.level = Some 1
  ∧ console run.2 = [].
Proof. vm_compute. repeat split; reflexivity. Qed.

(** One call of [addXP] when no call rejects: what it stores. *)
Lemma addXP_step (T : list Z) (V : XpValues) (fuel : nat) (w : World)
    (userId : string) (amount : Z) (source : string) (user : User.t) :
  faults w = [] → users w !! userId = Some user → (0 < fuel)%nat →
  ∃ r w' user',
    addXP T V fuel userId amount source w = (Ok r, w')
    ∧ faults w' = [] ∧ users w' !! userId = Some user'
    ∧ xp r = xpOf user + amount
    ∧ xpOf user' = xpOf user + amount
    ∧ levelOf user' = level r
    ∧ (0 ≤ amount → xpOf user ≤ xpOf user')
    ∧ (0 ≤ amount → derivedLevel T user →
       levelOf user ≤ levelOf user' ∧ derivedLevel T user')
    ∧ ((∃ i required, T !! i = Some required ∧ required ≤ xpOf user + amount) →
       derivedLevel T user').
Proof.
  intros Hrel Hu Hfuel.
  pose proof (afterAddXP_frame T V userId amount user w) as (Hf & _ & _ & _ & _ & _ & Hus).
  pose proof (levelLoop_range T (length T) (xpOf user + amount) (levelOf user)) as Hrange.
  set (newLevel := levelLoop T (length T) (xpOf user + amount) (levelOf user)) in *.
  assert (newLevel ≠ 0) as Hnz.
  { destruct Hrange as [Heq|?]; [|lia]. rewrite Heq. unfold levelOf.
    destruct (User.level user) as [l|]; simpl; [|done]. by destruct (Z.eqb_spec l 0). }
  assert (levelOf (User.setXP (xpOf user + amount) newLevel (clock w) user) = newLevel) as Hlv.
  { unfold levelOf; simpl. by destruct (Z.eqb_spec newLevel 0). }
  eexists _, _, _. split.
  { by apply (addXP_reliable T V _ w userId amount source user Hrel Hu). }
  split; [by rewrite Hf|]. split; [by rewrite Hus, lookup_insert_eq|].
  rewrite xpOf_setXP, Hlv. simpl. fold newLevel.
  split; [done|]. split; [done|]. split; [done|]. split; [lia|]. split.
  - intros Hamt Hd.
    destruct (derivedLevel_setXP T user (xpOf user + amount) (clock w) Hd ltac:(lia))
      as (_ & Hlv' & Hle & Hd').
    fold newLevel in Hlv', Hle, Hd'. rewrite Hlv in Hle. done.
  - intros (i & req & Hreq & Hle) d. rewrite xpOf_setXP, Hlv.
    assert (i < length T)%nat as Hi by (apply lookup_lt_is_Some; eauto).
    by destruct (levelLoop_reached T (length T) (xpOf user + amount) i req d (levelOf user)
                   Hi Hreq Hle).
Qed.

(** A sequence of calls with non-negative amounts. *)
Lemma addXPs_grow (T : list Z) (V : XpValues) (fuel : nat) (userId source : string) :
  (0 < fuel)%nat →
  ∀ amounts w user,
    faults w = [] → users w !! userId = Some user → Forall (λ amount, 0 ≤ amount) amounts →
    ∃ w' user',
      addXPs T V fuel userId amounts source w = (Ok (), w')
      ∧ faults w' = [] ∧ users w' !! userId = Some user'
      ∧ xpOf user' = xpOf user + foldr Z.add 0 amounts
      ∧ xpOf user ≤ xpOf user'
      ∧ (derivedLevel T user → levelOf user ≤ levelOf user' ∧ derivedLevel T user').
Proof.
  intros Hfuel. induction amounts as [|amount amounts IH]; intros w user Hrel Hu Hpos.
  - exists w, user. simpl. repeat split; (done || lia).
  - apply Forall_cons in Hpos as [Hamount Hpos].
    destruct (addXP_step T V fuel w userId amount source user Hrel Hu Hfuel)
      as (r & w1 & user1 & Hrun & Hrel1 & Hu1 & _ & Hxp1 & _ & Hle1 & Hlevel1 & _).
    destruct (IH w1 user1 Hrel1 Hu1 Hpos) as (w' & user' & Hrest & Hrel' & Hu' & Hxp' & Hle' & Hlevel').
    exists w', user'. split.
    { unfold addXPs in *. simpl forOf. rewrite (bind_ok _ _ w () w1); [done|].
      by rewrite (bind_ok _ _ _ _ _ Hrun). }
    split; [done|]. split; [done|]. simpl foldr.
    split; [lia|]. split; [specialize (Hle1 Hamount); lia|].
    intros Hd. destruct (Hlevel1 Hamount Hd) as [? Hd1].
    destruct (Hlevel' Hd1) as [? ?]. split; [lia|done].
Qed.

(** C7 (amended).  [addXP] adds the amount as it is given, whatever its
    sign: the call resolves, and the XP it stores and returns is the
    current XP plus the amount; the level it stores is the one it returns.
    So a call with a non-negative amount does not lower the stored XP.  It
    does not lower the level either when the stored level is the one the
    table assigns to the stored XP, and the stored level is then again the
    one the table assigns; every call whose new XP reaches a threshold of
    the table leaves the stored level in that state.  Hence across every
    sequence of calls with non-negative amounts the XP grows by their sum
    and never decreases, and from a stored level that is the one the table
    assigns the level never decreases. *)
Theorem addXP_monotone (T : list Z) (V : XpValues) (k : nat) (w : World)
    (userId : string) (amount : Z) (source : string) (user : User.t) :
  faults w = [] → users w !! userId = Some user →
  (∃ r w' user',
     addXP T V (S (length T) + k) userId amount source w = (Ok r, w')
     ∧ faults w' = [] ∧ users w' !! userId = Some user'
     ∧ xp r = xpOf user + amount
     ∧ xpOf user' = xpOf user + amount
     ∧ levelOf user' = level r
     ∧ (0 ≤ amount → xpOf user ≤ xpOf user')
     ∧ (0 ≤ amount → derivedLevel T user →
        levelOf user ≤ levelOf user' ∧ derivedLevel T user')
     ∧ ((∃ i required, T !! i = Some required ∧ required ≤ xpOf user + amount) →
        derivedLevel T user'))
  ∧ (∀ amounts,
       Forall (λ amount, 0 ≤ amount) amounts →
       ∃ w' user',
         addXPs T V (S (length T) + k) userId amounts source w = (Ok (), w')
         ∧ users w' !! userId = Some user'
         ∧ xpOf user' = xpOf user + foldr Z.add 0 amounts
         ∧ xpOf user ≤ xpOf user'
         ∧ (derivedLevel T user → levelOf user ≤ levelOf user' ∧ derivedLevel T user')).
Proof.
  intros Hrel Hu. split.
  - apply addXP_step; (done || lia).
  - intros amounts Hpos.
    destruct (addXPs_grow T V (S (length T) + k) userId source ltac:(lia) amounts w user
                Hrel Hu Hpos) as (w' & user' & ? & _ & ? & ? & ? & ?).
    by exists w', user'.
Qed.

(** The scenario: 95 XP at level 1, a level the table assigns, given 10;
    and the same user given 10, then 0, then 150. *)
Lemma addXP_monotone_witness :
  (∃ r w' user',
     addXP scenarioThresholds scenarioXpValues 4 "u1" 10 "check_in"
       (habitWorld (sampleHabit 0 0 []) jan6) = (Ok r, w')
     ∧ users w' !! "u1" = Some user'
     ∧ xpOf user' = 105 ∧ levelOf user' = 2 ∧ derivedLevel scenarioThresholds user')
  ∧ (∃ w' user',
       addXPs scenarioThresholds scenarioXpValues 4 "u1" [10; 0; 150] "check_in"
         (habitWorld (sampleHabit 0 0 []) jan6) = (Ok (), w')
       ∧ users w' !! "u1" = Some user'
       ∧ xpOf user' = 255 ∧ 1 ≤ levelOf user' ∧ derivedLevel scenarioThresholds user').
Proof.
  destruct (addXP_monotone scenarioThresholds scenarioXpValues 0
              (habitWorld (sampleHabit 0 0 []) jan6) "u1" 10 "check_in" sampleUser)
    as [(r & w' & user' & Hrun & _ & Hu & Hr & Hxp & Hlevel & _ & Hd & _) Hseq];
    [reflexivity | reflexivity |].
  split.
  - exists r, w', user'. split; [done|]. split; [done|]. split; [done|].
    destruct Hd as [Hle Hd']; [lia | intros d; reflexivity |].
    split; [|done].
    vm_compute in Hrun. injection Hrun as <- _. by rewrite Hlevel.
  - destruct (Hseq [10; 0; 150]) as (w2 & user2 & Hrun2 & Hu2 & Hxp2 & _ & Hd2).
    { repeat constructor; lia. }
    destruct Hd2 as [Hle2 Hd2']; [intros d; reflexivity|].
    exists w2, user2. repeat split; try done.
Defined.

(** C9.  Whatever the store holds, whatever calls reject and whatever the
    amount, [addXP] with its level-up handler returns or throws: one unit of
    fuel per entry of the threshold table, and one more, is enough, and more
    fuel changes nothing.  The run creates at most as many achievements as
    the table has entries, each of type [level]. *)
Theorem addXP_level_up_terminates (T : list Z) (V : XpValues) (k : nat) (w : World)
    (userId : string) (amount : Z) (source : string) :
  ∃ r w',
    addXP T V (S (length T)) userId amount source w = (r, w')
    ∧ r ≠ Diverge
    ∧ addXP T V (S (length T) + k) userId amount source w = (r, w')
    ∧ ∃ created,
        achievements w' = achievements w ++ created
        ∧ (length created ≤ length T)%nat
        ∧ Forall isLevel created.
Proof.
  destruct (addXP T V (S (length T)) userId amount source w) as [r w'] eqn:Hrun.
  exists r, w'. split; [done|]. split.
  { eapply (addXP_terminates T V); [|exact Hrun].
    replace (S (length T)) with (S (length T) + 0)%nat by lia. apply fuelled_table. }
  split; [by rewrite addXP_fuel_plus|].
  destruct (respects_run _ _ _ _ _ (addXP_frame T V _ userId amount source) Hrun)
    as [_ _ _ _ (created & Hcreated & Hlevels) _].
  exists created. repeat split; try done.
  pose proof (addXP_level_ups T V _ _ _ _ _ _ _ Hrun) as Hcount.
  rewrite Hcreated, length_app in Hcount.
  assert (levelsLeft T userId w ≤ length T)%nat; [|lia].
  unfold levelsLeft. destruct (users w !! userId); lia.
Qed.

(** * services/achievementService.js: unlocking achievements *)

Section CheckAchievements.
Context (T MS : list Z) (V : XpValues).

(** ** The two sub-checks when no call rejects *)

Lemma checkStreakAchievements_reliable w userId streak habitId :
  faults w = [] →
  checkStreakAchievements MS V userId streak habitId w
  = (Ok (if (streakCount userId streak w =? 0)%nat && includes streak MS
         then [Achievement.createAchievementData (clock w) userId
                 (streakAchievementData V streak habitId)]
         else []), w).
Proof.
  intros Hrel. unfold checkStreakAchievements, streakCount.
  rewrite (bind_ok _ _ _ _ _ (queryAchievements_reliable w _ Hrel)).
  destruct (List.filter _ _) as [|a l]; simpl.
  - destruct (includes streak MS); reflexivity.
  - reflexivity.
Qed.

Lemma checkMilestone_reliable w userId habitId total acc milestone :
  faults w = [] →
  checkMilestone userId habitId total acc milestone w
  = (Ok (acc ++ if (total =? milestone) && negb (completionUnlocked userId habitId milestone w)
                then [Achievement.createAchievementData (clock w) userId
                        (completionAchievementData milestone habitId)]
                else []), w).
Proof.
  intros Hrel. unfold checkMilestone, completionUnlocked.
  destruct (total =? milestone); simpl; [|by rewrite app_nil_r].
  rewrite (bind_ok _ _ _ _ _ (queryAchievements_reliable w _ Hrel)).
  destruct (bool_decide _); simpl; [reflexivity|by rewrite app_nil_r].
Qed.

Lemma forOf_checkMilestone_reliable w userId habitId total ms : ∀ acc,
  faults w = [] →
  forOf ms (checkMilestone userId habitId total) acc w
  = (Ok (acc ++ flat_map
                  (λ milestone,
                     if (total =? milestone)
                        && negb (completionUnlocked userId habitId milestone w)
                     then [Achievement.createAchievementData (clock w) userId
                             (completionAchievementData milestone habitId)]
                     else []) ms), w).
Proof.
  induction ms as [|m ms IH]; intros acc Hrel; simpl.
  - by rewrite app_nil_r.
  - rewrite (bind_ok _ _ _ _ _ (checkMilestone_reliable w userId habitId total acc m Hrel)).
    rewrite IH by done. by rewrite <- app_assoc.
Qed.

(** The completion sub-check creates an achievement exactly when the count
    of completed check-ins is one of the milestones and that milestone is
    not unlocked yet for the habit. *)
Lemma checkCompletionAchievements_reliable w userId habitId :
  faults w = [] →
  let total := completions userId habitId w in
  checkCompletionAchievements userId habitId w
  = (Ok (if includes total milestones && negb (completionUnlocked userId habitId total w)
         then [Achievement.createAchievementData (clock w) userId
                 (completionAchievementData total habitId)]
         else []), w).
Proof.
  intros Hrel total. unfold checkCompletionAchievements.
  rewrite (bind_ok _ _ _ _ _ (queryCheckins_reliable w _ Hrel)).
  fold (completions userId habitId w). fold total.
  rewrite forOf_checkMilestone_reliable by done. simpl app.
  f_equal. f_equal. unfold milestones, includes. simpl flat_map.
  destruct (decide (total ∈ [10; 25; 50; 100; 250; 500])) as [Hin|Hout].
  - rewrite bool_decide_true by done.
    repeat (apply elem_of_cons in Hin as [->|Hin]; [simpl; by destruct (completionUnlocked _ _ _ _)|]).
    by apply elem_of_nil in Hin.
  - rewrite bool_decide_false by done. simpl.
    repeat (apply not_elem_of_cons in Hout as [? Hout]).
    repeat (rewrite (proj2 (Z.eqb_neq total _)) by done). reflexivity.
Qed.

(** ** Saving one achievement *)

Lemma saveAchievement_rest_frame fuel userId (achievement : Achievement.t) (ref : nat) :
  respects (Frame isLevel)
    (now ← newDate;
     addNotification
       (Notification.createNotificationData now userId
          {| Notification.in_type := "achievement";
             Notification.in_title := Achievement.title achievement;
             Notification.in_message := Achievement.description achievement;
             Notification.in_data :=
               Some {| Notification.achievementId := Some ref;
                       Notification.d_level := None |} |});;
     addXP T V fuel userId (Achievement.xpReward achievement) "achievement";;
     mret ()).
Proof.
  apply respects_bind; [apply _|apply respects_newDate; apply _|intros now].
  apply respects_bind; [apply _|apply addNotification_frame|intros _].
  apply respects_bind; [apply _|apply addXP_frame|intros _]. apply respects_ret; apply _.
Qed.

(** Whatever rejects, saving an achievement appends nothing, or the
    achievement followed by achievements of type [level]; it appends the
    achievement when its first call does not reject. *)
Lemma saveAchievement_inv fuel userId a w r w' :
  saveAchievement T V fuel userId a w = (r, w') →
  ∃ created,
    achievements w' = achievements w ++ created
    ∧ (created = [] ∨ ∃ levels, created = a :: levels ∧ Forall isLevel levels)
    ∧ (faults w = [] → created ≠ [])
    ∧ (∀ x, r = Ok x → created ≠ []).
Proof.
  unfold saveAchievement. intros H.
  apply bind_inv in H as [(ref & w1 & Hadd & Hrest) | [(e & Hadd & ->) | (Hadd & ->)]].
  - minv Hadd.
    apply (respects_run (Frame isLevel) _ _ _ _ (saveAchievement_rest_frame _ _ _ _)) in Hrest
      as [_ _ _ _ (levels & Hlevels & ?) _].
    simpl in Hlevels. exists (a :: levels). rewrite Hlevels, <- app_assoc.
    repeat split; try done. right. eauto.
  - minv Hadd. exists []. rewrite app_nil_r. repeat split; try done. by left.
  - minv Hadd.
Qed.

Lemma saveAchievement_reliable fuel userId a w :
  faults w = [] → is_Some (users w !! userId) → (length T < fuel)%nat →
  ∃ w' levels,
    saveAchievement T V fuel userId a w = (Ok (), w')
    ∧ Frame isLevel (withAchievements (achievements w ++ [a]) w) w'
    ∧ achievements w' = achievements w ++ a :: levels ∧ Forall isLevel levels.
Proof.
  intros Hrel [u Hu] Hfuel. unfold saveAchievement.
  rewrite (bind_ok _ _ _ _ _ (addAchievement_reliable w a Hrel)).
  rewrite bind_newDate. simpl clock.
  erewrite bind_ok; [|by apply addNotification_reliable].
  match goal with |- context [(addXP _ _ _ _ ?amt ?src ≫= _) ?w2] =>
    destruct (addXP_returns T V fuel w2 userId amt src u) as (w' & Hrun);
      [done|done|split; [lia|by left]|]
  end.
  rewrite (bind_ok _ _ _ _ _ Hrun).
  pose proof (respects_run (Frame isLevel) _ _ _ _ (addXP_frame T V _ _ _ _) Hrun) as Hframe.
  exists w'. destruct Hframe as [Hh Hc Hk Hus (levels & Ha & Hl) Hf].
  exists levels. split; [reflexivity|]. split.
  - split; simpl in *; try done. eauto.
  - simpl in Ha. rewrite Ha, <- app_assoc. done.
Qed.

Lemma saveAchievement_user_not_found fuel userId a w :
  faults w = [] → users w !! userId = None → (0 < fuel)%nat →
  ∃ w',
    saveAchievement T V fuel userId a w = (Throw (JsError "User not found"), w')
    ∧ Frame (λ _, False) (withAchievements (achievements w ++ [a]) w) w'.
Proof.
  intros Hrel Hu Hfuel. unfold saveAchievement.
  rewrite (bind_ok _ _ _ _ _ (addAchievement_reliable w a Hrel)).
  rewrite bind_newDate. simpl clock.
  erewrite bind_ok; [|by apply addNotification_reliable].
  erewrite bind_throw; [|by apply addXP_user_not_found].
  eexists. split; [reflexivity|]. by apply frame_same_data.
Qed.

(** ** The loop that saves the unlocked achievements *)

Lemma filter_levels (p : Achievement.t → bool) levels :
  (∀ a, p a = true → ¬ isLevel a) → Forall isLevel levels → List.filter p levels = [].
Proof.
  intros Hp. induction 1 as [|a l Ha _ IH]; simpl; [done|].
  destruct (p a) eqn:E; [by destruct (Hp a E)|done].
Qed.

Lemma forOf_save_inv fuel userId (p : Achievement.t → bool) :
  (∀ a, p a = true → ¬ isLevel a) →
  ∀ l w r w',
    forOf l (λ _ a, saveAchievement T V fuel userId a) () w = (r, w') →
    ∃ created,
      achievements w' = achievements w ++ created
      ∧ (length (List.filter p created) ≤ length (List.filter p l))%nat
      ∧ (faults w = [] → ∀ a l0, l = a :: l0 → ∃ rest, created = a :: rest)
      ∧ (∀ x, r = Ok x → ∀ a, a ∈ l → a ∈ created).
Proof.
  intros Hp. induction l as [|a l IH]; intros w r w' Hrun; simpl in Hrun.
  - injection Hrun as <- <-. exists []. rewrite app_nil_r.
    repeat split; try done.
  - apply bind_inv in Hrun as [([] & w1 & Hsave & Hrest) | [(e & Hsave & ->) | (Hsave & ->)]].
    + apply saveAchievement_inv in Hsave as (c1 & Hc1 & Hshape & _ & Hok).
      apply IH in Hrest as (c2 & Hc2 & Hle & _ & Hall).
      destruct Hshape as [->|(levels & -> & Hlevels)]; [by destruct (Hok () eq_refl)|].
      exists ((a :: levels) ++ c2). rewrite Hc2, Hc1, app_assoc. split; [done|].
      split; [|split].
      * rewrite List.filter_app, length_app. simpl.
        rewrite (filter_levels p levels Hp Hlevels).
        destruct (p a); simpl; lia.
      * intros _ a' l0 [= <- <-]. eauto.
      * intros x -> a' Ha'. apply elem_of_cons in Ha' as [->|Ha'].
        -- simpl. apply elem_of_cons. by left.
        -- apply elem_of_app. right. by apply (Hall x).
    + apply saveAchievement_inv in Hsave as (c1 & Hc1 & Hshape & Hrel & _).
      exists c1. split; [done|]. split; [|split].
      * destruct Hshape as [->|(levels & -> & Hlevels)]; simpl; [lia|].
        rewrite (filter_levels p levels Hp Hlevels). destruct (p a); simpl; lia.
      * intros Hf a' l0 [= <- <-].
        destruct Hshape as [->|(levels & -> & Hlevels)]; [by destruct (Hrel Hf)|eauto].
      * done.
    + apply saveAchievement_inv in Hsave as (c1 & Hc1 & Hshape & Hrel & _).
      exists c1. split; [done|]. split; [|split].
      * destruct Hshape as [->|(levels & -> & Hlevels)]; simpl; [lia|].
        rewrite (filter_levels p levels Hp Hlevels). destruct (p a); simpl; lia.
      * intros Hf a' l0 [= <- <-].
        destruct Hshape as [->|(levels & -> & Hlevels)]; [by destruct (Hrel Hf)|eauto].
      * done.
Qed.

Lemma forOf_save_reliable fuel userId : ∀ l w,
  faults w = [] → is_Some (users w !! userId) → (length T < fuel)%nat →
  ∃ w',
    forOf l (λ _ a, saveAchievement T V fuel userId a) () w = (Ok (), w')
    ∧ faults w' = [] ∧ is_Some (users w' !! userId) ∧ checkins w' = checkins w.
Proof.
  induction l as [|a l IH]; intros w Hrel Hu Hfuel; simpl.
  - by exists w.
  - destruct (saveAchievement_reliable fuel userId a w Hrel Hu Hfuel)
      as (w1 & levels & Hsave & [Hh Hc Hk Hus _ Hf] & _).
    rewrite (bind_ok _ _ _ _ _ Hsave).
    destruct (IH w1) as (w' & Hrun & ? & ? & Hc'); [by apply Hf|by apply Hus|done|].
    exists w'. rewrite Hc', Hc. done.
Qed.

Lemma forOf_save_user_not_found fuel userId a l w :
  faults w = [] → users w !! userId = None → (0 < fuel)%nat →
  ∃ w',
    forOf (a :: l) (λ _ a, saveAchievement T V fuel userId a) () w
    = (Throw (JsError "User not found"), w')
    ∧ faults w' = [] ∧ users w' !! userId = None ∧ checkins w' = checkins w.
Proof.
  intros Hrel Hu Hfuel. simpl.
  destruct (saveAchievement_user_not_found fuel userId a w Hrel Hu Hfuel)
    as (w' & Hsave & [Hh Hc Hk Hus _ Hf]).
  rewrite (bind_throw _ _ _ _ _ Hsave). exists w'. repeat split; try done.
  - by apply Hf.
  - apply eq_None_not_Some. rewrite Hus. simpl. by rewrite Hu; intros [? ?].
Qed.

(** ** The two sub-checks, whatever rejects *)

Lemma checkStreakAchievements_inv w userId streak habitId r w' :
  checkStreakAchievements MS V userId streak habitId w = (r, w') →
  achievements w' = achievements w
  ∧ ∀ l, r = Ok l →
      l = [] ∨ (streakCount userId streak w = 0%nat
                ∧ ∃ a, l = [a] ∧ isStreakAchievement userId streak a = true).
Proof.
  unfold checkStreakAchievements. intros H. minv H; simpl; (split; [done|]);
    intros l [= <-]; auto.
  right. split.
  - unfold streakCount. apply negb_false_iff, bool_decide_eq_true in E.
    simpl in E. by rewrite E.
  - eexists. split; [done|]. unfold isStreakAchievement. simpl.
    by rewrite !bool_decide_true.
Qed.

Lemma checkMilestone_inv w userId habitId total acc milestone r w' :
  checkMilestone userId habitId total acc milestone w = (r, w') →
  achievements w' = achievements w
  ∧ (Forall isCompletion acc → ∀ l, r = Ok l → Forall isCompletion l).
Proof.
  unfold checkMilestone. intros H. minv H; simpl; (split; [done|]);
    intros Hacc l [= <-]; auto.
  apply Forall_app. split; [done|]. by apply Forall_singleton.
Qed.

Lemma forOf_checkMilestone_inv userId habitId total ms : ∀ acc w r w',
  forOf ms (checkMilestone userId habitId total) acc w = (r, w') →
  achievements w' = achievements w
  ∧ (Forall isCompletion acc → ∀ l, r = Ok l → Forall isCompletion l).
Proof.
  induction ms as [|m ms IH]; intros acc w r w' H; simpl in H.
  - injection H as <- <-. split; [done|]. by intros Hacc l [= <-].
  - apply bind_inv in H as [(acc' & w1 & Hstep & Hrest) | [(e & Hstep & ->) | (Hstep & ->)]].
    + apply checkMilestone_inv in Hstep as [Ha Hacc'].
      apply IH in Hrest as [Ha' Hl]. split; [congruence|].
      intros Hacc. apply Hl. by apply Hacc'.
    + apply checkMilestone_inv in Hstep as [Ha _]. split; [done|]. by intros.
    + apply checkMilestone_inv in Hstep as [Ha _]. split; [done|]. by intros.
Qed.

Lemma checkCompletionAchievements_inv w userId habitId r w' :
  checkCompletionAchievements userId habitId w = (r, w') →
  achievements w' = achievements w ∧ ∀ l, r = Ok l → Forall isCompletion l.
Proof.
  unfold checkCompletionAchievements. intros H.
  apply bind_inv in H as [(snap & w1 & Hq & Hrest) | [(e & Hq & ->) | (Hq & ->)]].
  - minv Hq. apply forOf_checkMilestone_inv in Hrest as [Ha Hl]. split; [done|].
    intros l. by apply Hl.
  - minv Hq. split; [done|]. by intros.
  - minv Hq.
Qed.

(** ** [checkAchievements], whatever rejects *)

Lemma isStreakAchievement_not_level userId streak a :
  isStreakAchievement userId streak a = true → ¬ isLevel a.
Proof.
  unfold isStreakAchievement, isLevel. intros H Hl. rewrite Hl in H.
  by rewrite (bool_decide_false ("level" = "streak")), andb_false_r in H.
Qed.

Lemma filter_streak_completion userId streak l :
  Forall isCompletion l → List.filter (isStreakAchievement userId streak) l = [].
Proof.
  induction 1 as [|a l Ha _ IH]; simpl; [done|].
  unfold isStreakAchievement at 1. rewrite Ha.
  by rewrite (bool_decide_false ("completion" = "streak")), andb_false_r.
Qed.

(** One run of the check creates at most one achievement of type [streak]
    for the context's streak value, and none when one exists already. *)
Lemma checkAchievements_inv fuel userId type habitId streak w r w' :
  checkAchievements T MS V fuel userId
    {| ctx_type := type; ctx_habitId := habitId; ctx_streak := Some streak |} w = (r, w') →
  ∃ created,
    achievements w' = achievements w ++ created
    ∧ (length (List.filter (isStreakAchievement userId streak) created) ≤ 1)%nat
    ∧ (List.filter (isStreakAchievement userId streak) created ≠ [] →
       streakCount userId streak w = 0%nat).
Proof.
  unfold checkAchievements. cbn [ctx_type ctx_habitId ctx_streak]. intros H.
  match type of H with tryCatch ?m _ _ = _ =>
    assert (∀ r0 w0, m w = (r0, w0) →
      ∃ created,
        achievements w0 = achievements w ++ created
        ∧ (length (List.filter (isStreakAchievement userId streak) created) ≤ 1)%nat
        ∧ (List.filter (isStreakAchievement userId streak) created ≠ [] →
           streakCount userId streak w = 0%nat)) as Hinner
  end.
  { clear H. intros r0 w0 Hin.
    assert (∀ (x : World), achievements x = achievements w →
            ∃ created, achievements x = achievements w ++ created
              ∧ (length (List.filter (isStreakAchievement userId streak) created) ≤ 1)%nat
              ∧ (List.filter (isStreakAchievement userId streak) created ≠ [] →
                 streakCount userId streak w = 0%nat)) as Hsame.
    { intros x Hx. exists []. rewrite app_nil_r. repeat split; simpl; try done; lia. }
    apply bind_inv in Hin as [(sA & w1 & HS & Hin) | [(e & HS & ->) | (HS & ->)]].
    - assert (achievements w1 = achievements w
              ∧ (sA = [] ∨ (streakCount userId streak w = 0%nat
                            ∧ ∃ a, sA = [a] ∧ isStreakAchievement userId streak a = true)))
        as [Ha1 HsA].
      { destruct (_ && _).
        - apply checkStreakAchievements_inv in HS as [? Hl]. split; [done|]. by apply Hl.
        - injection HS as <- <-. auto. }
      apply bind_inv in Hin as [(cA & w2 & HC & Hin) | [(e & HC & ->) | (HC & ->)]].
      + assert (achievements w2 = achievements w1 ∧ Forall isCompletion cA) as [Ha2 HcA].
        { destruct (bool_decide _).
          - apply checkCompletionAchievements_inv in HC as [? Hl]. split; [done|]. by apply Hl.
          - injection HC as <- <-. auto. }
        assert (∃ created, achievements w0 = achievements w2 ++ created
                  ∧ (length (List.filter (isStreakAchievement userId streak) created)
                     ≤ length (List.filter (isStreakAchievement userId streak) (sA ++ cA)))%nat)
          as (created & Hcreated & Hle).
        { apply bind_inv in Hin as [(u & w3 & HL & Hin) | [(e & HL & ->) | (HL & ->)]].
          - injection Hin as <- <-.
            apply (forOf_save_inv fuel userId _ (isStreakAchievement_not_level userId streak))
              in HL as (created & ? & ? & _). eauto.
          - apply (forOf_save_inv fuel userId _ (isStreakAchievement_not_level userId streak))
              in HL as (created & ? & ? & _). eauto.
          - apply (forOf_save_inv fuel userId _ (isStreakAchievement_not_level userId streak))
              in HL as (created & ? & ? & _). eauto. }
        exists created. rewrite Hcreated, Ha2, Ha1. split; [done|].
        rewrite List.filter_app, (filter_streak_completion _ _ cA HcA), app_nil_r in Hle.
        destruct HsA as [->|(Hzero & a & -> & Hpa)]; simpl in Hle.
        * split; [lia|]. intros Hne. destruct (List.filter _ created); [done|simpl in Hle; lia].
        * rewrite Hpa in Hle. simpl in Hle. split; [lia|done].
      + apply Hsame. destruct (bool_decide _).
        * apply checkCompletionAchievements_inv in HC as [? _]. congruence.
        * injection HC as _ <-. done.
      + apply Hsame. destruct (bool_decide _).
        * apply checkCompletionAchievements_inv in HC as [? _]. congruence.
        * injection HC as _ <-. done.
    - apply Hsame. destruct (_ && _).
      + by apply checkStreakAchievements_inv in HS as [? _].
      + by injection HS as _ <-.
    - apply Hsame. destruct (_ && _).
      + by apply checkStreakAchievements_inv in HS as [? _].
      + by injection HS as _ <-. }
  apply tryCatch_inv in H as [(a & Hin & ->) | [(e & w1 & Hin & Hh) | (Hin & ->)]].
  - by apply Hinner in Hin.
  - apply Hinner in Hin as (created & Hc & ?). minv Hh. exists created. by simpl.
  - by apply Hinner in Hin.
Qed.

(** ** [checkAchievements] when no call rejects *)

Lemma checkAchievements_reliable_unfold fuel userId context w :
  faults w = [] →
  checkAchievements T MS V fuel userId context w
  = tryCatch
      (forOf (streakUnlocks MS V userId context w ++ completionUnlocks userId context w)
         (λ _ achievement, saveAchievement T V fuel userId achievement) ();;
       mret (streakUnlocks MS V userId context w ++ completionUnlocks userId context w))
      (λ error, consoleError "Error checking achievements:" error;; mret []) w.
Proof.
  intros Hrel. unfold checkAchievements. apply tryCatch_ext_l.
  assert ((match ctx_streak context with
           | Some streak =>
             if bool_decide (ctx_type context = "check_in") && negb (streak =? 0)
             then checkStreakAchievements MS V userId streak (ctx_habitId context)
             else mret []
           | None => mret []
           end) w = (Ok (streakUnlocks MS V userId context w), w)) as HS.
  { unfold streakUnlocks. destruct (ctx_streak context) as [streak|]; [|done].
    destruct (_ && _); [|done]. by rewrite checkStreakAchievements_reliable. }
  rewrite (bind_ok _ _ _ _ _ HS).
  assert ((if bool_decide (ctx_type context = "check_in")
           then checkCompletionAchievements userId (ctx_habitId context)
           else mret []) w = (Ok (completionUnlocks userId context w), w)) as HC.
  { unfold completionUnlocks. destruct (bool_decide _); [|done].
    by rewrite checkCompletionAchievements_reliable. }
  by rewrite (bind_ok _ _ _ _ _ HC).
Qed.

(** With the user document in the store, every unlocked achievement is
    saved and the check resolves to the list of them. *)
Lemma checkAchievements_reliable fuel userId context w :
  faults w = [] → is_Some (users w !! userId) → (length T < fuel)%nat →
  ∃ w' created,
    checkAchievements T MS V fuel userId context w
    = (Ok (streakUnlocks MS V userId context w ++ completionUnlocks userId context w), w')
    ∧ faults w' = [] ∧ is_Some (users w' !! userId) ∧ checkins w' = checkins w
    ∧ achievements w' = achievements w ++ created
    ∧ ∀ a, a ∈ streakUnlocks MS V userId context w ++ completionUnlocks userId context w →
           a ∈ created.
Proof.
  intros Hrel Hu Hfuel. rewrite checkAchievements_reliable_unfold by done.
  destruct (forOf_save_reliable fuel userId
              (streakUnlocks MS V userId context w ++ completionUnlocks userId context w)
              w Hrel Hu Hfuel) as (w' & Hrun & ? & ? & ?).
  destruct (forOf_save_inv fuel userId (λ _, false) ltac:(done) _ _ _ _ Hrun)
    as (created & ? & _ & _ & Hall).
  exists w', created. split.
  - erewrite tryCatch_ok; [reflexivity|]. by rewrite (bind_ok _ _ _ _ _ Hrun).
  - repeat split; try done. by apply (Hall ()).
Qed.

(** Without the user document the first save throws in [addXP]; the
    [catch] of [checkAchievements] logs it and resolves to the empty list. *)
Lemma checkAchievements_user_not_found fuel userId context w :
  faults w = [] → users w !! userId = None → (0 < fuel)%nat →
  ∃ w' created,
    checkAchievements T MS V fuel userId context w = (Ok [], w')
    ∧ faults w' = [] ∧ users w' !! userId = None ∧ checkins w' = checkins w
    ∧ achievements w' = achievements w ++ created.
Proof.
  intros Hrel Hu Hfuel. rewrite checkAchievements_reliable_unfold by done.
  destruct (streakUnlocks MS V userId context w ++ completionUnlocks userId context w)
    as [|a l] eqn:Hl.
  - exists w, []. rewrite app_nil_r. done.
  - destruct (forOf_save_user_not_found fuel userId a l w Hrel Hu Hfuel)
      as (w' & Hrun & ? & ? & ?).
    destruct (forOf_save_inv fuel userId (λ _, false) ltac:(done) _ _ _ _ Hrun)
      as (created & ? & _).
    eexists _, created. split.
    + erewrite tryCatch_throw; [reflexivity|]. by rewrite (bind_throw _ _ _ _ _ Hrun).
    + simpl. done.
Qed.

(** What is unlocked once is not unlocked again. *)
Lemma unlocks_spent userId context w w' created :
  achievements w' = achievements w ++ created → checkins w' = checkins w →
  (∀ a, a ∈ streakUnlocks MS V userId context w ++ completionUnlocks userId context w →
        a ∈ created) →
  streakUnlocks MS V userId context w' = [] ∧ completionUnlocks userId context w' = [].
Proof.
  intros Ha Hc Hsaved.
  assert (∀ (p : Achievement.t → bool) a, a ∈ created → p a = true →
            List.filter p (achievements w') ≠ []) as Hfound.
  { intros p a Hin Hp Hnil.
    assert (In a (List.filter p (achievements w'))) as Hi; [|by rewrite Hnil in Hi].
    apply filter_In. split; [|done]. rewrite Ha. apply in_or_app. right.
    by apply list_elem_of_In. }
  assert (∀ (p : Achievement.t → bool),
            List.filter p (achievements w) ≠ [] → List.filter p (achievements w') ≠ [])
    as Hkept.
  { intros p Hne. rewrite Ha, List.filter_app.
    destruct (List.filter p (achievements w)); [done|]. done. }
  split.
  - unfold streakUnlocks in *. destruct (ctx_streak context) as [streak|]; [|done].
    destruct (bool_decide _ && negb _) eqn:Helig; [|done]. cbn [andb] in *.
    destruct (includes streak MS) eqn:Hms; [|by rewrite andb_false_r].
    rewrite andb_true_r in *.
    destruct (Nat.eqb_spec (streakCount userId streak w') 0) as [Hzero|]; [|done].
    exfalso. unfold streakCount in *.
    destruct (Nat.eqb_spec
                (length (List.filter (isStreakAchievement userId streak) (achievements w))) 0)
      as [Hzero0|Hpos].
    + apply (Hfound (isStreakAchievement userId streak)
               (Achievement.createAchievementData (clock w) userId
                  (streakAchievementData V streak (ctx_habitId context)))).
      * apply Hsaved. apply elem_of_app. left. apply list_elem_of_singleton. done.
      * unfold isStreakAchievement. simpl. by rewrite !bool_decide_true.
      * by apply length_zero_iff_nil.
    + apply (Hkept (isStreakAchievement userId streak)).
      * intros Hnil. by rewrite Hnil in Hpos.
      * by apply length_zero_iff_nil.
  - unfold completionUnlocks, completions, completionUnlocked in *. rewrite Hc.
    destruct (bool_decide (ctx_type context = "check_in")); [|done]. cbn [andb] in *.
    destruct (includes _ milestones); [|done]. cbn [andb] in *.
    destruct (bool_decide (List.filter _ (achievements w') = [])) eqn:Hnew; [|done].
    exfalso. apply bool_decide_eq_true in Hnew. revert Hnew.
    destruct (bool_decide (List.filter
                (isCompletionAchievement userId (ctx_habitId context)
                   (Z.of_nat (length (List.filter
                      (isCompletedCheckIn userId (ctx_habitId context)) (checkins w)))))
                (achievements w) = [])) eqn:Hold.
    + eapply Hfound.
      * apply Hsaved. apply elem_of_app. right. simpl. apply list_elem_of_singleton. done.
      * unfold isCompletionAchievement. simpl. by rewrite !bool_decide_true.
    + apply Hkept. by apply bool_decide_eq_false in Hold.
Qed.

Lemma streakUnlocks_shape userId type habitId streak w :
  let context := {| ctx_type := type; ctx_habitId := habitId; ctx_streak := Some streak |} in
  streakUnlocks MS V userId context w = []
  ∨ (streakCount userId streak w = 0%nat
     ∧ ∃ a, streakUnlocks MS V userId context w = [a]
            ∧ isStreakAchievement userId streak a = true).
Proof.
  unfold streakUnlocks. simpl.
  destruct (bool_decide _ && negb _); [|by left]. cbn [andb].
  destruct (Nat.eqb_spec (streakCount userId streak w) 0); [|by left]. cbn [andb].
  destruct (includes streak MS); [|by left]. right. split; [done|].
  eexists. split; [done|]. unfold isStreakAchievement. simpl. by rewrite !bool_decide_true.
Qed.

Lemma completionUnlocks_completion userId context w :
  Forall isCompletion (completionUnlocks userId context w).
Proof.
  unfold completionUnlocks. destruct (_ && _); [|done]. by apply Forall_singleton.
Qed.

(** When no call rejects, a run of the check creates exactly the streak
    achievement the streak sub-check returns. *)
Lemma checkAchievements_streakCount fuel userId type habitId streak w :
  let context := {| ctx_type := type; ctx_habitId := habitId; ctx_streak := Some streak |} in
  faults w = [] → (length T < fuel)%nat →
  let w' := (checkAchievements T MS V fuel userId context w).2 in
  faults w' = []
  ∧ streakCount userId streak w'
    = (streakCount userId streak w + length (streakUnlocks MS V userId context w))%nat.
Proof.
  intros context Hrel Hfuel w'. split.
  - subst w'. destruct (users w !! userId) as [u|] eqn:Hu.
    + destruct (checkAchievements_reliable fuel userId context w) as (w1 & c & -> & ? & _);
        eauto.
    + destruct (checkAchievements_user_not_found fuel userId context w)
        as (w1 & c & -> & ? & _); eauto; lia.
  - subst w'. rewrite checkAchievements_reliable_unfold by done.
    destruct (tryCatch _ _ w) as [r w1] eqn:Hrun. simpl.
    assert (∃ created, achievements w1 = achievements w ++ created
              ∧ (length (List.filter (isStreakAchievement userId streak) created)
                 ≤ length (List.filter (isStreakAchievement userId streak)
                             (streakUnlocks MS V userId context w
                              ++ completionUnlocks userId context w)))%nat
              ∧ (∀ a l0, streakUnlocks MS V userId context w
                          ++ completionUnlocks userId context w = a :: l0 →
                         ∃ rest, created = a :: rest))
      as (created & Hcreated & Hle & Hfirst).
    { apply tryCatch_inv in Hrun as [(a & Hin & ->) | [(e & w0 & Hin & Hh) | (Hin & ->)]].
      - apply bind_inv in Hin as [(u & w3 & HL & Hin) | [(e & HL & [=]) | (HL & [=])]].
        injection Hin as _ <-.
        apply (forOf_save_inv fuel userId _ (isStreakAchievement_not_level userId streak))
          in HL as (created & ? & ? & Hf & _). specialize (Hf Hrel). exists created. repeat split; auto.
      - apply bind_inv in Hin as [(u & w3 & HL & [=]) | [(e' & HL & [= <-]) | (HL & [=])]].
        apply (forOf_save_inv fuel userId _ (isStreakAchievement_not_level userId streak))
          in HL as (created & ? & ? & Hf & _). specialize (Hf Hrel). minv Hh. exists created. simpl. repeat split; auto.
      - apply bind_inv in Hin as [(u & w3 & HL & [=]) | [(e' & HL & [=]) | (HL & _)]].
        apply (forOf_save_inv fuel userId _ (isStreakAchievement_not_level userId streak))
          in HL as (created & ? & ? & Hf & _). specialize (Hf Hrel). exists created. repeat split; auto. }
    unfold streakCount at 1 2. rewrite Hcreated, List.filter_app, length_app. f_equal.
    rewrite List.filter_app,
      (filter_streak_completion _ _ _ (completionUnlocks_completion userId context w)),
      app_nil_r in Hle.
    destruct (streakUnlocks_shape userId type habitId streak w)
      as [Hnil|(_ & a & Ha & Hpa)]; fold context in Hnil || fold context in Ha.
    + rewrite Hnil in *. simpl in *. lia.
    + rewrite Ha in *. simpl in Hle. rewrite Hpa in Hle. simpl in *.
      destruct (Hfirst a (completionUnlocks userId context w) eq_refl) as (rest & ->).
      simpl in *. rewrite Hpa in *. simpl in *. lia.
Qed.
(** ** The XP a run of the check awards *)

Lemma xpOf_stored u x : User.xp u = Some x → xpOf u = x.
Proof. unfold xpOf. intros ->. simpl. destruct (Z.eqb_spec x 0); [lia|done]. Qed.

(** Saving an achievement when no call rejects: the achievement, its
    notification, and its reward through [addXP]. *)
Lemma saveAchievement_awards fuel userId a w u :
  faults w = [] → users w !! userId = Some u → (0 < fuel)%nat →
  saveAchievement T V fuel userId a w
  = (Ok (),
     afterAddXP T V userId (Achievement.xpReward a) u
       (withNotifications
          (notifications w
             ++ [achievementNotification (clock w) userId a (length (achievements w))])
          (withAchievements (achievements w ++ [a]) w))).
Proof.
  intros Hrel Hu Hfuel. unfold saveAchievement.
  rewrite (bind_ok _ _ _ _ _ (addAchievement_reliable w a Hrel)), bind_newDate.
  erewrite bind_ok; [|by apply addNotification_reliable].
  erewrite bind_ok; [reflexivity|].
  by apply (addXP_reliable T V).
Qed.

Lemma forOf_save_awards fuel userId : ∀ l w u,
  faults w = [] → users w !! userId = Some u → (0 < fuel)%nat →
  ∃ w' created u',
    forOf l (λ _ a, saveAchievement T V fuel userId a) () w = (Ok (), w')
    ∧ faults w' = [] ∧ users w' !! userId = Some u'
    ∧ habits w' = habits w ∧ checkins w' = checkins w ∧ clock w' = clock w
    ∧ achievements w' = achievements w ++ created
    ∧ List.filter (λ a, negb (bool_decide (isLevel a))) created
      = List.filter (λ a, negb (bool_decide (isLevel a))) l
    ∧ length (notifications w') = (length (notifications w) + length l)%nat
    ∧ xpOf u' = xpOf u + rewards l
    ∧ (length l ≤ length created)%nat
    ∧ console w' = console w ++ replicate (length created - length l) levelUpRefused.
Proof.
  induction l as [|a l IH]; intros w u Hrel Hu Hfuel.
  - exists w, [], u. rewrite !app_nil_r. unfold rewards. simpl.
    repeat split; (done || lia).
  - simpl forOf. rewrite (bind_ok _ _ _ _ _ (saveAchievement_awards fuel userId a w u Hrel Hu Hfuel)).
    match goal with |- context [afterAddXP T V userId ?amt u ?w2] =>
      pose proof (afterAddXP_frame T V userId amt u w2) as (Hf & Hh & Hc & Hk & _ & Hn & Hus);
      assert (∃ levels, achievements (afterAddXP T V userId amt u w2)
                        = achievements w ++ a :: levels ∧ Forall isLevel levels
                        ∧ console (afterAddXP T V userId amt u w2)
                          = console w ++ replicate (length levels) levelUpRefused)
        as (levels & Ha & Hlevels & Hlog);
      [|destruct (IH (afterAddXP T V userId amt u w2)
                    (User.setXP (xpOf u + amt)
                       (levelLoop T (length T) (xpOf u + amt) (levelOf u)) (clock w2) u))
          as (w' & created & u' & Hrun & Hrel' & Hu' & Hh' & Hc' & Hk' & Ha' & Hfilter & Hn'
              & Hx' & Hle' & Hlog');
        [by rewrite Hf|by rewrite Hus, lookup_insert_eq|done|]]
    end.
    { unfold afterAddXP. destruct (_ <? _); simpl.
      - eexists [_]. rewrite <- app_assoc. split; [done|]. split; [by apply Forall_singleton|done].
      - exists []. by rewrite app_nil_r. }
    exists w', (a :: levels ++ created), u'. split; [done|]. split; [done|]. split; [done|].
    split; [by rewrite Hh', Hh|]. split; [by rewrite Hc', Hc|]. split; [by rewrite Hk', Hk|].
    split; [rewrite Ha', Ha, <- app_assoc; done|]. split; [|split].
    + simpl. rewrite List.filter_app, Hfilter.
      assert (List.filter (λ a, negb (bool_decide (isLevel a))) levels = []) as ->; [|done].
      apply filter_levels; [|done].
      intros x Hx. by apply negb_true_iff, bool_decide_eq_false in Hx.
    + rewrite Hn', Hn. simpl. rewrite length_app. simpl. lia.
    + split; [rewrite Hx', xpOf_setXP; unfold rewards; rewrite fmap_cons; cbn [foldr]; lia|].
      cbn [length]. rewrite !length_app. split; [lia|].
      rewrite Hlog', Hlog, <- app_assoc, <- replicate_add. f_equal. f_equal. lia.
Qed.

(** With the user document in the store, the check resolves to what its
    two sub-checks unlock, stores each with its notification, and leaves
    the user with the XP they had plus the rewards. *)
Lemma checkAchievements_awards_run fuel userId context w u :
  faults w = [] → users w !! userId = Some u → (0 < fuel)%nat →
  let l := streakUnlocks MS V userId context w ++ completionUnlocks userId context w in
  ∃ w' created u',
    checkAchievements T MS V fuel userId context w = (Ok l, w')
    ∧ faults w' = [] ∧ users w' !! userId = Some u'
    ∧ habits w' = habits w ∧ checkins w' = checkins w ∧ clock w' = clock w
    ∧ achievements w' = achievements w ++ created
    ∧ List.filter (λ a, negb (bool_decide (isLevel a))) created
      = List.filter (λ a, negb (bool_decide (isLevel a))) l
    ∧ length (notifications w') = (length (notifications w) + length l)%nat
    ∧ xpOf u' = xpOf u + rewards l
    ∧ (length l ≤ length created)%nat
    ∧ console w' = console w ++ replicate (length created - length l) levelUpRefused.
Proof.
  intros Hrel Hu Hfuel l. rewrite checkAchievements_reliable_unfold by done. fold l.
  destruct (forOf_save_awards fuel userId l w u Hrel Hu Hfuel)
    as (w' & created & u' & Hrun & Hrest).
  exists w', created, u'. split; [|done].
  erewrite tryCatch_ok; [reflexivity|]. by rewrite (bind_ok _ _ _ _ _ Hrun).
Qed.
End CheckAchievements.

(** ** The claims about unlocking *)

(** C5.  Run twice with the same user and streak value, the achievement
    check creates at most one achievement of type [streak] carrying that
    value, whatever calls reject in either run; when nothing rejects, the
    second run creates none. *)
Theorem streak_unlock_idempotent (T MS : list Z) (V : XpValues) (k : nat) (w : World)
    (userId type habitId : string) (streak : Z) :
  let fuel := (S (length T) + k)%nat in
  let context := {| ctx_type := type; ctx_habitId := habitId; ctx_streak := Some streak |} in
  let w1 := (checkAchievements T MS V fuel userId context w).2 in
  let w2 := (checkAchievements T MS V fuel userId context w1).2 in
  (streakCount userId streak w ≤ streakCount userId streak w1)%nat
  ∧ (streakCount userId streak w1 ≤ streakCount userId streak w2)%nat
  ∧ (streakCount userId streak w2 ≤ streakCount userId streak w + 1)%nat
  ∧ (faults w = [] → streakCount userId streak w2 = streakCount userId streak w1).
Proof.
  intros fuel context w1 w2.
  destruct (checkAchievements T MS V fuel userId context w) as [r1 w1'] eqn:Hrun1.
  destruct (checkAchievements T MS V fuel userId context w1) as [r2 w2'] eqn:Hrun2.
  subst w1 w2. simpl in *.
  destruct (checkAchievements_inv T MS V _ _ _ _ _ _ _ _ Hrun1) as (c1 & Hc1 & Hle1 & Hz1).
  destruct (checkAchievements_inv T MS V _ _ _ _ _ _ _ _ Hrun2) as (c2 & Hc2 & Hle2 & Hz2).
  assert (streakCount userId streak w1'
          = (streakCount userId streak w
             + length (List.filter (isStreakAchievement userId streak) c1))%nat) as Hs1.
  { unfold streakCount. by rewrite Hc1, List.filter_app, length_app. }
  assert (streakCount userId streak w2'
          = (streakCount userId streak w1'
             + length (List.filter (isStreakAchievement userId streak) c2))%nat) as Hs2.
  { unfold streakCount. by rewrite Hc2, List.filter_app, length_app. }
  repeat split; try lia.
  - destruct (List.filter (isStreakAchievement userId streak) c2) eqn:E2; simpl in *; [lia|].
    specialize (Hz2 ltac:(done)). lia.
  - intros Hrel.
    destruct (checkAchievements_streakCount T MS V fuel userId type habitId streak w Hrel
                ltac:(subst fuel; lia)) as [Hrel1 Hk1].
    fold context in Hk1, Hrel1. rewrite Hrun1 in Hk1, Hrel1. simpl in Hk1, Hrel1.
    destruct (checkAchievements_streakCount T MS V fuel userId type habitId streak w1' Hrel1
                ltac:(subst fuel; lia)) as [_ Hk2].
    fold context in Hk2. rewrite Hrun2 in Hk2. simpl in Hk2.
    rewrite Hk2.
    destruct (streakUnlocks_shape MS V userId type habitId streak w1')
      as [Hnil|(Hzero & a & Ha & _)]; fold context in Hnil || fold context in Ha.
    + rewrite Hnil. simpl. lia.
    + exfalso. rewrite Hk1 in Hzero.
      assert (streakUnlocks MS V userId context w = []) as Hnil
        by (apply length_zero_iff_nil; lia).
      assert (streakCount userId streak w = 0%nat) as Hzero0 by lia.
      unfold streakUnlocks in Hnil, Ha. simpl in Hnil, Ha.
      rewrite Hzero0 in Hnil. rewrite Hk1, Hzero in Ha.
      destruct (bool_decide _ && negb _); [|done]. simpl in *.
      destruct (includes streak MS); done.
Qed.

(** The 7-day milestone in a store that holds the user: the first check
    creates the achievement, the second none. *)
Lemma streak_unlock_idempotent_witness :
  let w := habitWorld (sampleHabit 7 7 []) jan6 in
  let context := {| ctx_type := "check_in"; ctx_habitId := "h1"; ctx_streak := Some 7 |} in
  let w1 := (checkAchievements scenarioThresholds scenarioMilestones scenarioXpValues 4
               "u1" context w).2 in
  let w2 := (checkAchievements scenarioThresholds scenarioMilestones scenarioXpValues 4
               "u1" context w1).2 in
  streakCount "u1" 7 w2 = streakCount "u1" 7 w1.
Proof.
  exact (proj2 (proj2 (proj2
           (streak_unlock_idempotent scenarioThresholds scenarioMilestones scenarioXpValues
              0 (habitWorld (sampleHabit 7 7 []) jan6) "u1" "check_in" "h1" 7)))
         eq_refl).
Defined.

(** C6.  When no call rejects, the completion sub-check returns an
    achievement exactly when the number of completed check-ins of the habit
    equals one of 10, 25, 50, 100, 250, 500 and no achievement of type
    [completion] with that count and that habit exists for the user; and a
    second check at the same count resolves to the empty list.  With the
    user document in the store the first check saves what it returns and the
    second creates nothing. *)
Theorem completion_unlock (T MS : list Z) (V : XpValues) (k : nat) (w : World)
    (userId habitId : string) (streak : option Z) :
  faults w = [] →
  let total := completions userId habitId w in
  let fuel := (S (length T) + k)%nat in
  let context := {| ctx_type := "check_in"; ctx_habitId := habitId; ctx_streak := streak |} in
  (∃ l,
     checkCompletionAchievements userId habitId w = (Ok l, w)
     ∧ (l ≠ [] ↔ total ∈ milestones ∧ completionUnlocked userId habitId total w = false)
     ∧ (∀ a, a ∈ l → l = [a] ∧ isCompletionAchievement userId habitId total a = true))
  ∧ (∃ l1 w1 w2,
       checkAchievements T MS V fuel userId context w = (Ok l1, w1)
       ∧ completions userId habitId w1 = total
       ∧ checkAchievements T MS V fuel userId context w1 = (Ok [], w2)
       ∧ (is_Some (users w !! userId) →
          l1 = streakUnlocks MS V userId context w ++ completionUnlocks userId context w
          ∧ (∀ a, a ∈ l1 → a ∈ achievements w1)
          ∧ w2 = w1)).
Proof.
  intros Hrel total fuel context. split.
  - eexists. split; [by apply checkCompletionAchievements_reliable|]. fold total.
    unfold includes.
    destruct (decide (total ∈ milestones)) as [Hin|Hout].
    + rewrite bool_decide_true by done. simpl.
      destruct (completionUnlocked userId habitId total w); simpl.
      * split; [split; [done|by intros [_ ?]]|]. by intros a Ha%elem_of_nil.
      * split; [done|]. intros a Ha%list_elem_of_singleton. subst a. split; [done|].
        unfold isCompletionAchievement. simpl. by rewrite !bool_decide_true.
    + rewrite bool_decide_false by done. simpl.
      split; [split; [done|by intros [? _]]|]. by intros a Ha%elem_of_nil.
  - assert (length T < fuel)%nat as Hfuel by (subst fuel; lia).
    destruct (users w !! userId) as [u|] eqn:Hu.
    + destruct (checkAchievements_reliable T MS V fuel userId context w Hrel
                  ltac:(by rewrite Hu) Hfuel) as (w1 & created & Hrun1 & Hrel1 & Hu1 & Hc1 & Hcreated & Hsaved).
      destruct (unlocks_spent MS V userId context w w1 created Hcreated Hc1 Hsaved)
        as [HS HC].
      eexists _, w1, w1. split; [exact Hrun1|]. split.
      { unfold total, completions. by rewrite Hc1. }
      split.
      { rewrite checkAchievements_reliable_unfold by done. by rewrite HS, HC. }
      intros _. repeat split; try done.
      intros a Ha. rewrite Hcreated. apply elem_of_app. right. by apply Hsaved.
    + destruct (checkAchievements_user_not_found T MS V fuel userId context w Hrel Hu
                  ltac:(lia)) as (w1 & created & Hrun1 & Hrel1 & Hu1 & Hc1 & _).
      destruct (checkAchievements_user_not_found T MS V fuel userId context w1 Hrel1 Hu1
                  ltac:(lia)) as (w2 & created2 & Hrun2 & _).
      exists [], w1, w2. split; [exact Hrun1|]. split.
      { unfold total, completions. by rewrite Hc1. }
      split; [exact Hrun2|]. by intros [? ?].
Qed.

(** The scenario of the 50th completed check-in: one completion
    achievement with [completions = 50] is created, and a second check returns
    no new achievement. *)
Lemma completion_unlock_witness :
  let w := mkWorld {[ "h1" := sampleHabit 3 12 [] ]} {[ "u1" := sampleUser ]}
             (replicate 50
                (CheckIn.createCheckInData 0 "h1" "u1"
                   {| CheckIn.in_date := None; CheckIn.in_completed := JUndefined;
                      CheckIn.in_completionPercentage := None; CheckIn.in_notes := None;
                      CheckIn.in_photoUrl := None; CheckIn.in_mood := None |}))
             [] (noon jan6) [] in
  let context := {| ctx_type := "check_in"; ctx_habitId := "h1"; ctx_streak := Some 3 |} in
  ∃ l1 w1 w2,
    checkAchievements scenarioThresholds scenarioMilestones scenarioXpValues 4 "u1" context w = (Ok l1, w1)
    ∧ checkAchievements scenarioThresholds scenarioMilestones scenarioXpValues 4 "u1" context w1 = (Ok [], w2)
    ∧ (Achievement.metadata <$> l1)
      = [Some {| Achievement.m_streak := None; Achievement.m_completions := Some 50;
                 Achievement.m_habitId := Some "h1"; Achievement.m_level := None |}].
Proof.
  intros w context.
  destruct (completion_unlock scenarioThresholds scenarioMilestones scenarioXpValues 0 w "u1" "h1" (Some 3)
              eq_refl) as [_ (l1 & w1 & w2 & Hrun1 & _ & Hrun2 & Hl1)].
  exists l1, w1, w2. split; [exact Hrun1|]. split; [exact Hrun2|].
  destruct (Hl1 (ex_intro _ sampleUser eq_refl)) as (-> & _). vm_compute. reflexivity.
Defined.

(** * routes/checkins.js: creating a check-in *)

(** ** Computations that never run out of fuel *)

Lemma total_ret {A} (a : A) : total (mret a : M A).
Proof. by intros w. Qed.

Lemma total_throw {A} e : total (throw e : M A).
Proof. by intros w. Qed.

Lemma total_bind {A B} (m : M A) (f : A → M B) :
  total m → (∀ a, total (f a)) → total (m ≫= f).
Proof.
  intros Hm Hf w. specialize (Hm w). unfold mbind, M_bind.
  destruct (m w) as [[a|e|] w1]; simpl in *; [apply Hf|done|done].
Qed.

Lemma total_tryCatch {A} (m : M A) (h : Exn → M A) :
  total m → (∀ e, total (h e)) → total (tryCatch m h).
Proof.
  intros Hm Hh w. specialize (Hm w). unfold tryCatch.
  destruct (m w) as [[a|e|] w1]; simpl in *; [done|apply Hh|done].
Qed.

Lemma total_forOf {A S} (l : list A) (body : S → A → M S) :
  (∀ s x, total (body s x)) → ∀ s, total (forOf l body s).
Proof.
  intros Hb. induction l as [|x l IH]; intros s; simpl.
  - apply total_ret.
  - apply total_bind; auto.
Qed.

Lemma total_newDate : total newDate.
Proof. by intros w. Qed.

Lemma total_consoleError t e : total (consoleError t e).
Proof. by intros w. Qed.

Lemma total_consoleWarn t e : total (consoleWarn t e).
Proof. by intros w. Qed.

Lemma total_queryAchievements p : total (queryAchievements p).
Proof. intros w. destruct (queryAchievements p w) as [r w'] eqn:H. minv H; done. Qed.

Lemma total_queryCheckins p : total (queryCheckins p).
Proof. intros w. destruct (queryCheckins p w) as [r w'] eqn:H. minv H; done. Qed.

Lemma total_addAchievement a : total (addAchievement a).
Proof. intros w. destruct (addAchievement a w) as [r w'] eqn:H. minv H; done. Qed.

Lemma total_addNotification n : total (addNotification n).
Proof. intros w. destruct (addNotification n w) as [r w'] eqn:H. minv H; done. Qed.

Lemma Frame_weaken (P Q : Achievement.t → Prop) w w' :
  (∀ a, P a → Q a) → Frame P w w' → Frame Q w w'.
Proof.
  intros HPQ [Hh Hc Hk Hu (l & Ha & Hl) Hf]. split; try done.
  exists l. split; [done|]. by eapply Forall_impl.
Qed.

Section Award.
Context (T MS : list Z) (V : XpValues) (fuel : nat).
Hypothesis enough : (length T < fuel)%nat.

Let anything : Achievement.t → Prop := λ _, True.

Lemma total_addXP userId amount source : total (addXP T V fuel userId amount source).
Proof.
  intros w. destruct (addXP T V fuel userId amount source w) as [r w'] eqn:H.
  eapply (addXP_terminates T V fuel); [|exact H]. split; [lia|by left].
Qed.

Lemma addXP_frame_any userId amount source :
  respects (Frame anything) (addXP T V fuel userId amount source).
Proof. intros w. eapply Frame_weaken; [|apply addXP_frame]. done. Qed.

Lemma total_checkAchievements userId context :
  total (checkAchievements T MS V fuel userId context).
Proof.
  unfold checkAchievements. apply total_tryCatch.
  - apply total_bind.
    { destruct (ctx_streak context); [|apply total_ret]. destruct (_ && _); [|apply total_ret].
      unfold checkStreakAchievements. apply total_bind; [apply total_queryAchievements|].
      intros existing. destruct (negb _); [apply total_ret|].
      destruct (includes _ _); [|apply total_ret].
      apply total_bind; [apply total_newDate|intros; apply total_ret]. }
    intros sA. apply total_bind.
    { destruct (bool_decide _); [|apply total_ret].
      unfold checkCompletionAchievements. apply total_bind; [apply total_queryCheckins|].
      intros snap. apply total_forOf. intros acc m. unfold checkMilestone.
      destruct (_ =? _); [|apply total_ret].
      apply total_bind; [apply total_queryAchievements|]. intros existing.
      destruct (bool_decide _); [|apply total_ret].
      apply total_bind; [apply total_newDate|intros; apply total_ret]. }
    intros cA. apply total_bind; [|intros; apply total_ret].
    apply total_forOf. intros _ a. unfold saveAchievement.
    apply total_bind; [apply total_addAchievement|intros ref].
    apply total_bind; [apply total_newDate|intros now].
    apply total_bind; [apply total_addNotification|intros _].
    apply total_bind; [apply total_addXP|intros; apply total_ret].
  - intros e. apply total_bind; [apply total_consoleError|intros; apply total_ret].
Qed.

Lemma checkAchievements_frame userId context :
  respects (Frame anything) (checkAchievements T MS V fuel userId context).
Proof.
  unfold checkAchievements. apply respects_tryCatch; [apply _| |].
  - apply respects_bind; [apply _| |].
    { destruct (ctx_streak context); [|apply respects_ret; apply _].
      destruct (_ && _); [|apply respects_ret; apply _].
      unfold checkStreakAchievements.
      apply respects_bind; [apply _|apply queryAchievements_frame|].
      intros existing. destruct (negb _); [apply respects_ret; apply _|].
      destruct (includes _ _); [|apply respects_ret; apply _].
      apply respects_bind; [apply _|apply respects_newDate; apply _|].
      intros; apply respects_ret; apply _. }
    intros sA. apply respects_bind; [apply _| |].
    { destruct (bool_decide _); [|apply respects_ret; apply _].
      unfold checkCompletionAchievements.
      apply respects_bind; [apply _|apply queryCheckins_frame|].
      intros snap. apply respects_forOf; [apply _|]. intros acc m. unfold checkMilestone.
      destruct (_ =? _); [|apply respects_ret; apply _].
      apply respects_bind; [apply _|apply queryAchievements_frame|]. intros existing.
      destruct (bool_decide _); [|apply respects_ret; apply _].
      apply respects_bind; [apply _|apply respects_newDate; apply _|].
      intros; apply respects_ret; apply _. }
    intros cA. apply respects_bind; [apply _| |intros; apply respects_ret; apply _].
    apply respects_forOf; [apply _|]. intros _ a. unfold saveAchievement.
    apply respects_bind; [apply _|by apply addAchievement_frame|intros ref].
    apply respects_bind; [apply _|apply respects_newDate; apply _|intros now].
    apply respects_bind; [apply _|apply addNotification_frame|intros _].
    apply respects_bind; [apply _|apply addXP_frame_any|].
    intros; apply respects_ret; apply _.
  - intros e. apply respects_bind; [apply _|apply consoleError_frame|].
    intros; apply respects_ret; apply _.
Qed.

(** The [try] block of the route never throws and never runs out of fuel:
    whatever happens inside is caught and logged as a warning. *)
Lemma awardCheckIn_swallows userId habitId streakResult w :
  ∃ w',
    awardCheckIn T MS V fuel userId habitId streakResult w = (Ok (), w')
    ∧ Frame anything w w'
    ∧ ∀ e wx,
        (addXP T V fuel userId 10 "check_in";;
         checkAchievements T MS V fuel userId
           {| ctx_type := "check_in"; ctx_habitId := habitId;
              ctx_streak := currentStreak streakResult |};;
         mret ()) w = (Throw e, wx) →
        w' = withConsole (console wx ++ [ConsoleWarn "Achievement error (non-fatal):" e]) wx.
Proof.
  unfold awardCheckIn.
  match goal with |- context [tryCatch ?m ?h w] =>
    set (block := m);
    assert (total block) as Htotal;
      [|assert (respects (Frame anything) (tryCatch block h)) as Hframe] end.
  { apply total_bind; [apply total_addXP|intros _].
    apply total_bind; [apply total_checkAchievements|intros; apply total_ret]. }
  { apply respects_tryCatch; [apply _| |intros; apply consoleWarn_frame].
    apply respects_bind; [apply _|apply addXP_frame_any|intros _].
    apply respects_bind; [apply _|apply checkAchievements_frame|].
    intros; apply respects_ret; apply _. }
  specialize (Htotal w). specialize (Hframe w). revert Hframe. unfold tryCatch.
  destruct (block w) as [[[]|e|] w1]; simpl in *; try done.
  - intros Hframe. exists w1. repeat split; try done; apply Hframe.
  - intros Hframe. eexists. split; [reflexivity|]. split; [done|].
    by intros e' wx [= <- <-].
Qed.
End Award.

(** ** Rejected calls are logged *)

Lemma Logged_same owed w w' :
  faults w' = faults w → console w' = console w → Logged owed w w'.
Proof.
  intros Hf Hc. exists [], []. rewrite Hf, Hc, app_nil_r.
  repeat split. unfold rejections, reported. simpl. lia.
Qed.

Lemma Logged_trans owed w1 w2 w3 :
  Logged 0 w1 w2 → Logged owed w2 w3 → Logged owed w1 w3.
Proof.
  intros (c1 & e1 & Hf1 & Hc1 & H1) (c2 & e2 & Hf2 & Hc2 & H2).
  exists (c1 ++ c2), (e1 ++ e2). rewrite Hf1, Hf2, Hc2, Hc1, !app_assoc.
  split; [done|]. split; [done|].
  unfold rejections, reported in *. rewrite !List.filter_app, !length_app. lia.
Qed.

Lemma logs_ret {A} (a : A) : logsRejections (mret a : M A).
Proof. intros w. by apply Logged_same. Qed.

Lemma logs_throw {A} e : logsRejections (throw e : M A).
Proof. intros w. by apply Logged_same. Qed.

Lemma logs_diverge {A} : logsRejections (diverge : M A).
Proof. intros w. by apply Logged_same. Qed.

Lemma logs_reads {A} (f : World → A) : logsRejections (reads f).
Proof. intros w. by apply Logged_same. Qed.

Lemma logs_newDate : logsRejections newDate.
Proof. intros w. by apply Logged_same. Qed.

Lemma logs_modify f :
  (∀ w, faults (f w) = faults w ∧ console (f w) = console w) → logsRejections (modify f).
Proof. intros Hf w. apply Logged_same; apply Hf. Qed.

(** A call takes one outcome off the plan, and throws when it is a
    rejection. *)
Lemma logs_await : logsRejections await.
Proof.
  intros w. unfold await. destruct (faults w) as [|b plan] eqn:Hplan; simpl.
  - by apply Logged_same.
  - exists [b], []. simpl. rewrite Hplan, app_nil_r. repeat split.
    unfold rejections, reported. destruct b; simpl; lia.
Qed.

Lemma logs_bind {A B} (m : M A) (f : A → M B) :
  logsRejections m → (∀ a, logsRejections (f a)) → logsRejections (m ≫= f).
Proof.
  intros Hm Hf w. specialize (Hm w). unfold mbind, M_bind.
  destruct (m w) as [[a|e|] w1]; simpl in *; [|done|done].
  eapply Logged_trans; [exact Hm|apply Hf].
Qed.

Lemma logs_forOf {A S} (l : list A) (body : S → A → M S) :
  (∀ s x, logsRejections (body s x)) → ∀ s, logsRejections (forOf l body s).
Proof.
  intros Hb. induction l as [|x l IH]; intros s; simpl.
  - apply logs_ret.
  - apply logs_bind; auto.
Qed.

(** What a [catch] block that starts by logging the exception does to a
    run that threw [e]: the line it writes pays for the rejection. *)
Lemma Logged_caught {A} (line : LogEntry) (k : M A) e w w1 :
  reports e line = true →
  Logged (owes (Throw e : Res A)) w w1 →
  logsRejections k →
  Logged (owes (k (withConsole (console w1 ++ [line]) w1)).1) w
         (k (withConsole (console w1 ++ [line]) w1)).2.
Proof.
  intros Hline (c1 & e1 & Hf1 & Hc1 & H1) Hk.
  specialize (Hk (withConsole (console w1 ++ [line]) w1)).
  destruct (k (withConsole (console w1 ++ [line]) w1)) as [r w2].
  destruct Hk as (c2 & e2 & Hf2 & Hc2 & H2). simpl in Hf2, Hc2, H2 |- *.
  exists (c1 ++ c2), (e1 ++ line :: e2).
  rewrite Hf1, Hf2, Hc2, Hc1, <- !app_assoc. split; [done|]. split; [done|].
  unfold rejections, reported in *. rewrite !List.filter_app, !length_app.
  cbn [List.filter].
  destruct (reports Unavailable line) eqn:Hr; destruct e; simpl in *; (lia || congruence).
Qed.

Lemma logs_tryCatch_error {A} (m : M A) (t : string) (k : Exn → M A) :
  logsRejections m → (∀ e, logsRejections (k e)) →
  logsRejections (tryCatch m (λ e, consoleError t e;; k e)).
Proof.
  intros Hm Hk w. specialize (Hm w). unfold tryCatch.
  destruct (m w) as [[a|e|] w1]; [done| |done].
  refine (Logged_caught (ConsoleError t e) (k e) e w w1 _ Hm (Hk e)).
  simpl. by apply bool_decide_eq_true.
Qed.

Lemma logs_tryCatch_error_only (m : M unit) (t : string) :
  logsRejections m → logsRejections (tryCatch m (λ e, consoleError t e)).
Proof.
  intros Hm w. specialize (Hm w). unfold tryCatch.
  destruct (m w) as [[a|e|] w1]; [done| |done].
  refine (Logged_caught (ConsoleError t e) (mret ()) e w w1 _ Hm (logs_ret ())).
  simpl. by apply bool_decide_eq_true.
Qed.

Lemma logs_tryCatch_warn_only (m : M unit) (t : string) :
  logsRejections m → logsRejections (tryCatch m (λ e, consoleWarn t e)).
Proof.
  intros Hm w. specialize (Hm w). unfold tryCatch.
  destruct (m w) as [[a|e|] w1]; [done| |done].
  refine (Logged_caught (ConsoleWarn t e) (mret ()) e w w1 _ Hm (logs_ret ())).
  simpl. by apply bool_decide_eq_true.
Qed.

Lemma getUser_logs id : logsRejections (getUser id).
Proof. apply logs_bind; [apply logs_await|intros; apply logs_reads]. Qed.

Lemma updateUser_logs id f : logsRejections (updateUser id f).
Proof.
  apply logs_bind; [apply logs_await|intros _].
  apply logs_bind; [apply logs_reads|intros [u|]]; [by apply logs_modify|apply logs_throw].
Qed.

Lemma addAchievement_logs a : logsRejections (addAchievement a).
Proof.
  apply logs_bind; [apply logs_await|intros _].
  apply logs_bind; [apply logs_reads|intros id].
  apply logs_bind; [by apply logs_modify|intros; apply logs_ret].
Qed.

Lemma addNotification_logs n : logsRejections (addNotification n).
Proof.
  unfold addNotification. destruct (undefinedField n); [apply logs_throw|].
  apply logs_bind; [apply logs_await|intros _].
  apply logs_bind; [apply logs_reads|intros id].
  apply logs_bind; [by apply logs_modify|intros; apply logs_ret].
Qed.

Lemma queryAchievements_logs p : logsRejections (queryAchievements p).
Proof. apply logs_bind; [apply logs_await|intros; apply logs_reads]. Qed.

Lemma queryCheckins_logs p : logsRejections (queryCheckins p).
Proof. apply logs_bind; [apply logs_await|intros; apply logs_reads]. Qed.

Section Logs.
Context (T MS : list Z) (V : XpValues).

Lemma handleLevelUp_logs f userId newLevel :
  (∀ u a s, logsRejections (f u a s)) →
  logsRejections (handleLevelUp V f userId newLevel).
Proof.
  intros Hf. unfold handleLevelUp. apply logs_tryCatch_error_only.
  apply logs_bind; [apply logs_newDate|intros now].
  apply logs_bind; [apply addAchievement_logs|intros _].
  apply logs_bind; [apply logs_newDate|intros now'].
  apply logs_bind; [apply addNotification_logs|intros _].
  apply logs_bind; [apply Hf|intros; apply logs_ret].
Qed.

Lemma addXP_logs fuel : ∀ userId amount source,
  logsRejections (addXP T V fuel userId amount source).
Proof.
  induction fuel as [|fuel IH]; intros userId amount source; simpl.
  - apply logs_diverge.
  - apply (logs_tryCatch_error _ _ (λ e, throw e)); [|intros; apply logs_throw].
    apply logs_bind; [apply getUser_logs|intros [user|]]; [|apply logs_throw].
    apply logs_bind; [apply logs_newDate|intros now].
    apply logs_bind; [apply updateUser_logs|intros _].
    apply logs_bind; [|intros; apply logs_ret].
    destruct (_ <? _); [by apply handleLevelUp_logs|apply logs_ret].
Qed.

Lemma checkAchievements_logs fuel userId context :
  logsRejections (checkAchievements T MS V fuel userId context).
Proof.
  unfold checkAchievements.
  apply (logs_tryCatch_error _ _ (λ _, mret [])); [|intros; apply logs_ret].
  apply logs_bind.
  { destruct (ctx_streak context); [|apply logs_ret].
    destruct (_ && _); [|apply logs_ret]. unfold checkStreakAchievements.
    apply logs_bind; [apply queryAchievements_logs|intros existing].
    destruct (negb _); [apply logs_ret|]. destruct (includes _ _); [|apply logs_ret].
    apply logs_bind; [apply logs_newDate|intros; apply logs_ret]. }
  intros sA. apply logs_bind.
  { destruct (bool_decide _); [|apply logs_ret]. unfold checkCompletionAchievements.
    apply logs_bind; [apply queryCheckins_logs|intros snap].
    apply logs_forOf. intros acc m. unfold checkMilestone.
    destruct (_ =? _); [|apply logs_ret].
    apply logs_bind; [apply queryAchievements_logs|intros existing].
    destruct (bool_decide _); [|apply logs_ret].
    apply logs_bind; [apply logs_newDate|intros; apply logs_ret]. }
  intros cA. apply logs_bind; [|intros; apply logs_ret].
  apply logs_forOf. intros _ a. unfold saveAchievement.
  apply logs_bind; [apply addAchievement_logs|intros ref].
  apply logs_bind; [apply logs_newDate|intros now].
  apply logs_bind; [apply addNotification_logs|intros _].
  apply logs_bind; [apply addXP_logs|intros; apply logs_ret].
Qed.

(** The rest of the award block, once [addXP] has returned. *)
Lemma awardCheckIn_rest_logs fuel userId context :
  logsRejections
    (tryCatch (checkAchievements T MS V fuel userId context;; mret ())
       (λ achievementError, consoleWarn "Achievement error (non-fatal):" achievementError)).
Proof.
  apply logs_tryCatch_warn_only.
  apply logs_bind; [apply checkAchievements_logs|intros; apply logs_ret].
Qed.
End Logs.

Lemma awardCheckIn_logs T MS V fuel userId habitId streakResult :
  logsRejections (awardCheckIn T MS V fuel userId habitId streakResult).
Proof.
  unfold awardCheckIn. apply logs_tryCatch_warn_only.
  apply logs_bind; [apply addXP_logs|intros _].
  apply logs_bind; [apply checkAchievements_logs|intros; apply logs_ret].
Qed.

(** ** The award block when no call rejects *)

Lemma unlocks_not_level MS V userId context w :
  Forall (λ a, ¬ isLevel a)
    (streakUnlocks MS V userId context w ++ completionUnlocks userId context w).
Proof.
  apply Forall_app. split.
  - unfold streakUnlocks. destruct (ctx_streak context); [|done].
    destruct (_ && _); [|done]. by apply Forall_singleton.
  - unfold completionUnlocks. destruct (_ && _); [|done]. by apply Forall_singleton.
Qed.

Lemma filter_not_level l :
  Forall (λ a, ¬ isLevel a) l →
  List.filter (λ a, negb (bool_decide (isLevel a))) l = l.
Proof.
  induction 1 as [|a l Ha _ IH]; simpl; [done|].
  by rewrite bool_decide_false, IH.
Qed.

(** With the user in the store: 10 XP, then every unlocked achievement
    with its notification and its reward, and one line on the console for
    every level achievement, whose notification the store refuses. *)
Lemma awardCheckIn_reliable T MS V fuel userId habitId streakResult w u :
  faults w = [] → users w !! userId = Some u → (0 < fuel)%nat →
  let context := {| ctx_type := "check_in"; ctx_habitId := habitId;
                    ctx_streak := currentStreak streakResult |} in
  let w1 := afterAddXP T V userId 10 u w in
  ∃ unlocked wd created u',
    checkAchievements T MS V fuel userId context w1 = (Ok unlocked, wd)
    ∧ awardCheckIn T MS V fuel userId habitId streakResult w = (Ok (), wd)
    ∧ faults wd = [] ∧ users wd !! userId = Some u'
    ∧ habits wd = habits w ∧ checkins wd = checkins w ∧ clock wd = clock w
    ∧ xpOf u' = xpOf u + 10 + rewards unlocked
    ∧ length (notifications wd) = (length (notifications w) + length unlocked)%nat
    ∧ achievements wd = achievements w ++ created
    ∧ console wd
      = console w
        ++ replicate (length (List.filter (λ a, bool_decide (isLevel a)) created))
             levelUpRefused.
Proof.
  intros Hrel Hu Hfuel context w1.
  pose proof (afterAddXP_frame T V userId 10 u w) as (Hf & Hh & Hc & Hk & _ & Hn & Hus).
  fold w1 in Hf, Hh, Hc, Hk, Hn, Hus.
  assert (∃ levels, achievements w1 = achievements w ++ levels ∧ Forall isLevel levels
                    ∧ console w1 = console w ++ replicate (length levels) levelUpRefused)
    as (levels & Ha & Hlevels & Hlog).
  { unfold w1, afterAddXP. destruct (_ <? _); simpl.
    - eexists [_]. split; [done|]. split; [by apply Forall_singleton|done].
    - exists []. by rewrite !app_nil_r. }
  destruct (checkAchievements_awards_run T MS V fuel userId context w1
              (User.setXP (xpOf u + 10) (levelLoop T (length T) (xpOf u + 10) (levelOf u))
                 (clock w) u))
    as (wd & created & u' & Hrun & Hrel' & Hu' & Hh' & Hc' & Hk' & Ha' & Hfilter & Hn'
        & Hx' & Hle' & Hlog');
    [by rewrite Hf|by rewrite Hus, lookup_insert_eq|done|].
  set (unlocked := streakUnlocks MS V userId context w1
                   ++ completionUnlocks userId context w1) in *.
  exists unlocked, wd, (levels ++ created), u'. split; [done|]. split.
  { unfold awardCheckIn. erewrite tryCatch_ok; [reflexivity|].
    rewrite (bind_ok _ _ _ _ _ (addXP_reliable T V fuel w userId 10 "check_in" u Hrel Hu Hfuel)).
    fold w1. fold context. by rewrite (bind_ok _ _ _ _ _ Hrun). }
  split; [done|]. split; [done|]. split; [congruence|]. split; [congruence|].
  split; [congruence|]. split; [rewrite Hx', xpOf_setXP; lia|].
  split; [by rewrite Hn', Hn|]. split; [by rewrite Ha', Ha, app_assoc|].
  rewrite Hlog', Hlog, <- app_assoc, <- replicate_add. f_equal. f_equal.
  rewrite List.filter_app, length_app.
  assert (List.filter (λ a, bool_decide (isLevel a)) levels = levels) as ->.
  { clear -Hlevels. induction Hlevels as [|a l Ha _ IH]; simpl; [done|].
    by rewrite bool_decide_true, IH. }
  pose proof (filter_length (λ a, bool_decide (isLevel a)) created) as Hsplit.
  simpl in Hsplit. rewrite Hfilter in Hsplit.
  rewrite (filter_not_level unlocked) in Hsplit by apply unlocks_not_level.
  lia.
Qed.

(** Without the user document [addXP] throws at once: the error is logged
    by [addXP] and by the block, and nothing else happens. *)
Lemma awardCheckIn_user_not_found T MS V fuel userId habitId streakResult w :
  faults w = [] → users w !! userId = None → (0 < fuel)%nat →
  awardCheckIn T MS V fuel userId habitId streakResult w
  = (Ok (),
     withConsole
       (console w ++ [ConsoleError "Error adding XP:" (JsError "User not found");
                      ConsoleWarn "Achievement error (non-fatal):" (JsError "User not found")])
       w).
Proof.
  intros Hrel Hu Hfuel. unfold awardCheckIn.
  erewrite tryCatch_throw; cycle 1.
  { erewrite bind_throw; [reflexivity|]. by apply addXP_user_not_found. }
  unfold consoleWarn. simpl. by rewrite <- app_assoc.
Qed.

(** ** The route *)

Lemma tryCatch_bind_ok {A B} (m : M A) (f : A → M B) (h : Exn → M B) w a w1 :
  m w = (Ok a, w1) → tryCatch (m ≫= f) h w = tryCatch (f a) h w1.
Proof. unfold tryCatch, mbind, M_bind. by intros ->. Qed.

Section CheckinsCreate.
Context (T MS : list Z) (V : XpValues) (utcOffset : Z).
Context (isDateValidForHabit : Habit.t → Z → bool).
Context (updateStreak : string → string → Z → M StreakResult).

Local Abbreviation create := (checkins_create T MS V utcOffset isDateValidForHabit updateStreak).
Local Abbreviation record := (recordCheckIn T MS V updateStreak).

(** The route up to the duplicate test: a request that passes every
    validation goes on to record the check-in. *)
Lemma checkins_create_validated fuel userId req habit w wa :
  getHabit (req_habitId req) w = (Ok (Some habit), wa) →
  Habit.userId habit = userId → Habit.status habit = "active" →
  let checkInDate := default (clock wa) (req_date req) in
  isDateValidForHabit habit checkInDate = true →
  create fuel userId req w
  = if includes (formatDateString utcOffset checkInDate)
         (default [] (Habit.completedDates habit))
       && truthy (req_completed req)
    then (Ok (Http.fail 400 "Already checked in for this date"), wa)
    else tryCatch (record fuel userId req habit checkInDate) createCheckInCatch wa.
Proof.
  intros Hget Howner Hactive checkInDate Hvalid. unfold checkins_create.
  assert (match Habit.completedDates habit with
          | Some completedDates => includes (formatDateString utcOffset checkInDate) completedDates
          | None => false
          end = includes (formatDateString utcOffset checkInDate)
                  (default [] (Habit.completedDates habit))) as Hdup.
  { by destruct (Habit.completedDates habit). }
  destruct (includes _ (default [] _) && truthy _) eqn:Hguard.
  - erewrite tryCatch_ok; [reflexivity|].
    rewrite (bind_ok _ _ _ _ _ Hget).
    rewrite !bool_decide_true by done. cbn [negb]. rewrite bind_newDate.
    fold checkInDate. rewrite Hvalid. cbn [negb]. rewrite Hdup, Hguard. reflexivity.
  - rewrite (tryCatch_bind_ok _ _ _ _ _ _ Hget).
    rewrite !bool_decide_true by done. cbn [negb].
    rewrite (tryCatch_bind_ok _ _ _ _ _ _ (eq_refl : newDate wa = (Ok (clock wa), wa))).
    fold checkInDate. rewrite Hvalid. cbn [negb]. rewrite Hdup, Hguard. reflexivity.
Qed.

(** A completed check-in, once its document is written and the streak
    updated, answers 200 if the update of [lastActivity] goes through,
    whatever the award block did. *)
Lemma recordCheckIn_completed fuel userId req habit checkInDate w id wb sr wc wd :
  notFalse (req_completed req) = true →
  addCheckin (checkInOf (clock w) userId req checkInDate) w = (Ok id, wb) →
  updateStreak (req_habitId req) userId checkInDate wb = (Ok sr, wc) →
  awardCheckIn T MS V fuel userId (req_habitId req) sr wc = (Ok (), wd) →
  record fuel userId req habit checkInDate w
  = (now ← newDate;
     updateUser userId (User.touch now);;
     mret (Http.json
             (Http.CheckInCreated id (checkInOf (clock w) userId req checkInDate) sr))) wd.
Proof.
  intros Hcompleted Hadd Hstreak Haward. unfold recordCheckIn. cbv zeta.
  rewrite bind_newDate. fold (checkInOf (clock w) userId req checkInDate).
  rewrite (bind_ok _ _ _ _ _ Hadd), Hcompleted.
  rewrite (bind_ok _ _ wb (Some sr) wd); [reflexivity|].
  rewrite (bind_ok _ _ _ _ _ Hstreak), (bind_ok _ _ _ _ _ Haward). reflexivity.
Qed.
End CheckinsCreate.

(** ** The claims about the check-in routes *)

Lemma tryCatch_ext_run {A} (m m' : M A) (h : Exn → M A) w w' :
  m w = m' w' → tryCatch m h w = tryCatch m' h w'.
Proof. unfold tryCatch. by intros ->. Qed.

(** C3 (amended).  A completed check-in on a date that is already in
    [completedDates] is refused with 400 and the world is left as it was: on
    [POST /:id/checkIn] for every request, on [POST /] for a request whose
    [completed] field is truthy. *)
Theorem duplicate_checkIn_rejected (dayBefore : Timestamp → Timestamp)
    (T MS : list Z) (V : XpValues) (utcOffset : Z)
    (isDateValidForHabit : Habit.t → Z → bool)
    (updateStreak : string → string → Z → M StreakResult)
    (fuel : nat) (w : World) (userId : string) (habit : Habit.t) :
  faults w = [] → Habit.userId habit = userId →
  (∀ id,
     habits w !! id = Some habit →
     Habit.archived habit = false → Habit.paused habit = false →
     isoDate (clock w) ∈ default [] (Habit.completedDates habit) →
     habits_checkIn dayBefore userId id w
     = (Ok (Http.fail 400 "Already checked in today"), w))
  ∧ (∀ req,
       habits w !! req_habitId req = Some habit → Habit.status habit = "active" →
       let checkInDate := default (clock w) (req_date req) in
       isDateValidForHabit habit checkInDate = true →
       formatDateString utcOffset checkInDate ∈ default [] (Habit.completedDates habit) →
       truthy (req_completed req) = true →
       checkins_create T MS V utcOffset isDateValidForHabit updateStreak fuel userId req w
       = (Ok (Http.fail 400 "Already checked in for this date"), w)).
Proof.
  intros Hrel Howner. split.
  - intros id Hstored Harchived Hpaused Hdup.
    by apply (habits_checkIn_duplicate dayBefore w userId id habit).
  - intros req Hstored Hactive checkInDate Hvalid Hdup Htruthy.
    assert (getHabit (req_habitId req) w = (Ok (Some habit), w)) as Hget
      by (by rewrite getHabit_reliable, Hstored).
    rewrite (checkins_create_validated T MS V utcOffset isDateValidForHabit updateStreak
               fuel userId req habit w w Hget Howner Hactive Hvalid).
    fold checkInDate. unfold includes. rewrite bool_decide_true by done.
    by rewrite Htruthy.
Qed.

Lemma duplicate_checkIn_rejected_witness :
  let w := habitWorld (sampleHabit 2 2 [jan6 - 1; jan6]) jan6 in
  habits_checkIn minusOneDay "u1" "h1" w
  = (Ok (Http.fail 400 "Already checked in today"), w)
  ∧ checkins_create scenarioThresholds scenarioMilestones scenarioXpValues 0 anyDate
      (updateStreak_spec 0) 4 "u1" (bareRequest (JBool true)) w
    = (Ok (Http.fail 400 "Already checked in for this date"), w).
Proof.
  intros w.
  destruct (duplicate_checkIn_rejected minusOneDay scenarioThresholds scenarioMilestones
              scenarioXpValues 0 anyDate (updateStreak_spec 0) 4 w "u1" (sampleHabit 2 2 [jan6 - 1; jan6])
              eq_refl eq_refl) as [Hhabits Hcreate].
  split.
  - apply Hhabits; [reflexivity | reflexivity | reflexivity |].
    apply (bool_decide_unpack _). vm_compute. exact I.
  - apply (Hcreate (bareRequest (JBool true))); [reflexivity | reflexivity | reflexivity | | reflexivity].
    apply (bool_decide_unpack _). vm_compute. exact I.
Defined.

(** C3, as stated, fails on [POST /]: a request with [completed: false] for
    a date that is already in [completedDates] is answered 200 and its
    check-in document is added to the store. *)
Lemma checkIn_not_completed_is_recorded :
  let w := habitWorld (sampleHabit 2 2 [jan6 - 1; jan6]) jan6 in
  let req := bareRequest (JBool false) in
  let checkIn := checkInOf (clock w) "u1" req (clock w) in
  let run := checkins_create scenarioThresholds scenarioMilestones scenarioXpValues 0
               anyDate (updateStreak_spec 0) 4 "u1" req w in
  includes (formatDateString 0 (clock w)) [jan6 - 1; jan6] = true
  ∧ run.1 = Ok (Http.json (Http.CheckInCreated 0 checkIn
                             {| currentStreak := Some 2; updated := false |}))
  ∧ CheckIn.completed checkIn = false
  ∧ checkins w = []
  ∧ checkins run.2 = [checkIn].
Proof. vm_compute. repeat split; reflexivity. Qed.

(** C10.  On [POST /], a request that omits [completed] for a date that is
    already in [completedDates] is not refused.  Its check-in document, with
    [completed = true], is added to the store, and the streak update is
    called on the store that holds it.  When that update resolves and leaves
    the user's document in the store, XP is awarded again: [addXP] adds 10
    to the user's XP, [checkAchievements] runs on the result, and the route
    answers 200 with the new check-in and the streak result, leaving the
    user with the XP they had plus 10 plus the reward of every achievement
    unlocked, and the habits and check-ins as the streak update left them. *)
Theorem omitted_completed_bypasses_duplicate_check (T MS : list Z) (V : XpValues)
    (utcOffset : Z) (isDateValidForHabit : Habit.t → Z → bool)
    (updateStreak : string → string → Z → M StreakResult)
    (fuel : nat) (w wc : World) (userId : string) (req : CheckInRequest) (habit : Habit.t)
    (streakResult : StreakResult) (user : User.t) :
  faults w = [] → habits w !! req_habitId req = Some habit →
  Habit.userId habit = userId → Habit.status habit = "active" →
  let checkInDate := default (clock w) (req_date req) in
  isDateValidForHabit habit checkInDate = true →
  formatDateString utcOffset checkInDate ∈ default [] (Habit.completedDates habit) →
  req_completed req = JUndefined →
  let checkIn := checkInOf (clock w) userId req checkInDate in
  (0 < fuel)%nat →
  updateStreak (req_habitId req) userId checkInDate
    (withCheckins (checkins w ++ [checkIn]) w) = (Ok streakResult, wc) →
  faults wc = [] → users wc !! userId = Some user →
  let context := {| ctx_type := "check_in"; ctx_habitId := req_habitId req;
                    ctx_streak := currentStreak streakResult |} in
  CheckIn.completed checkIn = true
  ∧ ∃ w1 unlocked wd we user',
      addXP T V fuel userId 10 "check_in" wc
      = (Ok {| xp := xpOf user + 10;
               level := levelLoop T (length T) (xpOf user + 10) (levelOf user);
               levelUp := levelOf user
                          <? levelLoop T (length T) (xpOf user + 10) (levelOf user) |}, w1)
      ∧ checkAchievements T MS V fuel userId context w1 = (Ok unlocked, wd)
      ∧ checkins_create T MS V utcOffset isDateValidForHabit updateStreak fuel userId req w
        = (Ok (Http.json
                 (Http.CheckInCreated (length (checkins w)) checkIn streakResult)), we)
      ∧ habits we = habits wc
      ∧ checkins we = checkins wc
      ∧ users we !! userId = Some user'
      ∧ xpOf user' = xpOf user + 10 + rewards unlocked.
Proof.
  intros Hrel Hstored Howner Hactive checkInDate Hvalid Hdup Homitted checkIn Hfuel
    Hstreak Hrelc Hu context.
  split. { unfold checkIn, checkInOf. by rewrite Homitted. }
  destruct (awardCheckIn_reliable T MS V fuel userId (req_habitId req) streakResult wc user
              Hrelc Hu Hfuel)
    as (unlocked & wd & created & u' & Hcheck & Haward & Hreld & Hud & Hhd & Hcd & Hkd & Hxp & _).
  assert (xpOf (User.touch (clock wd) u') = xpOf u') as Htouch by done.
  eexists _, unlocked, wd, _, _. split.
  { by apply (addXP_reliable T V). }
  split; [exact Hcheck|]. split.
  { assert (getHabit (req_habitId req) w = (Ok (Some habit), w)) as Hget
      by (by rewrite getHabit_reliable, Hstored).
    rewrite (checkins_create_validated T MS V utcOffset isDateValidForHabit updateStreak
               fuel userId req habit w w Hget Howner Hactive Hvalid).
    fold checkInDate. rewrite Homitted. simpl truthy. rewrite andb_false_r.
    erewrite tryCatch_ok; [reflexivity|].
    rewrite (recordCheckIn_completed T MS V updateStreak fuel userId req habit checkInDate
               w (length (checkins w)) (withCheckins (checkins w ++ [checkIn]) w)
               streakResult wc wd);
      [|by rewrite Homitted|by apply addCheckin_reliable|exact Hstreak|exact Haward].
    rewrite bind_newDate.
    rewrite (bind_ok _ _ _ _ _ (updateUser_reliable wd userId _ u' Hreld Hud)).
    reflexivity. }
  simpl. split; [done|]. split; [done|]. split; [by rewrite lookup_insert_eq|].
  by rewrite Htouch, Hxp.
Qed.

(** A habit checked in on 2024-01-05 and 2024-01-06, and a request of
    2024-01-06 that omits [completed], with the streak service of section
    4.2: the document is added, the streak service reports the date as
    already counted, and the user's XP grows from 95 to 105. *)
Lemma omitted_completed_bypasses_duplicate_check_witness :
  let w := habitWorld (sampleHabit 2 2 [jan6 - 1; jan6]) jan6 in
  let req := bareRequest JUndefined in
  let checkIn := checkInOf (clock w) "u1" req (clock w) in
  let run := checkins_create scenarioThresholds scenarioMilestones scenarioXpValues 0
               anyDate (updateStreak_spec 0) 4 "u1" req w in
  run.1 = Ok (Http.json (Http.CheckInCreated 0 checkIn
                           {| currentStreak := Some 2; updated := false |}))
  ∧ CheckIn.completed checkIn = true
  ∧ checkins w = []
  ∧ checkins run.2 = [checkIn]
  ∧ (users w !! "u1") ≫= User.xp = Some 95
  ∧ (users run.2 !! "u1") ≫= User.xp = Some 105.
Proof.
  intros w req checkIn run.
  destruct (omitted_completed_bypasses_duplicate_check scenarioThresholds scenarioMilestones
              scenarioXpValues 0 anyDate (updateStreak_spec 0) 4 w
              (withCheckins [checkIn] w) "u1" req
              (sampleHabit 2 2 [jan6 - 1; jan6])
              {| currentStreak := Some 2; updated := false |} sampleUser)
    as (Hcompleted & w1 & unlocked & wd & we & user' & _ & _ & Hrun & _ & Hcheckins & Huser & Hxp);
    [reflexivity | reflexivity | reflexivity | reflexivity | reflexivity
    | apply (bool_decide_unpack _); vm_compute; exact I | reflexivity | lia
    | vm_compute; reflexivity | reflexivity | reflexivity |].
  subst run. rewrite Hrun. simpl fst. simpl snd.
  split; [reflexivity|]. split; [exact Hcompleted|]. split; [reflexivity|].
  split; [by rewrite Hcheckins|]. split; [reflexivity|].
  vm_compute in Hrun. injection Hrun as <-. vm_compute. reflexivity.
Defined.

Lemma addCheckin_inv (c : CheckIn.t) (w w' : World) (id : nat) :
  addCheckin c w = (Ok id, w') →
  checkins w' = checkins w ++ [c] ∧ id = length (checkins w) ∧ clock w' = clock w.
Proof. intros Hadd. unfold addCheckin in Hadd. minv Hadd; done. Qed.

(** C8.  On [POST /], once the check-in document is written and the streak
    updated, the block that awards XP and checks achievements always
    completes: whatever is thrown inside it is caught and logged as a
    warning, the stored check-ins and habits are left as they were, and the
    route answers 200 with the check-in as soon as the closing update of
    [lastActivity] goes through.  The document is in the store before the
    block starts.  What fails inside the block is logged where it is
    caught, also by [addXP], [handleLevelUp] and [checkAchievements]:
    whatever calls the plan rejects, the console gains at least one line
    reporting a rejection for every call rejected in the block; and when no
    call rejects, a user without a document is reported by [addXP] and by
    the block, and for a user with one the console gains one line for every
    level achievement stored, whose notification the store has refused. *)
Theorem side_effect_failures_swallowed (T MS : list Z) (V : XpValues) (utcOffset : Z)
    (isDateValidForHabit : Habit.t → Z → bool)
    (updateStreak : string → string → Z → M StreakResult)
    (fuel : nat) (userId : string) (req : CheckInRequest) (habit : Habit.t)
    (w wa wb wc : World) (id : nat) (streakResult : StreakResult) :
  (length T < fuel)%nat →
  getHabit (req_habitId req) w = (Ok (Some habit), wa) →
  Habit.userId habit = userId → Habit.status habit = "active" →
  let checkInDate := default (clock wa) (req_date req) in
  isDateValidForHabit habit checkInDate = true →
  includes (formatDateString utcOffset checkInDate) (default [] (Habit.completedDates habit))
    && truthy (req_completed req) = false →
  notFalse (req_completed req) = true →
  let checkIn := checkInOf (clock wa) userId req checkInDate in
  addCheckin checkIn wa = (Ok id, wb) →
  updateStreak (req_habitId req) userId checkInDate wb = (Ok streakResult, wc) →
  checkins wb = checkins wa ++ [checkIn]
  ∧ ∃ wd,
      awardCheckIn T MS V fuel userId (req_habitId req) streakResult wc = (Ok (), wd)
      ∧ checkins wd = checkins wc
      ∧ habits wd = habits wc
      ∧ (∀ e wx,
           (addXP T V fuel userId 10 "check_in";;
            checkAchievements T MS V fuel userId
              {| ctx_type := "check_in"; ctx_habitId := req_habitId req;
                 ctx_streak := currentStreak streakResult |};;
            mret ()) wc = (Throw e, wx) →
           wd = withConsole
                  (console wx ++ [ConsoleWarn "Achievement error (non-fatal):" e]) wx)
      ∧ (∃ consumed entries,
           faults wc = consumed ++ faults wd
           ∧ console wd = console wc ++ entries
           ∧ (rejections consumed ≤ reported Unavailable entries)%nat)
      ∧ (faults wc = [] → users wc !! userId = None →
         console wd
         = console wc
           ++ [ConsoleError "Error adding XP:" (JsError "User not found");
               ConsoleWarn "Achievement error (non-fatal):" (JsError "User not found")])
      ∧ (faults wc = [] → is_Some (users wc !! userId) →
         ∃ created,
           achievements wd = achievements wc ++ created
           ∧ console wd
             = console wc
               ++ replicate (length (List.filter (λ a, bool_decide (isLevel a)) created))
                    levelUpRefused)
      ∧ ∀ we,
          updateUser userId (User.touch (clock wd)) wd = (Ok (), we) →
          checkins_create T MS V utcOffset isDateValidForHabit updateStreak fuel userId req w
          = (Ok (Http.json (Http.CheckInCreated id checkIn streakResult)), we).
Proof.
  intros Hfuel Hget Howner Hactive checkInDate Hvalid Hguard Hcompleted checkIn Hadd Hstreak.
  split; [by apply addCheckin_inv in Hadd as (? & _)|].
  destruct (awardCheckIn_swallows T MS V fuel Hfuel userId (req_habitId req) streakResult wc)
    as (wd & Haward & Hframe & Hwarn).
  exists wd. split; [done|]. split; [apply Hframe|]. split; [apply Hframe|].
  split; [done|]. split; [|split; [|split]].
  - pose proof (awardCheckIn_logs T MS V fuel userId (req_habitId req) streakResult wc)
      as Hlogged.
    rewrite Haward in Hlogged. simpl in Hlogged.
    destruct Hlogged as (consumed & entries & ? & ? & ?).
    exists consumed, entries. repeat split; try done. lia.
  - intros Hrel Hnone.
    rewrite awardCheckIn_user_not_found in Haward by (done || lia).
    by injection Haward as <-.
  - intros Hrel [user Huser].
    destruct (awardCheckIn_reliable T MS V fuel userId (req_habitId req) streakResult wc user
                Hrel Huser ltac:(lia))
      as (unlocked & wd' & created & u' & _ & Haward' & _ & _ & _ & _ & _ & _ & _ & Hach & Hlog).
    rewrite Haward in Haward'. injection Haward' as <-. by exists created.
  - intros we Htouch.
    rewrite (checkins_create_validated T MS V utcOffset isDateValidForHabit updateStreak
               fuel userId req habit w wa Hget Howner Hactive Hvalid).
    fold checkInDate. rewrite Hguard.
    erewrite tryCatch_ok; [reflexivity|].
    rewrite (recordCheckIn_completed T MS V updateStreak fuel userId req habit checkInDate
               wa id wb streakResult wc wd Hcompleted Hadd Hstreak Haward).
    rewrite bind_newDate. fold checkIn. by rewrite (bind_ok _ _ _ _ _ Htouch).
Qed.

(** A first check-in of 2024-01-06 after one of 2024-01-05, in two runs.
    Where the fifth call to the store, the read of the user in [addXP], is
    rejected: [addXP] and the block log the rejection, the route still
    answers 200, the check-in is stored and the user's XP is unchanged.
    Where the eighth call, the first query of [checkAchievements], is
    rejected: the XP is awarded, the level achievement is stored,
    [handleLevelUp] logs the refused notification and [checkAchievements]
    the rejection, and the route answers 200. *)
Lemma side_effect_failures_swallowed_witness :
  let world plan :=
    mkWorld {[ "h1" := sampleHabit 1 1 [jan6 - 1] ]} {[ "u1" := sampleUser ]} [] []
      (noon jan6) plan in
  let req := bareRequest (JBool true) in
  let checkIn := checkInOf (noon jan6) "u1" req (noon jan6) in
  let run plan :=
    checkins_create scenarioThresholds scenarioMilestones scenarioXpValues 0
      anyDate (updateStreak_spec 0) 4 "u1" req (world plan) in
  let created := Ok (Http.json (Http.CheckInCreated 0 checkIn
                                  {| currentStreak := Some 2; updated := true |})) in
  ((run [false; false; false; false; true]).1 = created
   ∧ checkins (run [false; false; false; false; true]).2 = [checkIn]
   ∧ (users (run [false; false; false; false; true]).2 !! "u1") ≫= User.xp = Some 95
   ∧ console (run [false; false; false; false; true]).2
     = [ConsoleError "Error adding XP:" Unavailable;
        ConsoleWarn "Achievement error (non-fatal):" Unavailable])
  ∧ ((run [false; false; false; false; false; false; false; true]).1 = created
     ∧ (users (run [false; false; false; false; false; false; false; true]).2 !! "u1")
         ≫= User.xp = Some 105
     ∧ length (achievements
                 (run [false; false; false; false; false; false; false; true]).2) = 1%nat
     ∧ notifications (run [false; false; false; false; false; false; false; true]).2 = []
     ∧ console (run [false; false; false; false; false; false; false; true]).2
       = [levelUpRefused; ConsoleError "Error checking achievements:" Unavailable]).
Proof.
  intros world req checkIn run created. subst run created.
  split.
  - edestruct (side_effect_failures_swallowed scenarioThresholds scenarioMilestones
                 scenarioXpValues 0 anyDate (updateStreak_spec 0) 4 "u1" req
                 (sampleHabit 1 1 [jan6 - 1]) (world [false; false; false; false; true]))
      as (_ & wd & Haward & _ & _ & _ & _ & _ & _ & Hanswer);
      [vm_compute; lia | vm_compute; reflexivity | reflexivity | reflexivity | reflexivity
      | vm_compute; reflexivity | reflexivity | vm_compute; reflexivity
      | vm_compute; reflexivity |].
    vm_compute in Haward. injection Haward as <-.
    erewrite Hanswer; [|vm_compute; reflexivity].
    vm_compute. repeat split; reflexivity.
  - edestruct (side_effect_failures_swallowed scenarioThresholds scenarioMilestones
                 scenarioXpValues 0 anyDate (updateStreak_spec 0) 4 "u1" req
                 (sampleHabit 1 1 [jan6 - 1])
                 (world [false; false; false; false; false; false; false; true]))
      as (_ & wd & Haward & _ & _ & _ & _ & _ & _ & Hanswer);
      [vm_compute; lia | vm_compute; reflexivity | reflexivity | reflexivity | reflexivity
      | vm_compute; reflexivity | reflexivity | vm_compute; reflexivity
      | vm_compute; reflexivity |].
    vm_compute in Haward. injection Haward as <-.
    erewrite Hanswer; [|vm_compute; reflexivity].
    vm_compute. repeat split; reflexivity.
Defined.

(** * services/fcmService.js: the senders *)

Lemma sendNotification_bestEffort userId title body data :
  bestEffort userId (sendNotification userId title body data).
Proof.
  intros w. destruct (sendNotification userId title body data w) as [r w'] eqn:Hrun.
  unfold sendNotification in Hrun.
  minv Hrun; simpl; eexists _, _; (split; [reflexivity|]); repeat (split; [done|]).
  all: try (left; split; [done|]; intros id; discriminate).
  right. eexists _, {| Fcm.token := _ |}. simpl. eauto.
Qed.

(** Every sender of the service is best effort: it never rejects, whatever
    the store or the gateway do, it writes to no collection, and what it
    sends goes to the token stored for the user it was called for. *)
Theorem senders_best_effort (userId habitId habitName message title body : string)
    (data : list (string * string)) (streak : Z) :
  bestEffort userId (sendNotification userId title body data)
  ∧ bestEffort userId (sendHabitReminder userId habitId habitName)
  ∧ bestEffort userId (sendStreakAlert userId habitName streak)
  ∧ bestEffort userId (sendStreakEndAlert userId habitName streak)
  ∧ bestEffort userId (sendMotivation userId message).
Proof. repeat split; apply sendNotification_bestEffort. Qed.

(** When no call rejects, [sendNotification] ends in one of three ways: for
    a user without a document the error is logged and the result is a
    failure; for a user without a token, the empty string included, a line
    is logged and nothing is sent; otherwise one message with the title, the
    body, and the data followed by the timestamp is handed to the gateway. *)
Theorem sendNotification_outcomes (userId title body : string)
    (data : list (string * string)) (w : World) :
  faults w = [] →
  let run := sendNotification userId title body data w in
  strOrNull (Some "") = None
  ∧ (users w !! userId = None →
     run = (Ok Fcm.Failed,
            withConsole
              (console w ++ [ConsoleError "❌ FCM Error:" (JsError "User not found")]) w))
  ∧ (∀ u, users w !! userId = Some u → strOrNull (User.fcmToken u) = None →
       run = (Ok Fcm.NoToken,
              withConsole (console w ++ [ConsoleLog ("No FCM token for user " +:+ userId)]) w))
  ∧ (∀ u token, users w !! userId = Some u → strOrNull (User.fcmToken u) = Some token →
       run = (Ok (Fcm.Sent (length (outbox w))),
              withConsole (console w ++ [ConsoleLog "✅ Notification sent:"])
                (withOutbox
                   (outbox w ++
                      [{| Fcm.title := title; Fcm.body := body;
                          Fcm.data := data ++ [("timestamp", pretty (clock w))];
                          Fcm.token := token |}]) w))).
Proof.
  intros Hrel run. subst run. rewrite sendNotification_reliable by done.
  split; [done|]. split; [by intros ->|]. split.
  - by intros u -> ->.
  - by intros u token -> ->.
Qed.

Lemma sendNotification_outcomes_witness :
  let user := {| User.xp := Some 0; User.level := Some 1; User.fcmToken := Some "";
                 User.lastActivity := 0; User.updatedAt := None |} in
  let w := mkWorld ∅ {[ "u1" := user ]} [] [] (noon jan6) [] in
  sendMotivation "u1" "Keep going" w
  = (Ok Fcm.NoToken, withConsole [ConsoleLog "No FCM token for user u1"] w).
Proof.
  intros user w.
  destruct (sendNotification_outcomes "u1" "💪 Your Daily Motivation" "Keep going"
              [("type", "motivation")] w eq_refl) as (_ & _ & Hnone & _).
  exact (Hnone user eq_refl eq_refl).
Defined.

(** * routes/habits.js: reading, pausing and archiving a habit *)

Lemma withFaults_nil w : faults w = [] → withFaults [] w = w.
Proof. intros <-. apply withFaults_same. Qed.

(** [decided] turns the tests of an inverted run into propositions. *)
Ltac decided :=
  repeat match goal with
  | H : negb _ = true |- _ => apply negb_true_iff in H
  | H : negb _ = false |- _ => apply negb_false_iff in H
  | H : bool_decide _ = true |- _ => apply bool_decide_eq_true in H
  | H : bool_decide _ = false |- _ => apply bool_decide_eq_false in H
  | H : _ || _ = false |- _ => apply orb_false_iff in H as [? ?]
  | H : _ && _ = true |- _ => apply andb_true_iff in H as [? ?]
  end.

(** [GET /:id] always answers, writes nothing to the store, and returns a
    habit document only to its owner. *)
Theorem habits_get_owner_only (uid id : string) (w : World) :
  ∃ resp w',
    habits_get uid id w = (Ok resp, w')
    ∧ storeUntouched w w'
    ∧ (∀ message docId habit,
         HabitsHttp.body resp = HabitsHttp.HabitDoc message docId habit →
         HabitsHttp.status resp = 200 ∧ docId = id
         ∧ habits w !! id = Some habit ∧ Habit.userId habit = uid)
    ∧ (faults w = [] → ∀ habit,
         habits w !! id = Some habit → Habit.userId habit = uid →
         resp = HabitsHttp.json (HabitsHttp.HabitDoc None id habit) ∧ w' = w).
Proof.
  destruct (habits_get uid id w) as [r w'] eqn:Hrun. unfold habits_get in Hrun.
  minv Hrun; eexists _, _; (split; [reflexivity|]); (split; [by repeat split|]);
    simpl in *; decided; (split; [intros ??? [=]; by subst|]).
  all: intros Hrel habit Hh Ho; reliable; simpl in *; simplify_eq.
  all: by rewrite withFaults_nil.
Qed.


Lemma habits_pause_reliable w uid id habit :
  faults w = [] → habits w !! id = Some habit → Habit.userId habit = uid →
  let updated := setPaused (negb (Habit.paused habit)) (clock w) habit in
  habits_pause uid id w
  = (Ok (HabitsHttp.json
           (HabitsHttp.HabitDoc
              (Some ("Habit " +:+ (if Habit.paused habit then "resumed" else "paused")
                       +:+ " successfully"))
              id updated)),
     withHabits (<[id := updated]> (habits w)) w).
Proof.
  intros Hrel Hstored Howner updated. unfold habits_pause.
  erewrite tryCatch_ok; [reflexivity|].
  rewrite (bind_ok _ _ _ _ _ (getHabit_reliable w id Hrel)), Hstored.
  rewrite bool_decide_true by done. cbn [negb]. rewrite bind_newDate.
  rewrite (bind_ok _ _ _ _ _ (updateHabit_reliable w id _ habit Hrel Hstored)).
  rewrite (bind_ok _ _ _ _ _ (getHabit_reliable (withHabits _ w) id Hrel)). simpl.
  rewrite lookup_insert_eq. by destruct (Habit.paused habit).
Qed.

Lemma habits_archive_reliable w uid id habit :
  faults w = [] → habits w !! id = Some habit → Habit.userId habit = uid →
  habits_archive uid id w
  = (Ok (HabitsHttp.json (HabitsHttp.Done "Habit archived successfully")),
     withHabits (<[id := setArchived (clock w) habit]> (habits w)) w).
Proof.
  intros Hrel Hstored Howner. unfold habits_archive.
  erewrite tryCatch_ok; [reflexivity|].
  rewrite (bind_ok _ _ _ _ _ (getHabit_reliable w id Hrel)), Hstored.
  rewrite bool_decide_true by done. cbn [negb]. rewrite bind_newDate.
  by rewrite (bind_ok _ _ _ _ _ (updateHabit_reliable w id _ habit Hrel Hstored)).
Qed.

Lemma habits_checkIn_refused dayBefore w uid id habit :
  faults w = [] → habits w !! id = Some habit → Habit.userId habit = uid →
  Habit.archived habit || Habit.paused habit = true →
  habits_checkIn dayBefore uid id w
  = (Ok (Http.fail 400 "Cannot check in to archived or paused habit"), w).
Proof.
  intros Hrel Hstored Howner Hflag. unfold habits_checkIn.
  erewrite tryCatch_ok; [reflexivity|].
  rewrite (bind_ok _ _ _ _ _ (getHabit_reliable w id Hrel)), Hstored.
  rewrite bool_decide_true by done. cbn [negb]. by rewrite Hflag.
Qed.

(** [PATCH /:id/pause] toggles: called twice by the owner, with no call
    rejecting, it answers "paused" then "resumed" (or the reverse) and
    leaves the habit as it was but for [updatedAt]; nothing else in the
    world changes. *)
Theorem habits_pause_twice (uid id : string) (w : World) (habit : Habit.t) :
  faults w = [] → habits w !! id = Some habit → Habit.userId habit = uid →
  ∃ r1 w1 r2 w2,
    habits_pause uid id w = (Ok r1, w1)
    ∧ habits_pause uid id w1 = (Ok r2, w2)
    ∧ r1 = HabitsHttp.json
             (HabitsHttp.HabitDoc
                (Some (if Habit.paused habit then "Habit resumed successfully"
                       else "Habit paused successfully"))
                id (setPaused (negb (Habit.paused habit)) (clock w) habit))
    ∧ r2 = HabitsHttp.json
             (HabitsHttp.HabitDoc
                (Some (if Habit.paused habit then "Habit paused successfully"
                       else "Habit resumed successfully"))
                id (setPaused (Habit.paused habit) (clock w) habit))
    ∧ w2 = withHabits (<[id := setPaused (Habit.paused habit) (clock w) habit]> (habits w)) w.
Proof.
  intros Hrel Hstored Howner.
  set (h1 := setPaused (negb (Habit.paused habit)) (clock w) habit).
  set (w1 := withHabits (<[id := h1]> (habits w)) w).
  assert (habits w1 !! id = Some h1) as Hstored1 by (simpl; by rewrite lookup_insert_eq).
  eexists _, w1, _, _.
  split; [by apply habits_pause_reliable|].
  split; [by apply (habits_pause_reliable w1 uid id h1)|].
  split; [by destruct (Habit.paused habit)|].
  simpl. rewrite negb_involutive. split; [by destruct (Habit.paused habit)|].
  unfold w1, withHabits; simpl. by rewrite insert_insert_eq.
Qed.

Lemma habits_pause_twice_witness :
  let w := habitWorld (sampleHabit 3 3 [jan6 - 1]) jan6 in
  ∃ r1 w1 r2 w2,
    habits_pause "u1" "h1" w = (Ok r1, w1)
    ∧ habits_pause "u1" "h1" w1 = (Ok r2, w2)
    ∧ (habits w1 !! "h1") ≫= (λ h, Some (Habit.paused h)) = Some true
    ∧ (habits w2 !! "h1") ≫= (λ h, Some (Habit.paused h)) = Some false
    ∧ habits w2 !! "h1" = Some (setPaused false (noon jan6) (sampleHabit 3 3 [jan6 - 1])).
Proof.
  intros w.
  destruct (habits_pause_twice "u1" "h1" w (sampleHabit 3 3 [jan6 - 1])
              eq_refl eq_refl eq_refl) as (r1 & w1 & r2 & w2 & H1 & H2 & _ & _ & Hw2).
  exists r1, w1, r2, w2. split; [exact H1|]. split; [exact H2|].
  vm_compute in H1. injection H1 as _ <-. subst w2.
  vm_compute. repeat split; reflexivity.
Defined.

(** Once the owner has archived a habit, [POST /:id/checkIn] refuses it and
    writes nothing; [PATCH /:id/pause] still toggles [paused], but the habit
    stays archived and the check-in stays refused. *)
Theorem habits_archive_blocks_checkIn (dayBefore : Timestamp → Timestamp)
    (uid id : string) (w : World) (habit : Habit.t) :
  faults w = [] → habits w !! id = Some habit → Habit.userId habit = uid →
  ∃ w1 r2 w2,
    habits_archive uid id w
    = (Ok (HabitsHttp.json (HabitsHttp.Done "Habit archived successfully")), w1)
    ∧ w1 = withHabits (<[id := setArchived (clock w) habit]> (habits w)) w
    ∧ habits_checkIn dayBefore uid id w1
      = (Ok (Http.fail 400 "Cannot check in to archived or paused habit"), w1)
    ∧ habits_pause uid id w1 = (Ok r2, w2)
    ∧ habits w2 !! id = Some (setPaused false (clock w) (setArchived (clock w) habit))
    ∧ habits_checkIn dayBefore uid id w2
      = (Ok (Http.fail 400 "Cannot check in to archived or paused habit"), w2).
Proof.
  intros Hrel Hstored Howner.
  set (h1 := setArchived (clock w) habit).
  set (w1 := withHabits (<[id := h1]> (habits w)) w).
  assert (habits w1 !! id = Some h1) as Hstored1 by (simpl; by rewrite lookup_insert_eq).
  eexists w1, _, _.
  split; [by apply habits_archive_reliable|]. split; [done|].
  split; [by apply (habits_checkIn_refused dayBefore w1 uid id h1)|].
  split; [by apply (habits_pause_reliable w1 uid id h1)|].
  split; [simpl; by rewrite lookup_insert_eq|].
  eapply habits_checkIn_refused; [done|simpl; by rewrite lookup_insert_eq|done|done].
Qed.

Lemma habits_archive_blocks_checkIn_witness :
  let w := habitWorld (sampleHabit 3 3 [jan6 - 1]) jan6 in
  ∃ w1,
    habits_archive "u1" "h1" w
    = (Ok (HabitsHttp.json (HabitsHttp.Done "Habit archived successfully")), w1)
    ∧ habits_checkIn minusOneDay "u1" "h1" w1
      = (Ok (Http.fail 400 "Cannot check in to archived or paused habit"), w1).
Proof.
  intros w.
  destruct (habits_archive_blocks_checkIn minusOneDay "u1" "h1" w (sampleHabit 3 3 [jan6 - 1])
              eq_refl eq_refl eq_refl) as (w1 & _ & _ & H1 & _ & H2 & _).
  exists w1. split; [exact H1 | exact H2].
Defined.


(** ** What the habit routes keep, whatever calls reject *)

#[global] Instance sameButFlags_preorder : PreOrder sameButFlags.
Proof.
  split.
  - intros h. by repeat split.
  - intros h1 h2 h3 (?&?&?&?&?&?&?&?&?&?) (?&?&?&?&?&?&?&?&?&?).
    repeat split; congruence.
Qed.

#[global] Instance flagsOnly_preorder : PreOrder flagsOnly.
Proof.
  split.
  - intros h. split; [reflexivity|done].
  - intros h1 h2 h3 [H12 A12] [H23 A23]. split; [by etransitivity|auto].
Qed.

#[global] Instance sameButStreak_preorder : PreOrder sameButStreak.
Proof.
  split.
  - intros h. by repeat split.
  - intros h1 h2 h3 (?&?&?&?&?&?&?&?&?) (?&?&?&?&?&?&?&?&?).
    repeat split; congruence.
Qed.

#[global] Instance Keeps_preorder Q `{!PreOrder Q} : PreOrder (Keeps Q).
Proof.
  split.
  - intros w. by split.
  - intros w1 w2 w3 [Hh Hc Ha Hn] [Hh' Hc' Ha' Hn']. split; try congruence.
    intros id. etransitivity; [apply Hh|apply Hh'].
Qed.

Section KeepsSteps.
Context (Q : relation Habit.t) `{!PreOrder Q}.

Lemma keeps_same_data w w' :
  habits w' = habits w → checkins w' = checkins w →
  achievements w' = achievements w → notifications w' = notifications w →
  Keeps Q w w'.
Proof. intros Hh Hc Ha Hn. split; try done. intros id. rewrite Hh. reflexivity. Qed.

Lemma getHabit_keeps id : respects (Keeps Q) (getHabit id).
Proof.
  intros w. destruct (getHabit id w) as [r w'] eqn:H. minv H; by apply keeps_same_data.
Qed.

Lemma getUser_keeps id : respects (Keeps Q) (getUser id).
Proof.
  intros w. destruct (getUser id w) as [r w'] eqn:H. minv H; by apply keeps_same_data.
Qed.

Lemma updateUser_keeps id f : respects (Keeps Q) (updateUser id f).
Proof.
  intros w. destruct (updateUser id f w) as [r w'] eqn:H. minv H; by apply keeps_same_data.
Qed.

Lemma updateHabit_keeps id f : (∀ h, Q h (f h)) → respects (Keeps Q) (updateHabit id f).
Proof.
  intros Hf w. destruct (updateHabit id f w) as [r w'] eqn:H.
  minv H; try by apply keeps_same_data.
  split; try done. intros id'. simpl. destruct (decide (id = id')) as [<-|].
  - rewrite lookup_insert_eq, E. constructor. apply Hf.
  - rewrite lookup_insert_ne by done. reflexivity.
Qed.

Lemma consoleError_keeps t e : respects (Keeps Q) (consoleError t e).
Proof. intros w. by apply keeps_same_data. Qed.

Lemma consoleWarn_keeps t e : respects (Keeps Q) (consoleWarn t e).
Proof. intros w. by apply keeps_same_data. Qed.

Lemma sendNotification_keeps userId title body data :
  respects (Keeps Q) (sendNotification userId title body data).
Proof.
  intros w. destruct (sendNotification_bestEffort userId title body data w)
    as (r & w' & -> & ? & ? & ? & ? & ? & _).
  by apply keeps_same_data.
Qed.
End KeepsSteps.

(** [keeps] walks a route, one step at a time. *)
Ltac keeps :=
  repeat first
    [ apply getHabit_keeps; apply _
    | apply getUser_keeps; apply _
    | apply updateUser_keeps; apply _
    | apply updateHabit_keeps; [apply _|]
    | apply consoleError_keeps; apply _
    | apply consoleWarn_keeps; apply _
    | apply sendNotification_keeps; apply _
    | apply respects_newDate; apply _
    | apply respects_ret; apply _
    | apply respects_throw; apply _
    | apply respects_tryCatch; [apply _| |intros ?]
    | apply respects_bind; [apply _| |intros ?]
    | match goal with |- respects _ (match ?x with _ => _ end) => destruct x end ].

(** Whoever calls them and whatever calls reject, [GET /:id],
    [PATCH /:id/pause] and [PATCH /:id/archive] create and delete no habit,
    change no field of a habit other than [paused], [archived] and
    [updatedAt], never clear [archived], and leave check-ins, achievements
    and notifications alone. *)
Theorem habit_flag_routes_keep (uid id : string) :
  respects (Keeps flagsOnly) (habits_get uid id)
  ∧ respects (Keeps flagsOnly) (habits_pause uid id)
  ∧ respects (Keeps flagsOnly) (habits_archive uid id).
Proof.
  split; [|split].
  - unfold habits_get. keeps.
  - unfold habits_pause. keeps. intros h. by repeat split.
  - unfold habits_archive. keeps. intros h. by repeat split.
Qed.

(** Whoever calls it and whatever calls reject, [POST /:id/checkIn] creates
    and deletes no habit and changes no field of a habit other than
    [streak], [completedDates], [updatedAt] and [lastCheckIn]: in
    particular [longestStreak] and [totalCompletions] are never written. *)
Theorem habits_checkIn_keeps_longestStreak (dayBefore : Timestamp → Timestamp)
    (uid id : string) :
  respects (Keeps sameButStreak) (habits_checkIn dayBefore uid id).
Proof.
  unfold habits_checkIn. keeps.
  all: try (unfold sendStreakEndAlert; keeps).
  all: intros h; by repeat split.
Qed.


(** ** Only the owner *)

(** A route that reads the habit, answers 404 when there is none and 403
    when it is not the caller's, and logs what is thrown. *)
Lemma guarded_forbidden {R} (uid id : string) (r404 r403 : R) (r500 : Exn → R) (text : string)
    (rest : Habit.t → M R) (w : World) (habit : Habit.t) :
  habits w !! id = Some habit → Habit.userId habit ≠ uid →
  let route :=
    tryCatch
      (habitDoc ← getHabit id;
       match habitDoc with
       | None => mret r404
       | Some habit =>
         if negb (bool_decide (Habit.userId habit = uid)) then mret r403 else rest habit
       end)
      (λ error, consoleError text error;; mret (r500 error)) in
  storeUntouched w (route w).2
  ∧ ((route w).1 = Ok r403
     ∨ (route w).1 = Ok (r500 Unavailable) ∧ faults w ≠ []).
Proof.
  intros Hstored Hother route. subst route. cbv zeta.
  match goal with |- context [tryCatch ?m ?h w] =>
    destruct (tryCatch m h w) as [r w'] eqn:Hrun end.
  minv Hrun; simpl in *; decided; simplify_eq; (split; [by repeat split|]); auto.
  all: right; split; [done|]; intros Hnil; reliable.
Qed.

(** A habit of another user: whatever calls reject, [PATCH /:id/pause],
    [PATCH /:id/archive] and [POST /:id/checkIn] answer 403, or 500 when the
    read of the habit rejected, and write nothing to the store. *)
Theorem habit_routes_owner_only (dayBefore : Timestamp → Timestamp)
    (uid id : string) (w : World) (habit : Habit.t) :
  habits w !! id = Some habit → Habit.userId habit ≠ uid →
  (storeUntouched w (habits_pause uid id w).2
   ∧ ((habits_pause uid id w).1 = Ok (HabitsHttp.fail 403 "Unauthorized access")
      ∨ (habits_pause uid id w).1 = Ok (HabitsHttp.fail 500 "Failed to pause/resume habit")
        ∧ faults w ≠ []))
  ∧ (storeUntouched w (habits_archive uid id w).2
     ∧ ((habits_archive uid id w).1 = Ok (HabitsHttp.fail 403 "Unauthorized access")
        ∨ (habits_archive uid id w).1 = Ok (HabitsHttp.fail 500 "Failed to archive habit")
          ∧ faults w ≠ []))
  ∧ (storeUntouched w (habits_checkIn dayBefore uid id w).2
     ∧ ((habits_checkIn dayBefore uid id w).1 = Ok (Http.fail 403 "Unauthorized access")
        ∨ (habits_checkIn dayBefore uid id w).1 = Ok (Http.fail 500 "Failed to check in")
          ∧ faults w ≠ [])).
Proof.
  intros Hstored Hother. split; [|split].
  - apply (guarded_forbidden uid id _ _ (λ _, _) _ _ w habit Hstored Hother).
  - apply (guarded_forbidden uid id _ _ (λ _, _) _ _ w habit Hstored Hother).
  - apply (guarded_forbidden uid id _ _ (λ _, _) _ _ w habit Hstored Hother).
Qed.

Lemma habit_routes_owner_only_witness :
  let w := habitWorld (sampleHabit 3 3 [jan6 - 1]) jan6 in
  habits_archive "u2" "h1" w = (Ok (HabitsHttp.fail 403 "Unauthorized access"), w)
  ∧ habits_checkIn minusOneDay "u2" "h1" w
    = (Ok (Http.fail 403 "Unauthorized access"), w).
Proof.
  intros w.
  destruct (habit_routes_owner_only minusOneDay "u2" "h1" w (sampleHabit 3 3 [jan6 - 1])
              eq_refl)
    as (_ & [_ Harchive] & [_ HcheckIn]); [discriminate|].
  destruct Harchive as [Harchive|[_ Hplan]]; [|by destruct Hplan].
  destruct HcheckIn as [HcheckIn|[_ Hplan]]; [|by destruct Hplan].
  split; apply injective_projections; try done; vm_compute; reflexivity.
Defined.


(** * routes/habits.js: what a check-in writes *)

Lemma sendStreakEndAlert_same_habits uid name prev w r w' :
  sendStreakEndAlert uid name prev w = (r, w') → habits w' = habits w ∧ clock w' = clock w.
Proof.
  unfold sendStreakEndAlert, sendNotification. intros H. minv H; done.
Qed.

(** Whatever calls reject, [POST /:id/checkIn] either leaves the habits as
    they are or replaces the caller's habit [id], which did not have today
    among its completed dates, by the same habit with today appended. *)
Lemma habits_checkIn_writes dayBefore uid id w :
  let w' := (habits_checkIn dayBefore uid id w).2 in
  clock w' = clock w
  ∧ (habits w' = habits w
     ∨ ∃ h s,
         habits w !! id = Some h ∧ Habit.userId h = uid
         ∧ (isoDate (clock w) ∉ default [] (Habit.completedDates h))
         ∧ habits w'
           = <[id := Habit.updateCheckIn
                       (default [] (Habit.completedDates h) ++ [isoDate (clock w)])
                       s (clock w) h]> (habits w)).
Proof.
  simpl. destruct (habits_checkIn dayBefore uid id w) as [r w'] eqn:Hrun. simpl.
  unfold habits_checkIn in Hrun.
  minv Hrun; simpl in *;
    repeat match goal with
    | H : sendStreakEndAlert _ _ _ _ = _ |- _ =>
        apply sendStreakEndAlert_same_habits in H as [? ?]; simpl in *
    end;
    decided; (split; [congruence|]); try (left; congruence).
  all: right; eexists _, _; split; [done|]; split; [done|].
  all: unfold includes in *; decided; split; [done|].
  all: try done.
  all: match goal with H : habits ?x = habits ?y |- _ => rewrite H in * end; by simplify_eq.
Qed.

(** Whoever calls it and whatever calls reject, [POST /:id/checkIn] keeps
    the completed dates of every habit free of repetitions: it appends
    today to the dates of at most one habit, and only when today is not
    among them. *)
Theorem habits_checkIn_keeps_dates_distinct (dayBefore : Timestamp → Timestamp)
    (uid id : string) (w : World) :
  (∀ id' h, habits w !! id' = Some h → NoDup (default [] (Habit.completedDates h))) →
  ∀ id' h',
    habits (habits_checkIn dayBefore uid id w).2 !! id' = Some h' →
    NoDup (default [] (Habit.completedDates h')).
Proof.
  intros Hdistinct id' h' Hstored.
  destruct (habits_checkIn_writes dayBefore uid id w) as [_ [Hsame|(h & s & Hh & _ & Hnew & Hw)]].
  - rewrite Hsame in Hstored. by eapply Hdistinct.
  - rewrite Hw in Hstored. destruct (decide (id = id')) as [<-|Hne].
    + rewrite lookup_insert_eq in Hstored. injection Hstored as <-. simpl.
      apply NoDup_app. split; [by eapply Hdistinct|]. split; [|apply NoDup_singleton].
      intros x Hx Hx'%list_elem_of_singleton. by subst x.
    + rewrite lookup_insert_ne in Hstored by done. by eapply Hdistinct.
Qed.

Lemma habits_checkIn_keeps_dates_distinct_witness :
  let w := habitWorld (sampleHabit 2 2 [jan6 - 2; jan6 - 1]) jan6 in
  (habits (habits_checkIn minusOneDay "u1" "h1" w).2 !! "h1") ≫= Habit.completedDates
  = Some [jan6 - 2; jan6 - 1; jan6]
  ∧ NoDup [jan6 - 2; jan6 - 1; jan6].
Proof.
  intros w. split; [vm_compute; reflexivity|].
  apply (habits_checkIn_keeps_dates_distinct minusOneDay "u1" "h1" w) with
    (id' := "h1")
    (h' := Habit.updateCheckIn [jan6 - 2; jan6 - 1; jan6] 3 (noon jan6)
             (sampleHabit 2 2 [jan6 - 2; jan6 - 1])).
  - intros id' h Hh. destruct (decide (id' = "h1")) as [->|Hne].
    + injection Hh as <-. simpl. apply (bool_decide_unpack _). vm_compute. exact I.
    + unfold w, habitWorld, mkWorld in Hh. simpl in Hh.
      by rewrite lookup_singleton_ne in Hh.
  - vm_compute. reflexivity.
Defined.


(** * routes/habits.js: failures after the habit is written *)

Lemma await_plan w b plan :
  faults w = b :: plan →
  await w = (if b then Throw Unavailable else Ok (), withFaults plan w).
Proof. unfold await. by intros ->. Qed.

Lemma getHabit_pass w plan id :
  faults w = false :: plan → getHabit id w = (Ok (habits w !! id), withFaults plan w).
Proof. intros H. unfold getHabit. by rewrite (bind_ok _ _ _ _ _ (await_plan w _ _ H)). Qed.

Lemma getHabit_fail w plan id :
  faults w = true :: plan → getHabit id w = (Throw Unavailable, withFaults plan w).
Proof. intros H. unfold getHabit. by rewrite (bind_throw _ _ _ _ _ (await_plan w _ _ H)). Qed.

Lemma getUser_pass w plan id :
  faults w = false :: plan → getUser id w = (Ok (users w !! id), withFaults plan w).
Proof. intros H. unfold getUser. by rewrite (bind_ok _ _ _ _ _ (await_plan w _ _ H)). Qed.

Lemma getUser_fail w plan id :
  faults w = true :: plan → getUser id w = (Throw Unavailable, withFaults plan w).
Proof. intros H. unfold getUser. by rewrite (bind_throw _ _ _ _ _ (await_plan w _ _ H)). Qed.

Lemma updateHabit_pass w plan id f h :
  faults w = false :: plan → habits w !! id = Some h →
  updateHabit id f w = (Ok (), withHabits (<[id := f h]> (habits w)) (withFaults plan w)).
Proof.
  intros H Hh. unfold updateHabit. rewrite (bind_ok _ _ _ _ _ (await_plan w _ _ H)).
  unfold mbind, M_bind, reads. simpl. by rewrite Hh.
Qed.

Lemma updateUser_pass w plan id f u :
  faults w = false :: plan → users w !! id = Some u →
  updateUser id f w = (Ok (), withUsers (<[id := f u]> (users w)) (withFaults plan w)).
Proof.
  intros H Hu. unfold updateUser. rewrite (bind_ok _ _ _ _ _ (await_plan w _ _ H)).
  unfold mbind, M_bind, reads. simpl. by rewrite Hu.
Qed.

Lemma updateUser_fail w plan id f :
  faults w = true :: plan → updateUser id f w = (Throw Unavailable, withFaults plan w).
Proof. intros H. unfold updateUser. by rewrite (bind_throw _ _ _ _ _ (await_plan w _ _ H)). Qed.

(** The route up to the update of the habit, when the first two calls go
    through and no alert is due. *)
Lemma habits_checkIn_written dayBefore uid id w habit plan :
  faults w = false :: false :: plan → habits w !! id = Some habit →
  Habit.userId habit = uid → Habit.archived habit = false → Habit.paused habit = false →
  let today := isoDate (clock w) in
  let yesterdayStr := isoDate (dayBefore (clock w)) in
  let completedDates := default [] (Habit.completedDates habit) in
  let previousStreak := numOr (Habit.streak habit) 0 in
  today ∉ completedDates → streakEnds completedDates yesterdayStr previousStreak = false →
  let newStreak := if includes yesterdayStr completedDates then previousStreak + 1 else 1 in
  let habit' := Habit.updateCheckIn (completedDates ++ [today]) newStreak (clock w) habit in
  habits_checkIn dayBefore uid id w
  = tryCatch
      (tryCatch
         (userDoc ← getUser uid;
          match userDoc with
          | Some _ => updateUser uid (User.touch (clock w))
          | None => mret ()
          end)
         (λ userUpdateError,
            consoleWarn "Failed to update user lastActivity:" userUpdateError);;
       updatedDoc ← getHabit id;
       mret (Http.json (Http.HabitCheckedIn updatedDoc newStreak)))
      (λ error, consoleError "Check-in error:" error;; mret (Http.fail 500 "Failed to check in"))
      (withHabits (<[id := habit']> (habits w)) (withFaults plan w)).
Proof.
  intros Hplan Hstored Howner Ha Hp. cbv zeta.
  remember (isoDate (clock w)) as today eqn:Etoday.
  remember (isoDate (dayBefore (clock w))) as yesterdayStr eqn:Eyesterday.
  remember (default [] (Habit.completedDates habit)) as cd eqn:Ecd.
  remember (numOr (Habit.streak habit) 0) as prev eqn:Eprev.
  intros Hnew Hquiet.
  remember (if includes yesterdayStr cd then prev + 1 else 1) as newStreak eqn:EnewStreak.
  unfold habits_checkIn. apply tryCatch_ext_run.
  rewrite (bind_ok _ _ _ _ _ (getHabit_pass w _ id Hplan)), Hstored.
  rewrite bool_decide_true by done. rewrite Ha, Hp. cbn [negb orb].
  rewrite bind_newDate. change (clock (withFaults (false :: plan) w)) with (clock w).
  cbv zeta. rewrite <- Etoday, <- Eyesterday, <- Ecd, <- Eprev.
  unfold includes at 1. rewrite bool_decide_false by done.
  rewrite (bind_ok _ _ _ newStreak (withFaults (false :: plan) w)); cycle 1.
  { rewrite EnewStreak. unfold streakEnds in Hquiet.
    destruct cd as [|d cd].
    - rewrite bool_decide_false by (simpl; lia).
      unfold includes. by rewrite bool_decide_false by (apply not_elem_of_nil).
    - rewrite bool_decide_true by (simpl; lia).
      rewrite (bool_decide_true (_ ≠ _)) in Hquiet by done.
      destruct (includes yesterdayStr (d :: cd)); [reflexivity|].
      simpl in Hquiet. by rewrite Hquiet. }
  by rewrite (bind_ok _ _ _ _ _
                (updateHabit_pass (withFaults _ w) plan id _ habit eq_refl Hstored)).
Qed.

(** What happens when a call rejects after [POST /:id/checkIn] has written
    the habit (no streak-end alert being due).  If the read or the write of
    the user document is rejected, the route logs a warning and still
    answers 200 with the updated habit, the user document being left as it
    was.  If the closing read of the habit is rejected, the route answers
    500 although the habit and the user's [lastActivity] are written. *)
Theorem habits_checkIn_late_failures (dayBefore : Timestamp → Timestamp)
    (uid id : string) (w : World) (habit : Habit.t) (user : User.t) :
  habits w !! id = Some habit → Habit.userId habit = uid →
  Habit.archived habit = false → Habit.paused habit = false →
  users w !! uid = Some user →
  let today := isoDate (clock w) in
  let yesterdayStr := isoDate (dayBefore (clock w)) in
  let completedDates := default [] (Habit.completedDates habit) in
  let previousStreak := numOr (Habit.streak habit) 0 in
  today ∉ completedDates → streakEnds completedDates yesterdayStr previousStreak = false →
  let newStreak := if includes yesterdayStr completedDates then previousStreak + 1 else 1 in
  let habit' := Habit.updateCheckIn (completedDates ++ [today]) newStreak (clock w) habit in
  let run plan := habits_checkIn dayBefore uid id (withFaults plan w) in
  let warning := ConsoleWarn "Failed to update user lastActivity:" Unavailable in
  (∀ plan, plan = [false; false; true] ∨ plan = [false; false; false; true] →
     (run plan).1 = Ok (Http.json (Http.HabitCheckedIn (Some habit') newStreak))
     ∧ habits (run plan).2 = <[id := habit']> (habits w)
     ∧ users (run plan).2 = users w
     ∧ console (run plan).2 = console w ++ [warning])
  ∧ (run [false; false; false; false; true]).1 = Ok (Http.fail 500 "Failed to check in")
  ∧ habits (run [false; false; false; false; true]).2 = <[id := habit']> (habits w)
  ∧ users (run [false; false; false; false; true]).2
    = <[uid := User.touch (clock w) user]> (users w).
Proof.
  intros Hstored Howner Ha Hp Huser today yesterdayStr cd prev Hnew Hquiet newStreak habit'
    run warning.
  pose proof (λ plan,
    habits_checkIn_written dayBefore uid id (withFaults (false :: false :: plan) w) habit
      plan eq_refl Hstored Howner Ha Hp Hnew Hquiet) as Hwritten.
  cbn [clock withFaults habits] in Hwritten.
  fold today yesterdayStr cd prev newStreak habit' in Hwritten. subst run. cbv beta.
  split; [|].
  - intros plan [->| ->]; rewrite Hwritten.
    + set (w2 := withHabits _ _).
      assert (tryCatch
                (userDoc ← getUser uid;
                 match userDoc with
                 | Some _ => updateUser uid (User.touch (clock w))
                 | None => mret ()
                 end)
                (λ e, consoleWarn "Failed to update user lastActivity:" e) w2
              = (Ok (), withConsole (console w ++ [warning]) (withFaults [] w2))) as Hin.
      { rewrite (tryCatch_throw _ _ w2 Unavailable (withFaults [] w2)); [reflexivity|].
        erewrite bind_throw; [reflexivity|]. by apply getUser_fail. }
      erewrite tryCatch_ok; cycle 1.
      { rewrite (bind_ok _ _ _ _ _ Hin).
        rewrite (bind_ok _ _ _ _ _
                   (getHabit_reliable (withConsole _ (withFaults [] w2)) id eq_refl)). simpl.
        rewrite lookup_insert_eq. reflexivity. }
      done.
    + set (w2 := withHabits _ _).
      assert (tryCatch
                (userDoc ← getUser uid;
                 match userDoc with
                 | Some _ => updateUser uid (User.touch (clock w))
                 | None => mret ()
                 end)
                (λ e, consoleWarn "Failed to update user lastActivity:" e) w2
              = (Ok (), withConsole (console w ++ [warning]) (withFaults [] w2))) as Hin.
      { rewrite (tryCatch_throw _ _ w2 Unavailable (withFaults [] (withFaults [true] w2)));
          [reflexivity|].
        rewrite (bind_ok _ _ _ _ _ (getUser_pass w2 [true] uid eq_refl)). simpl.
        rewrite Huser. by apply updateUser_fail. }
      erewrite tryCatch_ok; cycle 1.
      { rewrite (bind_ok _ _ _ _ _ Hin).
        rewrite (bind_ok _ _ _ _ _
                   (getHabit_reliable (withConsole _ (withFaults [] w2)) id eq_refl)). simpl.
        rewrite lookup_insert_eq. reflexivity. }
      done.
  - rewrite Hwritten. set (w2 := withHabits _ _).
    assert (tryCatch
              (userDoc ← getUser uid;
               match userDoc with
               | Some _ => updateUser uid (User.touch (clock w))
               | None => mret ()
               end)
              (λ e, consoleWarn "Failed to update user lastActivity:" e) w2
            = (Ok (), withUsers (<[uid := User.touch (clock w) user]> (users w))
                        (withFaults [true] w2))) as Hin.
    { erewrite tryCatch_ok; [reflexivity|].
      rewrite (bind_ok _ _ _ _ _ (getUser_pass w2 [false; true] uid eq_refl)). simpl.
      rewrite Huser.
      by rewrite (updateUser_pass (withFaults _ w2) [true] uid _ user eq_refl Huser). }
    erewrite tryCatch_throw; cycle 1.
    { rewrite (bind_ok _ _ _ _ _ Hin). erewrite bind_throw; [reflexivity|].
      by apply getHabit_fail. }
    done.
Qed.

Lemma habits_checkIn_late_failures_witness :
  let w := habitWorld (sampleHabit 1 1 [jan6 - 1]) jan6 in
  let run plan := habits_checkIn minusOneDay "u1" "h1" (withFaults plan w) in
  let habit' := Habit.updateCheckIn [jan6 - 1; jan6] 2 (noon jan6)
                  (sampleHabit 1 1 [jan6 - 1]) in
  (run [false; false; false; true]).1 = Ok (Http.json (Http.HabitCheckedIn (Some habit') 2))
  ∧ users (run [false; false; false; true]).2 = users w
  ∧ (run [false; false; false; false; true]).1 = Ok (Http.fail 500 "Failed to check in")
  ∧ habits (run [false; false; false; false; true]).2 !! "h1" = Some habit'.
Proof.
  intros w run habit'.
  destruct (habits_checkIn_late_failures minusOneDay "u1" "h1" w
              (sampleHabit 1 1 [jan6 - 1]) sampleUser
              eq_refl eq_refl eq_refl eq_refl eq_refl) as (Hsoft & Hhard & Hhabits & _).
  - apply (bool_decide_unpack _). vm_compute. exact I.
  - vm_compute. reflexivity.
  - destruct (Hsoft [false; false; false; true]) as (Hresp & _ & Husers & _); [by right|].
    split; [exact Hresp|]. split; [exact Husers|]. split; [exact Hhard|].
    subst run. cbv beta. rewrite Hhabits. vm_compute. reflexivity.
Defined.


(** * routes/checkins.js: what [POST /] refuses, and what it records *)

Section CreateRefusals.
Context (T MS : list Z) (V : XpValues) (utcOffset : Z).
Context (isDateValidForHabit : Habit.t → Z → bool).
Context (updateStreak : string → string → Z → M StreakResult).

Local Abbreviation create := (checkins_create T MS V utcOffset isDateValidForHabit updateStreak).
Local Abbreviation record := (recordCheckIn T MS V updateStreak).

(** When [recordCheckIn] returns, it is with a 200. *)
Lemma recordCheckIn_status fuel userId req habit checkInDate w resp w' :
  record fuel userId req habit checkInDate w = (Ok resp, w') → Http.status resp = 200.
Proof.
  intros Hrun. unfold recordCheckIn in Hrun. cbv zeta in Hrun.
  apply bind_inv in Hrun as [(now & w1 & _ & Hrun) | [(? & _ & [=]) | (_ & [=])]].
  apply bind_inv in Hrun as [(ref & w2 & _ & Hrun) | [(? & _ & [=]) | (_ & [=])]].
  apply bind_inv in Hrun as [(sr & w3 & _ & Hrun) | [(? & _ & [=]) | (_ & [=])]].
  apply bind_inv in Hrun as [(now' & w4 & _ & Hrun) | [(? & _ & [=]) | (_ & [=])]].
  apply bind_inv in Hrun as [(? & w5 & _ & Hrun) | [(? & _ & [=]) | (_ & [=])]].
  by injection Hrun as <- _.
Qed.

(** A refusal of [POST /] (a 4xx answer) has written nothing: whatever
    calls reject, the store, the outbox and the console are as they were. *)
Theorem checkins_create_refusal_writes_nothing (fuel : nat) (userId : string)
    (req : CheckInRequest) (w w' : World) (resp : Http.Response) :
  create fuel userId req w = (Ok resp, w') →
  400 ≤ Http.status resp < 500 →
  untouched w w'
  ∧ ∃ message, Http.body resp = Http.Failure message None.
Proof.
  intros Hrun Hstatus. unfold checkins_create in Hrun.
  apply tryCatch_inv in Hrun as [(a & Hrun & [= ->]) | [(e & w0 & _ & Hh) | (_ & [=])]].
  - apply bind_inv in Hrun as [(doc & w1 & Hget & Hrun) | [(? & _ & [=]) | (_ & [=])]].
    assert (untouched w w1) as Hsame by (minv Hget; by repeat split).
    destruct doc as [habit|]; [|injection Hrun as <- <-; eauto].
    destruct (negb (bool_decide (Habit.userId habit = userId)));
      [injection Hrun as <- <-; eauto|].
    destruct (negb (bool_decide (Habit.status habit = "active")));
      [injection Hrun as <- <-; eauto|].
    apply bind_inv in Hrun as [(now & w2 & [= <- <-] & Hrun) | [(? & [=] & _) | ([=] & _)]].
    destruct (negb (isDateValidForHabit _ _)); [injection Hrun as <- <-; eauto|].
    destruct (_ && _); [injection Hrun as <- <-; eauto|].
    apply recordCheckIn_status in Hrun. lia.
  - minv Hh. simpl in Hstatus. lia.
Qed.

(** A habit of another user: whatever calls reject, [POST /] answers 403,
    or 500 when the read of the habit rejected, and writes nothing to the
    store. *)
Theorem checkins_create_owner_only (fuel : nat) (userId : string) (req : CheckInRequest)
    (w : World) (habit : Habit.t) :
  habits w !! req_habitId req = Some habit → Habit.userId habit ≠ userId →
  storeUntouched w (create fuel userId req w).2
  ∧ ((create fuel userId req w).1 = Ok (Http.fail 403 "Unauthorized")
     ∨ (create fuel userId req w).1
       = Ok {| Http.status := 500;
               Http.body := Http.Failure "Failed to create check-in" (Some Unavailable) |}
       ∧ faults w ≠ []).
Proof.
  intros Hstored Hother.
  apply (guarded_forbidden userId (req_habitId req) _ _
           (λ error, {| Http.status := 500;
                        Http.body := Http.Failure "Failed to create check-in" (Some error) |})
           _ _ w habit Hstored Hother).
Qed.

(** A request with [completed: false] that passes the validations, when no
    call rejects: the check-in is stored as not completed, with percentage 0
    unless the request gives one, the response carries the habit's streak
    as it stands, and nothing but the new document and the user's
    [lastActivity] changes: no streak update, no XP, no achievement. *)
Theorem checkins_create_not_completed (fuel : nat) (userId : string)
    (req : CheckInRequest) (w : World) (habit : Habit.t) (user : User.t) :
  faults w = [] → habits w !! req_habitId req = Some habit →
  Habit.userId habit = userId → Habit.status habit = "active" →
  users w !! userId = Some user →
  let checkInDate := default (clock w) (req_date req) in
  isDateValidForHabit habit checkInDate = true →
  req_completed req = JBool false →
  let checkIn := checkInOf (clock w) userId req checkInDate in
  CheckIn.completed checkIn = false
  ∧ CheckIn.completionPercentage checkIn = numOr (req_completionPercentage req) 0
  ∧ create fuel userId req w
    = (Ok (Http.json
             (Http.CheckInCreated (length (checkins w)) checkIn
                {| currentStreak := Habit.streak habit; updated := false |})),
       withUsers (<[userId := User.touch (clock w) user]> (users w))
         (withCheckins (checkins w ++ [checkIn]) w)).
Proof.
  intros Hrel Hstored Howner Hactive Huser checkInDate Hvalid Hcompleted checkIn.
  split; [unfold checkIn, checkInOf; by rewrite Hcompleted|].
  split.
  { unfold checkIn, checkInOf. rewrite Hcompleted. simpl.
    unfold numOr. destruct (req_completionPercentage req) as [n|]; [|done].
    destruct (n =? 0) eqn:Hn; simpl; by rewrite ?Hn. }
  assert (getHabit (req_habitId req) w = (Ok (Some habit), w)) as Hget
    by (by rewrite getHabit_reliable, Hstored).
  rewrite (checkins_create_validated T MS V utcOffset isDateValidForHabit updateStreak
             fuel userId req habit w w Hget Howner Hactive Hvalid).
  fold checkInDate. rewrite Hcompleted. simpl truthy. rewrite andb_false_r.
  erewrite tryCatch_ok; [reflexivity|].
  unfold recordCheckIn. cbv zeta. rewrite bind_newDate.
  fold (checkInOf (clock w) userId req checkInDate). fold checkIn.
  rewrite (bind_ok _ _ _ _ _ (addCheckin_reliable w checkIn Hrel)).
  rewrite Hcompleted. simpl notFalse. cbv iota.
  rewrite (bind_ok _ _ _ None _ (mret_run _ _)).
  rewrite bind_newDate.
  by rewrite (bind_ok _ _ _ _ _
                (updateUser_reliable (withCheckins _ w) userId _ user Hrel Huser)).
Qed.
End CreateRefusals.

Lemma checkins_create_refusal_writes_nothing_witness :
  let w := mkWorld {[ "h1" := sampleHabit 2 2 [jan6 - 1; jan6] ]} {[ "u1" := sampleUser ]}
             [] [] (noon jan6) [false] in
  untouched w (withFaults [] w)
  ∧ ∃ message,
      Http.body (Http.fail 400 "Already checked in for this date")
      = Http.Failure message None.
Proof.
  intros w.
  apply (checkins_create_refusal_writes_nothing scenarioThresholds scenarioMilestones
           scenarioXpValues 0 anyDate (updateStreak_spec 0) 4 "u1"
           (bareRequest (JBool true)) w).
  - vm_compute. reflexivity.
  - simpl. lia.
Defined.

Lemma checkins_create_owner_only_witness :
  let w := habitWorld (sampleHabit 2 2 [jan6 - 1]) jan6 in
  checkins_create scenarioThresholds scenarioMilestones scenarioXpValues 0 anyDate
    (updateStreak_spec 0) 4 "u2" (bareRequest (JBool true)) w
  = (Ok (Http.fail 403 "Unauthorized"), w).
Proof.
  intros w.
  destruct (checkins_create_owner_only scenarioThresholds scenarioMilestones
              scenarioXpValues 0 anyDate (updateStreak_spec 0) 4 "u2"
              (bareRequest (JBool true)) w (sampleHabit 2 2 [jan6 - 1]) eq_refl)
    as [_ [Hforbidden|[_ Hplan]]]; [discriminate| |by destruct Hplan].
  apply injective_projections; [exact Hforbidden|]. vm_compute. reflexivity.
Defined.

Lemma checkins_create_not_completed_witness :
  let w := habitWorld (sampleHabit 2 2 [jan6 - 1]) jan6 in
  let run := checkins_create scenarioThresholds scenarioMilestones scenarioXpValues 0
               anyDate (updateStreak_spec 0) 4 "u1" (bareRequest (JBool false)) w in
  habits run.2 = habits w ∧ achievements run.2 = [] ∧ length (checkins run.2) = 1%nat
  ∧ (users run.2 !! "u1") ≫= User.xp = Some 95.
Proof.
  intros w run.
  destruct (checkins_create_not_completed scenarioThresholds scenarioMilestones
              scenarioXpValues 0 anyDate (updateStreak_spec 0) 4 "u1"
              (bareRequest (JBool false)) w (sampleHabit 2 2 [jan6 - 1]) sampleUser
              eq_refl eq_refl eq_refl eq_refl eq_refl eq_refl eq_refl)
    as (_ & _ & Hrun).
  subst run. rewrite Hrun. vm_compute. repeat split; reflexivity.
Defined.

(** A completed check-in by a user who has no user document: once the
    check-in is stored and the streak updated, the closing update of
    [lastActivity] throws, and the route answers 500 although the check-in
    is in the store. *)
Theorem checkins_create_user_missing (T MS : list Z) (V : XpValues) (utcOffset : Z)
    (isDateValidForHabit : Habit.t → Z → bool)
    (updateStreak : string → string → Z → M StreakResult)
    (fuel : nat) (userId : string) (req : CheckInRequest) (habit : Habit.t)
    (w wa wb wc : World) (id : nat) (streakResult : StreakResult) :
  (length T < fuel)%nat →
  getHabit (req_habitId req) w = (Ok (Some habit), wa) →
  Habit.userId habit = userId → Habit.status habit = "active" →
  let checkInDate := default (clock wa) (req_date req) in
  isDateValidForHabit habit checkInDate = true →
  includes (formatDateString utcOffset checkInDate) (default [] (Habit.completedDates habit))
    && truthy (req_completed req) = false →
  notFalse (req_completed req) = true →
  let checkIn := checkInOf (clock wa) userId req checkInDate in
  addCheckin checkIn wa = (Ok id, wb) →
  updateStreak (req_habitId req) userId checkInDate wb = (Ok streakResult, wc) →
  users wc !! userId = None →
  ∃ e w',
    checkins_create T MS V utcOffset isDateValidForHabit updateStreak fuel userId req w
    = (Ok {| Http.status := 500;
             Http.body := Http.Failure "Failed to create check-in" (Some e) |}, w')
    ∧ (e = NotFound ∨ e = Unavailable)
    ∧ checkIn ∈ checkins wb
    ∧ checkins w' = checkins wc
    ∧ users w' !! userId = None.
Proof.
  intros Hfuel Hget Howner Hactive checkInDate Hvalid Hguard Hcompleted checkIn Hadd Hstreak
    Hmissing.
  destruct (awardCheckIn_swallows T MS V fuel Hfuel userId (req_habitId req) streakResult wc)
    as (wd & Haward & Hframe & _).
  assert (users wd !! userId = None) as Hmissing'.
  { apply eq_None_not_Some. rewrite (frame_users _ _ _ Hframe). by rewrite Hmissing. }
  rewrite (checkins_create_validated T MS V utcOffset isDateValidForHabit updateStreak
             fuel userId req habit w wa Hget Howner Hactive Hvalid).
  fold checkInDate. rewrite Hguard.
  destruct (updateUser userId (User.touch (clock wd)) wd) as [r we] eqn:Htouch.
  assert (∃ e, r = Throw e ∧ (e = NotFound ∨ e = Unavailable)
               ∧ checkins we = checkins wd ∧ users we = users wd)
    as (e & -> & He & Hc & Hu).
  { unfold updateUser in Htouch. minv Htouch; simpl in *; try congruence; eauto 10. }
  exists e. eexists. split.
  - erewrite tryCatch_throw; [reflexivity|].
    rewrite (recordCheckIn_completed T MS V updateStreak fuel userId req habit checkInDate
               wa id wb streakResult wc wd Hcompleted Hadd Hstreak Haward).
    rewrite bind_newDate. by rewrite (bind_throw _ _ _ _ _ Htouch).
  - simpl. split; [done|]. split.
    { apply addCheckin_inv in Hadd as (-> & _). apply elem_of_app. right. by apply list_elem_of_singleton. }
    split; [by rewrite Hc, (frame_checkins _ _ _ Hframe)|by rewrite Hu].
Qed.

Lemma checkins_create_user_missing_witness :
  let w := mkWorld {[ "h1" := sampleHabit 1 1 [jan6 - 1] ]} ∅ [] [] (noon jan6) [] in
  let req := bareRequest (JBool true) in
  let run := checkins_create scenarioThresholds scenarioMilestones scenarioXpValues 0
               anyDate (updateStreak_spec 0) 4 "u1" req w in
  (∃ body, run.1 = Ok {| Http.status := 500; Http.body := body |})
  ∧ checkins run.2 = [checkInOf (noon jan6) "u1" req (noon jan6)]
  ∧ (habits run.2 !! "h1") ≫= Habit.streak = Some 2.
Proof.
  intros w req run.
  edestruct (checkins_create_user_missing scenarioThresholds scenarioMilestones
               scenarioXpValues 0 anyDate (updateStreak_spec 0) 4 "u1" req
               (sampleHabit 1 1 [jan6 - 1]) w)
    as (e & w' & Hrun & _);
    [vm_compute; lia | vm_compute; reflexivity | reflexivity | reflexivity | reflexivity
    | vm_compute; reflexivity | reflexivity | vm_compute; reflexivity
    | vm_compute; reflexivity | vm_compute; reflexivity |].
  subst run. split; [rewrite Hrun; eauto|]. vm_compute. split; reflexivity.
Defined.

(** Archiving does not stop [POST /]: the route tests [status], which
    [PATCH /:id/archive] leaves as it is.  After the owner has archived an
    active habit, a request with [completed: false] for it is recorded and
    answered 200, while [POST /:id/checkIn] refuses the habit. *)
Theorem archived_habit_accepts_checkins (dayBefore : Timestamp → Timestamp)
    (T MS : list Z) (V : XpValues) (utcOffset : Z)
    (isDateValidForHabit : Habit.t → Z → bool)
    (updateStreak : string → string → Z → M StreakResult)
    (fuel : nat) (userId : string) (req : CheckInRequest) (w : World)
    (habit : Habit.t) (user : User.t) :
  faults w = [] → habits w !! req_habitId req = Some habit →
  Habit.userId habit = userId → Habit.status habit = "active" →
  users w !! userId = Some user →
  let archived := setArchived (clock w) habit in
  let checkInDate := default (clock w) (req_date req) in
  isDateValidForHabit archived checkInDate = true →
  req_completed req = JBool false →
  let checkIn := checkInOf (clock w) userId req checkInDate in
  ∃ w1 w2,
    habits_archive userId (req_habitId req) w
    = (Ok (HabitsHttp.json (HabitsHttp.Done "Habit archived successfully")), w1)
    ∧ habits w1 !! req_habitId req = Some archived
    ∧ Habit.archived archived = true ∧ Habit.status archived = "active"
    ∧ habits_checkIn dayBefore userId (req_habitId req) w1
      = (Ok (Http.fail 400 "Cannot check in to archived or paused habit"), w1)
    ∧ checkins_create T MS V utcOffset isDateValidForHabit updateStreak fuel userId req w1
      = (Ok (Http.json
               (Http.CheckInCreated (length (checkins w)) checkIn
                  {| currentStreak := Habit.streak habit; updated := false |})), w2)
    ∧ checkins w2 = checkins w ++ [checkIn].
Proof.
  intros Hrel Hstored Howner Hactive Huser archived checkInDate Hvalid Hcompleted checkIn.
  set (w1 := withHabits (<[req_habitId req := archived]> (habits w)) w).
  assert (habits w1 !! req_habitId req = Some archived) as Hstored1
    by (simpl; by rewrite lookup_insert_eq).
  destruct (checkins_create_not_completed T MS V utcOffset isDateValidForHabit updateStreak
              fuel userId req w1 archived user Hrel Hstored1 Howner Hactive Huser Hvalid
              Hcompleted) as (_ & _ & Hrun).
  eexists w1, _. split; [by apply habits_archive_reliable|]. split; [done|].
  split; [done|]. split; [done|].
  split; [by apply (habits_checkIn_refused dayBefore w1 userId _ archived)|].
  split; [exact Hrun|done].
Qed.

Lemma archived_habit_accepts_checkins_witness :
  let w := habitWorld (sampleHabit 2 2 [jan6 - 1]) jan6 in
  ∃ w1 w2 resp,
    habits_archive "u1" "h1" w
    = (Ok (HabitsHttp.json (HabitsHttp.Done "Habit archived successfully")), w1)
    ∧ checkins_create scenarioThresholds scenarioMilestones scenarioXpValues 0 anyDate
        (updateStreak_spec 0) 4 "u1" (bareRequest (JBool false)) w1 = (Ok resp, w2)
    ∧ Http.status resp = 200
    ∧ length (checkins w2) = 1%nat.
Proof.
  intros w.
  destruct (archived_habit_accepts_checkins minusOneDay scenarioThresholds
              scenarioMilestones scenarioXpValues 0 anyDate (updateStreak_spec 0) 4 "u1"
              (bareRequest (JBool false)) w (sampleHabit 2 2 [jan6 - 1]) sampleUser
              eq_refl eq_refl eq_refl eq_refl eq_refl eq_refl eq_refl)
    as (w1 & w2 & Harchive & _ & _ & _ & _ & Hcreate & Hstored).
  exists w1, w2. eexists. split; [exact Harchive|]. split; [exact Hcreate|].
  split; [reflexivity|]. by rewrite Hstored.
Defined.


(** * services/achievementService.js: what is stored, what is returned *)

(** When no call rejects, a call of [addXP] that gains a level stores the
    level achievement and nothing more of the level-up: the store refuses
    the notification, whose [data.achievementId] is [undefined],
    [handleLevelUp] logs the refusal, and the level-up bonus is not
    awarded.  The user is left with exactly the XP and the level that the
    call returns, and no notification is stored. *)
Theorem addXP_level_up_stops_at_notification (T : list Z) (V : XpValues) (k : nat)
    (w : World) (userId : string) (amount : Z) (source : string) (user : User.t) :
  faults w = [] → users w !! userId = Some user →
  ∃ r w',
    addXP T V (S (length T) + k) userId amount source w = (Ok r, w')
    ∧ xp r = xpOf user + amount
    ∧ users w' = <[userId := User.setXP (xp r) (level r) (clock w) user]> (users w)
    ∧ notifications w' = notifications w
    ∧ achievements w'
      = achievements w
        ++ (if levelUp r then [levelAchievement V (clock w) userId (level r)] else [])
    ∧ console w' = console w ++ (if levelUp r then [levelUpRefused] else []).
Proof.
  intros Hrel Hu. eexists _, _. split.
  { apply (addXP_reliable T V _ w userId amount source user Hrel Hu). lia. }
  pose proof (afterAddXP_frame T V userId amount user w) as (_ & _ & _ & _ & _ & Hn & Hus).
  simpl. split; [done|]. split; [done|]. split; [done|].
  unfold afterAddXP, xpOf, levelOf. destruct (_ <? _); simpl; by rewrite ?app_nil_r.
Qed.

(** The scenario: 95 XP at level 1 given 10.  The call returns 105 and
    level 2, which is what the user document holds afterwards; the level
    achievement is stored, without a notification and without the bonus. *)
Lemma addXP_level_up_stops_at_notification_witness :
  let w := habitWorld (sampleHabit 0 0 []) jan6 in
  let run := addXP scenarioThresholds scenarioXpValues 4 "u1" 10 "check_in" w in
  run.1 = Ok {| xp := 105; level := 2; levelUp := true |}
  ∧ (users run.2 !! "u1") ≫= User.xp = Some 105
  ∧ (users run.2 !! "u1") ≫= User.level = Some 2
  ∧ Achievement.type <$> achievements run.2 = ["level"]
  ∧ notifications run.2 = []
  ∧ console run.2 = [levelUpRefused].
Proof.
  intros w run.
  destruct (addXP_level_up_stops_at_notification scenarioThresholds scenarioXpValues 0 w
              "u1" 10 "check_in" sampleUser eq_refl eq_refl)
    as (r & w' & Hrun & _ & Hus & Hn & Ha & Hc).
  change (addXP scenarioThresholds scenarioXpValues 4 "u1" 10 "check_in" w = (Ok r, w'))
    in Hrun.
  subst run. rewrite Hrun. simpl fst. simpl snd. rewrite Hus, Hn, Ha, Hc.
  vm_compute in Hrun. injection Hrun as <- _.
  vm_compute. repeat split; reflexivity.
Defined.


(** ** The level loop *)

(** Once some threshold of the table is reached, the level the loop
    computes lies between 1 and the length of the table and does not
    depend on the level it was entered with, and more XP never gives a
    lower level, in whatever order the table lists its thresholds. *)
Theorem levelLoop_monotone (T : list Z) (newXP newXP' d d' : Z) (i : nat) (required : Z) :
  T !! i = Some required → required ≤ newXP → newXP ≤ newXP' →
  1 ≤ levelLoop T (length T) newXP d ≤ Z.of_nat (length T)
  ∧ levelLoop T (length T) newXP d = levelLoop T (length T) newXP d'
  ∧ levelLoop T (length T) newXP d ≤ levelLoop T (length T) newXP' d'.
Proof.
  intros Hreq Hle Hmore.
  assert (i < length T)%nat as Hi by (apply lookup_lt_is_Some; eauto).
  destruct (levelLoop_reached T (length T) newXP i required d d' Hi Hreq Hle) as [Heq Hge].
  split; [|split; [done|]].
  - destruct (levelLoop_range T (length T) newXP (d - Z.of_nat (length T) - 1 - Z.abs d))
      as [Hd|Hrange].
    + destruct (levelLoop_reached T (length T) newXP i required d
                  (d - Z.of_nat (length T) - 1 - Z.abs d) Hi Hreq Hle) as [Heq' _]. lia.
    + destruct (levelLoop_reached T (length T) newXP i required d
                  (d - Z.of_nat (length T) - 1 - Z.abs d) Hi Hreq Hle) as [Heq' _]. lia.
  - destruct (levelLoop_spec T (length T) newXP d) as [(j & r & Hj & Hr & Hrle & Hl & _) | [_ Hall]];
      [|specialize (Hall i required Hi Hreq); lia].
    destruct (levelLoop_reached T (length T) newXP' j r d' d Hj Hr ltac:(lia)) as [_ Hge'].
    lia.
Qed.

Lemma levelLoop_monotone_witness :
  1 ≤ levelLoop scenarioThresholds 3 105 1 ≤ 3
  ∧ levelLoop scenarioThresholds 3 105 1 = levelLoop scenarioThresholds 3 105 7
  ∧ levelLoop scenarioThresholds 3 105 1 ≤ levelLoop scenarioThresholds 3 260 7.
Proof.
  apply (levelLoop_monotone scenarioThresholds 105 260 1 7 1 100); [reflexivity|lia|lia].
Defined.

(** ** Achievements and their notifications *)

#[global] Instance Paired_preorder : PreOrder Paired.
Proof.
  split.
  - intros w Hrel. by split.
  - intros w1 w2 w3 H12 H23 Hrel. destruct (H12 Hrel) as [H2 E12].
    destruct (H23 H2) as [H3 E23]. split; [done|lia].
Qed.

Lemma paired_same_data w w' :
  (faults w = [] → faults w' = []) → achievements w' = achievements w →
  notifications w' = notifications w → Paired w w'.
Proof. intros Hf Ha Hn Hrel. split; [auto|]. by rewrite Ha, Hn. Qed.

Lemma consoleError_paired t e : respects Paired (consoleError t e).
Proof. intros w. by apply paired_same_data. Qed.

Lemma unlockedAmong_levels l levels :
  Forall isLevel levels → unlockedAmong (l ++ levels) = unlockedAmong l.
Proof.
  intros Hlevels. unfold unlockedAmong. rewrite List.filter_app.
  rewrite (filter_levels _ levels); [by rewrite app_nil_r| |done].
  intros a Ha. by apply negb_true_iff, bool_decide_eq_false in Ha.
Qed.

Section Pairs.
Context (T MS : list Z) (V : XpValues).

(** [addXP] stores no notification when no call rejects: the only one it
    builds is the one the store refuses. *)
Lemma addXP_unnotified fuel userId amount source w :
  faults w = [] →
  notifications (addXP T V fuel userId amount source w).2 = notifications w.
Proof.
  intros Hrel. destruct fuel as [|fuel]; [done|].
  destruct (users w !! userId) as [u|] eqn:Hu.
  - rewrite (addXP_reliable T V (S fuel) w userId amount source u Hrel Hu) by lia.
    apply (afterAddXP_frame T V userId amount u w).
  - by rewrite (addXP_user_not_found T V (S fuel) w userId amount source Hrel Hu) by lia.
Qed.

Lemma addXP_paired fuel userId amount source :
  respects Paired (addXP T V fuel userId amount source).
Proof.
  intros w Hrel.
  destruct (addXP_frame T V fuel userId amount source w)
    as [_ _ _ _ (levels & Ha & Hlevels) Hf].
  split; [auto|].
  by rewrite Ha, unlockedAmong_levels, addXP_unnotified.
Qed.

(** An unlocked achievement and its notification are stored one after the
    other. *)
Lemma saveAchievement_paired fuel userId a :
  ¬ isLevel a → respects Paired (saveAchievement T V fuel userId a).
Proof.
  intros Ha w Hrel. unfold saveAchievement.
  rewrite (bind_ok _ _ _ _ _ (addAchievement_reliable w a Hrel)), bind_newDate.
  erewrite bind_ok; [|by apply addNotification_reliable].
  match goal with |- context [(addXP T V fuel userId ?amt ?src ≫= ?k) ?w2] =>
    assert (respects Paired (addXP T V fuel userId amt src ≫= k)) as Hrest
      by (apply respects_bind; [apply _|apply addXP_paired|intros; apply respects_ret; apply _]);
    destruct (Hrest w2 Hrel) as [Hf E]
  end.
  split; [done|]. simpl in E |- *. unfold unlockedAmong in *.
  rewrite List.filter_app, !length_app in E. simpl in E.
  rewrite bool_decide_false in E by done. simpl in E. lia.
Qed.

Lemma checkAchievements_paired fuel userId context :
  respects Paired (checkAchievements T MS V fuel userId context).
Proof.
  intros w Hrel. rewrite checkAchievements_reliable_unfold by done.
  pose proof (unlocks_not_level MS V userId context w) as Hunlocked.
  set (l := streakUnlocks MS V userId context w ++ completionUnlocks userId context w) in *.
  cut (respects Paired
         (tryCatch
            (forOf l (λ _ achievement, saveAchievement T V fuel userId achievement) ();;
             mret l)
            (λ error, consoleError "Error checking achievements:" error;; mret []))).
  { intros Hprog. exact (Hprog w Hrel). }
  clearbody l. clear w Hrel.
  apply respects_tryCatch; [apply _| |].
  - apply respects_bind; [apply _| |intros; apply respects_ret; apply _].
    induction Hunlocked as [|a l Ha _ IH]; simpl.
    + apply respects_ret; apply _.
    + apply respects_bind; [apply _|by apply saveAchievement_paired|by intros []].
  - intros e. apply respects_bind; [apply _|apply consoleError_paired|].
    intros; apply respects_ret; apply _.
Qed.
End Pairs.

(** When no call rejects, [addXP] stores no notification, the one of a
    level-up being refused, and no achievement of another type than
    [level]; [checkAchievements] stores one notification for every
    achievement of another type than [level] that it stores, whether the
    user has a document or not and whatever the fuel. *)
Theorem achievements_come_with_notifications (T MS : list Z) (V : XpValues) (fuel : nat)
    (userId : string) (amount : Z) (source : string) (context : Context) (w : World) :
  faults w = [] →
  let w1 := (addXP T V fuel userId amount source w).2 in
  let w2 := (checkAchievements T MS V fuel userId context w).2 in
  notifications w1 = notifications w
  ∧ unlockedAmong (achievements w1) = unlockedAmong (achievements w)
  ∧ (length (unlockedAmong (achievements w2)) + length (notifications w)
     = length (unlockedAmong (achievements w)) + length (notifications w2))%nat.
Proof.
  intros Hrel w1 w2. split; [by apply addXP_unnotified|]. split.
  - destruct (addXP_frame T V fuel userId amount source w)
      as [_ _ _ _ (levels & Ha & Hlevels) _].
    subst w1. by rewrite Ha, unlockedAmong_levels.
  - by destruct (checkAchievements_paired T MS V fuel userId context w Hrel).
Qed.

(** A 7-day streak for the user of the scenarios: the streak achievement
    is stored with its notification, and its reward takes the user to
    level 2, whose achievement is stored without one. *)
Lemma achievements_come_with_notifications_witness :
  let w := habitWorld (sampleHabit 7 7 []) jan6 in
  let context := {| ctx_type := "check_in"; ctx_habitId := "h1"; ctx_streak := Some 7 |} in
  let w2 := (checkAchievements scenarioThresholds scenarioMilestones scenarioXpValues 4
               "u1" context w).2 in
  Achievement.type <$> achievements w2 = ["streak"; "level"]
  ∧ length (notifications w2) = 1%nat.
Proof.
  intros w context w2.
  destruct (achievements_come_with_notifications scenarioThresholds scenarioMilestones
              scenarioXpValues 4 "u1" 0 "check_in" context w eq_refl) as (_ & _ & Hpair).
  fold w2 in Hpair.
  assert (Achievement.type <$> achievements w2 = ["streak"; "level"]) as Ha
    by (vm_compute; reflexivity).
  split; [done|].
  assert (length (unlockedAmong (achievements w2)) = 1%nat) as Hone
    by (vm_compute; reflexivity).
  rewrite Hone in Hpair. simpl in Hpair. lia.
Defined.


(** ** [checkAchievements]: what it returns *)

(** [checkAchievements] never rejects: whatever calls reject, it resolves
    to a list, and every achievement of the list has been stored.  For a
    context of another type than [check_in] it reads nothing and resolves
    to the empty list. *)
Theorem checkAchievements_never_rejects (T MS : list Z) (V : XpValues) (fuel : nat)
    (userId : string) (context : Context) (w : World) :
  (length T < fuel)%nat →
  (∃ l w',
     checkAchievements T MS V fuel userId context w = (Ok l, w')
     ∧ ∀ a, a ∈ l → a ∈ achievements w')
  ∧ (ctx_type context ≠ "check_in" →
     checkAchievements T MS V fuel userId context w = (Ok [], w)).
Proof.
  intros Hfuel. split.
  - destruct (checkAchievements T MS V fuel userId context w) as [r w'] eqn:Hrun.
    pose proof (total_checkAchievements T MS V fuel Hfuel userId context w) as Htotal.
    rewrite Hrun in Htotal. simpl in Htotal. unfold checkAchievements in Hrun.
    apply tryCatch_inv in Hrun as [(l & Hrun & ->) | [(e & w0 & _ & Hh) | (_ & ->)]];
      [|minv Hh; eexists [], _; split; [done|]; by intros a Ha%elem_of_nil|done].
    exists l, w'. split; [done|].
    apply bind_inv in Hrun as [(sA & w1 & _ & Hrun) | [(? & _ & [=]) | (_ & [=])]].
    apply bind_inv in Hrun as [(cA & w2 & _ & Hrun) | [(? & _ & [=]) | (_ & [=])]].
    apply bind_inv in Hrun as [([] & w3 & Hsave & [= <- <-]) | [(? & _ & [=]) | (_ & [=])]].
    apply (forOf_save_inv T V fuel userId (λ _, false)) in Hsave
      as (created & Hcreated & _ & _ & Hall); [|done].
    intros a Ha. rewrite Hcreated. apply elem_of_app. right. by apply (Hall ()).
  - intros Hother. unfold checkAchievements.
    rewrite !bool_decide_false by done. cbn [andb].
    by destruct (ctx_streak context).
Qed.

(** The streak achievement is stored, its notification is rejected: the
    call resolves to the empty list and the achievement stays. *)
Lemma checkAchievements_never_rejects_witness :
  let w := mkWorld {[ "h1" := sampleHabit 7 7 [] ]} {[ "u1" := sampleUser ]} [] []
             (noon jan6) [false; false; false; true] in
  let context := {| ctx_type := "check_in"; ctx_habitId := "h1"; ctx_streak := Some 7 |} in
  ∃ w',
    checkAchievements scenarioThresholds scenarioMilestones scenarioXpValues 4 "u1"
      context w = (Ok [], w')
    ∧ (Achievement.type <$> achievements w') = ["streak"]
    ∧ notifications w' = [].
Proof.
  intros w context.
  destruct (checkAchievements_never_rejects scenarioThresholds scenarioMilestones
              scenarioXpValues 4 "u1" context w) as [(l & w' & Hrun & _) _];
    [vm_compute; lia|].
  exists w'. vm_compute in Hrun. injection Hrun as <- <-.
  vm_compute. repeat split; reflexivity.
Defined.

(** ** One streak achievement per user and streak value *)

(** The streak achievement is unlocked per user and streak value, not per
    habit: when no call rejects, once a check for one habit has stored the
    achievement of a streak milestone, a check with the same streak for
    another habit of the user stores no streak achievement. *)
Theorem streak_achievement_across_habits (T MS : list Z) (V : XpValues) (k : nat)
    (w : World) (userId habitId habitId' : string) (streak : Z) :
  faults w = [] → streak ∈ MS → streak ≠ 0 → streakCount userId streak w = 0%nat →
  let fuel := (S (length T) + k)%nat in
  let context h := {| ctx_type := "check_in"; ctx_habitId := h; ctx_streak := Some streak |} in
  let w1 := (checkAchievements T MS V fuel userId (context habitId) w).2 in
  let w2 := (checkAchievements T MS V fuel userId (context habitId') w1).2 in
  streakCount userId streak w1 = 1%nat
  ∧ streakUnlocks MS V userId (context habitId') w1 = []
  ∧ streakCount userId streak w2 = 1%nat.
Proof.
  intros Hrel Hin Hnz Hnone fuel context w1 w2.
  assert (length T < fuel)%nat as Hfuel by (subst fuel; lia).
  destruct (checkAchievements_streakCount T MS V fuel userId "check_in" habitId streak w
              Hrel Hfuel) as [Hrel1 Hc1].
  fold (context habitId) in Hrel1, Hc1. fold w1 in Hrel1, Hc1.
  assert (streakCount userId streak w1 = 1%nat) as H1.
  { rewrite Hc1, Hnone. unfold streakUnlocks. simpl. rewrite Hnone. unfold includes.
    rewrite bool_decide_true by done. by destruct (Z.eqb_spec streak 0). }
  assert (streakUnlocks MS V userId (context habitId') w1 = []) as Hnil.
  { unfold streakUnlocks. simpl. rewrite H1. simpl. by rewrite andb_false_r. }
  split; [done|]. split; [done|].
  destruct (checkAchievements_streakCount T MS V fuel userId "check_in" habitId' streak w1
              Hrel1 Hfuel) as [_ Hc2].
  fold (context habitId') in Hc2. fold w2 in Hc2. rewrite Hc2, Hnil, H1. done.
Qed.

Lemma streak_achievement_across_habits_witness :
  let w := habitWorld (sampleHabit 7 7 []) jan6 in
  let context h := {| ctx_type := "check_in"; ctx_habitId := h; ctx_streak := Some 7 |} in
  let w1 := (checkAchievements scenarioThresholds scenarioMilestones scenarioXpValues 4
               "u1" (context "h1") w).2 in
  let w2 := (checkAchievements scenarioThresholds scenarioMilestones scenarioXpValues 4
               "u1" (context "h2") w1).2 in
  streakCount "u1" 7 w1 = 1%nat ∧ streakCount "u1" 7 w2 = 1%nat.
Proof.
  intros w context w1 w2.
  destruct (streak_achievement_across_habits scenarioThresholds scenarioMilestones
              scenarioXpValues 0 w "u1" "h1" "h2" 7 eq_refl) as (H1 & _ & H2);
    [apply (bool_decide_unpack _); vm_compute; exact I | lia | reflexivity |].
  split; [exact H1 | exact H2].
Defined.

(** ** A user without a document *)

(** When no call rejects and the user has no document, [addXP] rejects
    with "User not found" after logging it and writes nothing; and
    [checkAchievements] stores the first achievement it unlocked together
    with its notification, awards nothing, and resolves to the empty list. *)
Theorem unknown_user_gets_no_xp (T MS : list Z) (V : XpValues) (fuel : nat)
    (userId : string) (amount : Z) (source : string) (context : Context) (w : World) :
  faults w = [] → users w !! userId = None → (0 < fuel)%nat →
  addXP T V fuel userId amount source w
  = (Throw (JsError "User not found"),
     withConsole (console w ++ [ConsoleError "Error adding XP:" (JsError "User not found")]) w)
  ∧ ∃ w',
      checkAchievements T MS V fuel userId context w = (Ok [], w')
      ∧ users w' = users w
      ∧ achievements w'
        = achievements w
          ++ take 1 (streakUnlocks MS V userId context w
                     ++ completionUnlocks userId context w)
      ∧ length (notifications w')
        = (length (notifications w)
           + length (take 1 (streakUnlocks MS V userId context w
                             ++ completionUnlocks userId context w)))%nat.
Proof.
  intros Hrel Hu Hfuel. split; [by apply addXP_user_not_found|].
  rewrite checkAchievements_reliable_unfold by done.
  destruct (streakUnlocks MS V userId context w ++ completionUnlocks userId context w)
    as [|a l] eqn:Hl.
  - exists w. simpl. rewrite app_nil_r. repeat split; (done || lia).
  - simpl forOf. unfold saveAchievement.
    eexists. split.
    + erewrite tryCatch_throw; [reflexivity|].
      erewrite bind_throw; [done|]. erewrite bind_throw; [done|].
      rewrite (bind_ok _ _ _ _ _ (addAchievement_reliable w a Hrel)), bind_newDate.
      erewrite bind_ok; [|by apply addNotification_reliable].
      erewrite bind_throw; [done|]. by apply addXP_user_not_found.
    + simpl. rewrite length_app. simpl. by rewrite take_0.
Qed.

Lemma unknown_user_gets_no_xp_witness :
  let w := mkWorld {[ "h1" := sampleHabit 7 7 [] ]} ∅ [] [] (noon jan6) [] in
  let context := {| ctx_type := "check_in"; ctx_habitId := "h1"; ctx_streak := Some 7 |} in
  ∃ w',
    checkAchievements scenarioThresholds scenarioMilestones scenarioXpValues 4 "u1"
      context w = (Ok [], w')
    ∧ length (achievements w') = 1%nat ∧ length (notifications w') = 1%nat
    ∧ users w' = ∅.
Proof.
  intros w context.
  destruct (unknown_user_gets_no_xp scenarioThresholds scenarioMilestones scenarioXpValues
              4 "u1" 10 "check_in" context w eq_refl eq_refl) as [_ (w' & Hrun & Hu & Ha & Hn)];
    [lia|].
  exists w'. split; [exact Hrun|]. rewrite Ha, Hn, Hu. vm_compute. repeat split; reflexivity.
Defined.


(** ** What the achievement service leaves alone, and whose achievements it
    creates *)

Lemma respects_bind_ok (R : relation World) `{!PreOrder R} {A B} (m : M A) (f : A → M B)
    (φ : A → Prop) :
  respects R m → (∀ w a w', m w = (Ok a, w') → φ a) → (∀ a, φ a → respects R (f a)) →
  respects R (m ≫= f).
Proof.
  intros Hm Hφ Hf w. specialize (Hm w). unfold mbind, M_bind.
  destruct (m w) as [[a|e|] w1] eqn:E; simpl in *; auto.
  etransitivity; [exact Hm|]. apply Hf. by eapply Hφ.
Qed.

Lemma respects_forOf_Forall (R : relation World) `{!PreOrder R} {A S} (l : list A)
    (body : S → A → M S) (φ : A → Prop) :
  (∀ s x, φ x → respects R (body s x)) → Forall φ l → ∀ s, respects R (forOf l body s).
Proof.
  intros Hb. induction 1 as [|x l Hx _ IH]; intros s; simpl.
  - apply respects_ret; apply _.
  - apply respects_bind; auto.
Qed.

Section Owned.
Context (T MS : list Z) (V : XpValues) (userId : string).

Let level : Achievement.t → Prop := λ a, isLevel a ∧ ownedBy userId a.

Lemma addXP_frame_owned fuel : ∀ amount source,
  respects (Frame level) (addXP T V fuel userId amount source).
Proof.
  induction fuel as [|fuel IH]; intros amount source; simpl.
  - apply respects_diverge; apply _.
  - apply respects_tryCatch; [apply _| |].
    + apply respects_bind; [apply _|apply getUser_frame|intros [user|]].
      * apply respects_bind; [apply _|apply respects_newDate; apply _|intros now].
        apply respects_bind; [apply _|apply updateUser_frame|intros _].
        apply respects_bind; [apply _| |intros _; apply respects_ret; apply _].
        destruct (_ <? _); [|apply respects_ret; apply _].
        unfold handleLevelUp.
        apply respects_tryCatch; [apply _| |intros; apply consoleError_frame].
        apply respects_bind; [apply _|apply respects_newDate; apply _|intros now'].
        apply respects_bind; [apply _|by apply addAchievement_frame|intros _].
        apply respects_bind; [apply _|apply respects_newDate; apply _|intros now''].
        apply respects_bind; [apply _|by apply addNotification_frame|intros _].
        apply respects_bind; [apply _|apply IH|intros _]. apply respects_ret; apply _.
      * apply respects_throw; apply _.
    + intros e. apply respects_bind; [apply _|apply consoleError_frame|intros _].
      apply respects_throw; apply _.
Qed.

Lemma checkStreakAchievements_owned streak habitId w l w' :
  checkStreakAchievements MS V userId streak habitId w = (Ok l, w') →
  Forall (ownedBy userId) l.
Proof.
  unfold checkStreakAchievements. intros H. minv H; try done.
  by apply Forall_singleton.
Qed.

Lemma forOf_checkMilestone_owned habitId total ms : ∀ acc w l w',
  Forall (ownedBy userId) acc →
  forOf ms (checkMilestone userId habitId total) acc w = (Ok l, w') →
  Forall (ownedBy userId) l.
Proof.
  induction ms as [|m ms IH]; intros acc w l w' Hacc H; simpl in H.
  - by injection H as <- <-.
  - apply bind_inv in H as [(acc' & w1 & Hstep & Hrest) | [(e & _ & [=]) | (_ & [=])]].
    eapply IH; [|exact Hrest]. unfold checkMilestone in Hstep. minv Hstep; try done.
    apply Forall_app. split; [done|]. by apply Forall_singleton.
Qed.

Lemma checkCompletionAchievements_owned habitId w l w' :
  checkCompletionAchievements userId habitId w = (Ok l, w') → Forall (ownedBy userId) l.
Proof.
  unfold checkCompletionAchievements. intros H.
  apply bind_inv in H as [(snap & w1 & _ & Hrest) | [(e & _ & [=]) | (_ & [=])]].
  by eapply forOf_checkMilestone_owned.
Qed.

Lemma checkAchievements_frame_owned fuel context :
  respects (Frame (ownedBy userId)) (checkAchievements T MS V fuel userId context).
Proof.
  unfold checkAchievements. apply respects_tryCatch; [apply _| |].
  - apply (respects_bind_ok _ _ _ (Forall (ownedBy userId))).
    { destruct (ctx_streak context); [|apply respects_ret; apply _].
      destruct (_ && _); [|apply respects_ret; apply _].
      unfold checkStreakAchievements.
      apply respects_bind; [apply _|apply queryAchievements_frame|].
      intros existing. destruct (negb _); [apply respects_ret; apply _|].
      destruct (includes _ _); [|apply respects_ret; apply _].
      apply respects_bind; [apply _|apply respects_newDate; apply _|].
      intros; apply respects_ret; apply _. }
    { intros w l w' H. destruct (ctx_streak context); [|by injection H as <- _].
      destruct (_ && _); [|by injection H as <- _].
      by eapply checkStreakAchievements_owned. }
    intros sA HsA. apply (respects_bind_ok _ _ _ (Forall (ownedBy userId))).
    { destruct (bool_decide _); [|apply respects_ret; apply _].
      unfold checkCompletionAchievements.
      apply respects_bind; [apply _|apply queryCheckins_frame|].
      intros snap. apply respects_forOf; [apply _|]. intros acc m. unfold checkMilestone.
      destruct (_ =? _); [|apply respects_ret; apply _].
      apply respects_bind; [apply _|apply queryAchievements_frame|]. intros existing.
      destruct (bool_decide _); [|apply respects_ret; apply _].
      apply respects_bind; [apply _|apply respects_newDate; apply _|].
      intros; apply respects_ret; apply _. }
    { intros w l w' H. destruct (bool_decide _); [|by injection H as <- _].
      by eapply checkCompletionAchievements_owned. }
    intros cA HcA. apply respects_bind; [apply _| |intros; apply respects_ret; apply _].
    apply (respects_forOf_Forall _ _ _ (ownedBy userId)); [|by apply Forall_app].
    intros _ a Ha. unfold saveAchievement.
    apply respects_bind; [apply _|by apply addAchievement_frame|intros ref].
    apply respects_bind; [apply _|apply respects_newDate; apply _|intros now].
    apply respects_bind; [apply _|apply addNotification_frame|intros _].
    apply respects_bind; [apply _| |intros; apply respects_ret; apply _].
    intros w. eapply Frame_weaken; [|apply addXP_frame_owned]. by intros ? [_ ?].
  - intros e. apply respects_bind; [apply _|apply consoleError_frame|].
    intros; apply respects_ret; apply _.
Qed.
End Owned.

(** Whatever calls reject and whatever the fuel, [addXP] and
    [checkAchievements] leave habits, check-ins and the clock as they are,
    create and delete no user document, and only append to the
    achievements: [addXP] achievements of type [level], both of them
    achievements of the user they were called for. *)
Theorem achievement_service_frame (T MS : list Z) (V : XpValues) (fuel : nat)
    (userId : string) (amount : Z) (source : string) (context : Context) :
  respects (Frame (λ a, isLevel a ∧ ownedBy userId a)) (addXP T V fuel userId amount source)
  ∧ respects (Frame (ownedBy userId)) (checkAchievements T MS V fuel userId context).
Proof.
  split; [apply addXP_frame_owned|apply checkAchievements_frame_owned].
Qed.


(** ** Notifications name stored achievements *)

#[global] Instance Resolves_preorder : PreOrder Resolves.
Proof.
  split.
  - intros w. by split.
  - intros w1 w2 w3 [P12 I12] [P23 I23]. split; [by etransitivity|auto].
Qed.

Lemma resolves_same_data w w' :
  achievements w' = achievements w → notifications w' = notifications w → Resolves w w'.
Proof.
  intros Ha Hn. split; [by rewrite Ha|]. unfold notificationsResolve. by rewrite Ha, Hn.
Qed.

Lemma getUser_resolves id : respects Resolves (getUser id).
Proof.
  intros w. destruct (getUser id w) as [r w'] eqn:H. minv H; by apply resolves_same_data.
Qed.

Lemma updateUser_resolves id f : respects Resolves (updateUser id f).
Proof.
  intros w. destruct (updateUser id f w) as [r w'] eqn:H.
  minv H; by apply resolves_same_data.
Qed.

Lemma queryAchievements_resolves p : respects Resolves (queryAchievements p).
Proof.
  intros w. destruct (queryAchievements p w) as [r w'] eqn:H.
  minv H; by apply resolves_same_data.
Qed.

Lemma queryCheckins_resolves p : respects Resolves (queryCheckins p).
Proof.
  intros w. destruct (queryCheckins p w) as [r w'] eqn:H.
  minv H; by apply resolves_same_data.
Qed.

Lemma consoleError_resolves t e : respects Resolves (consoleError t e).
Proof. intros w. by apply resolves_same_data. Qed.

Lemma resolves_append w a :
  notificationsResolve w →
  notificationsResolve (withAchievements (achievements w ++ [a]) w).
Proof.
  intros Hres n ref Hn Hdata. destruct (Hres n ref Hn Hdata) as (a' & Ha' & ?).
  exists a'. split; [|done]. simpl. by apply lookup_app_l_Some.
Qed.

Lemma addAchievement_resolves a : respects Resolves (addAchievement a).
Proof.
  intros w. destruct (addAchievement a w) as [r w'] eqn:H.
  minv H; try by apply resolves_same_data.
  split; [by apply prefix_app_r|]. simpl. intros Hres. by apply (resolves_append w a).
Qed.

(** A notification that names no achievement. *)
Lemma addNotification_resolves n :
  Notification.data n ≫= Notification.achievementId = None →
  respects Resolves (addNotification n).
Proof.
  intros Hnone w. destruct (addNotification n w) as [r w'] eqn:H.
  minv H; try by apply resolves_same_data.
  split; [done|]. simpl. intros Hres n' ref Hn' Hdata. simpl in *.
  apply elem_of_app in Hn' as [Hn'|Hn'%list_elem_of_singleton]; [by apply Hres|].
    subst n'.
  congruence.
Qed.

(** An achievement and the notification that names it. *)
Lemma save_resolves {A} (a : Achievement.t) (mk : nat → Z → Notification.t) (rest : M A) :
  (∀ ref now,
     Notification.data (mk ref now) ≫= Notification.achievementId = Some ref
     ∧ Notification.title (mk ref now) = Achievement.title a
     ∧ Notification.message (mk ref now) = Achievement.description a) →
  respects Resolves rest →
  respects Resolves (ref ← addAchievement a; now ← newDate; addNotification (mk ref now);; rest).
Proof.
  intros Hmk Hrest w.
  destruct ((ref ← addAchievement a; now ← newDate; addNotification (mk ref now);; rest) w)
    as [r w'] eqn:H. simpl.
  apply bind_inv in H as [(ref & w1 & Hadd & H) | [(e & Hadd & ->) | (Hadd & ->)]];
    [|by apply (respects_run Resolves _ _ _ _ (addAchievement_resolves a) Hadd)..].
  assert (Resolves w w1) as H01
    by apply (respects_run Resolves _ _ _ _ (addAchievement_resolves a) Hadd).
  assert (achievements w1 !! ref = Some a) as Href.
  { unfold addAchievement in Hadd. minv Hadd. simpl. by apply list_lookup_middle. }
  rewrite bind_newDate in H.
  apply bind_inv in H as [(nid & w2 & Hn & H) | [(e & Hn & ->) | (Hn & ->)]].
  - etransitivity; [exact H01|]. etransitivity; [|exact (respects_run Resolves _ _ _ _ Hrest H)].
    unfold addNotification in Hn. minv Hn. split; [done|]. simpl.
    intros Hres n' ref' Hn' Hdata. simpl in *.
    apply elem_of_app in Hn' as [Hn'|Hn'%list_elem_of_singleton]; [by apply Hres|].
    subst n'.
    destruct (Hmk ref (clock w1)) as (Hd & Ht & Hm). rewrite Hd in Hdata.
    injection Hdata as <-. eauto.
  - etransitivity; [exact H01|]. unfold addNotification in Hn.
    minv Hn; by apply resolves_same_data.
  - unfold addNotification in Hn. minv Hn.
Qed.

Section Resolving.
Context (T MS : list Z) (V : XpValues).

Lemma addXP_resolves fuel : ∀ userId amount source,
  respects Resolves (addXP T V fuel userId amount source).
Proof.
  induction fuel as [|fuel IH]; intros userId amount source; simpl.
  - apply respects_diverge; apply _.
  - apply respects_tryCatch; [apply _| |].
    + apply respects_bind; [apply _|apply getUser_resolves|intros [user|]].
      * apply respects_bind; [apply _|apply respects_newDate; apply _|intros now].
        apply respects_bind; [apply _|apply updateUser_resolves|intros _].
        apply respects_bind; [apply _| |intros _; apply respects_ret; apply _].
        destruct (_ <? _); [|apply respects_ret; apply _].
        unfold handleLevelUp.
        apply respects_tryCatch; [apply _| |intros; apply consoleError_resolves].
        apply respects_bind; [apply _|apply respects_newDate; apply _|intros now'].
        apply respects_bind; [apply _|apply addAchievement_resolves|intros _].
        apply respects_bind; [apply _|apply respects_newDate; apply _|intros now''].
        apply respects_bind; [apply _|by apply addNotification_resolves|intros _].
        apply respects_bind; [apply _|apply IH|intros _]. apply respects_ret; apply _.
      * apply respects_throw; apply _.
    + intros e. apply respects_bind; [apply _|apply consoleError_resolves|intros _].
      apply respects_throw; apply _.
Qed.

Lemma checkAchievements_resolves fuel userId context :
  respects Resolves (checkAchievements T MS V fuel userId context).
Proof.
  unfold checkAchievements. apply respects_tryCatch; [apply _| |].
  - apply respects_bind; [apply _| |].
    { destruct (ctx_streak context); [|apply respects_ret; apply _].
      destruct (_ && _); [|apply respects_ret; apply _].
      unfold checkStreakAchievements.
      apply respects_bind; [apply _|apply queryAchievements_resolves|].
      intros existing. destruct (negb _); [apply respects_ret; apply _|].
      destruct (includes _ _); [|apply respects_ret; apply _].
      apply respects_bind; [apply _|apply respects_newDate; apply _|].
      intros; apply respects_ret; apply _. }
    intros sA. apply respects_bind; [apply _| |].
    { destruct (bool_decide _); [|apply respects_ret; apply _].
      unfold checkCompletionAchievements.
      apply respects_bind; [apply _|apply queryCheckins_resolves|].
      intros snap. apply respects_forOf; [apply _|]. intros acc m. unfold checkMilestone.
      destruct (_ =? _); [|apply respects_ret; apply _].
      apply respects_bind; [apply _|apply queryAchievements_resolves|]. intros existing.
      destruct (bool_decide _); [|apply respects_ret; apply _].
      apply respects_bind; [apply _|apply respects_newDate; apply _|].
      intros; apply respects_ret; apply _. }
    intros cA. apply respects_bind; [apply _| |intros; apply respects_ret; apply _].
    apply respects_forOf; [apply _|]. intros _ a. unfold saveAchievement.
    apply (save_resolves a (λ ref now, _)); [by intros|].
    apply respects_bind; [apply _|apply addXP_resolves|].
    intros; apply respects_ret; apply _.
  - intros e. apply respects_bind; [apply _|apply consoleError_resolves|].
    intros; apply respects_ret; apply _.
Qed.
End Resolving.

(** Whatever calls reject and whatever the fuel, [addXP] and
    [checkAchievements] only append to the achievements, and keep the
    notifications resolving: a stored notification that names an
    achievement names a stored one and carries its title and description.
    The notification of a level-up is never stored. *)
Theorem notifications_name_stored_achievements (T MS : list Z) (V : XpValues) (fuel : nat)
    (userId : string) (amount : Z) (source : string) (context : Context) :
  respects Resolves (addXP T V fuel userId amount source)
  ∧ respects Resolves (checkAchievements T MS V fuel userId context).
Proof. split; [apply addXP_resolves|apply checkAchievements_resolves]. Qed.


(** ** The XP a check awards *)

(** When no call rejects and the user has a document, [checkAchievements]
    resolves to the achievements its two sub-checks unlock, stores each of
    them with its notification, and leaves the user with the XP they had
    plus the [xpReward] of every unlocked achievement.  The achievements
    it stores beyond the unlocked ones are of type [level]: they carry no
    notification, and no level-up bonus is added for them. *)
Theorem checkAchievements_awards (T MS : list Z) (V : XpValues) (k : nat) (w : World)
    (userId : string) (context : Context) (user : User.t) :
  faults w = [] → users w !! userId = Some user →
  let unlocked :=
    streakUnlocks MS V userId context w ++ completionUnlocks userId context w in
  ∃ w' created user',
    checkAchievements T MS V (S (length T) + k) userId context w = (Ok unlocked, w')
    ∧ users w' !! userId = Some user'
    ∧ achievements w' = achievements w ++ created
    ∧ unlockedAmong created = unlocked
    ∧ length (notifications w') = (length (notifications w) + length unlocked)%nat
    ∧ xpOf user' = xpOf user + rewards unlocked.
Proof.
  intros Hrel Hu unlocked.
  destruct (checkAchievements_awards_run T MS V (S (length T) + k) userId context w user
              Hrel Hu ltac:(lia))
    as (w' & created & u' & Hrun & _ & Hu' & _ & _ & _ & Ha & Hfilter & Hn & Hx & _).
  exists w', created, u'. fold unlocked in Hrun, Hfilter, Hn, Hx.
  repeat split; try done.
  unfold unlockedAmong. rewrite Hfilter. apply filter_not_level, unlocks_not_level.
Qed.

(** A 7-day streak for the user of the scenarios: the streak achievement
    is worth 50 XP, which takes the user from 95 to 145 and to level 2; the
    level achievement is stored, and the user stays at 145. *)
Lemma checkAchievements_awards_witness :
  let w := habitWorld (sampleHabit 7 7 []) jan6 in
  let context := {| ctx_type := "check_in"; ctx_habitId := "h1"; ctx_streak := Some 7 |} in
  ∃ l w' user',
    checkAchievements scenarioThresholds scenarioMilestones scenarioXpValues 4 "u1"
      context w = (Ok l, w')
    ∧ (Achievement.xpReward <$> l) = [50]
    ∧ Achievement.type <$> achievements w' = ["streak"; "level"]
    ∧ users w' !! "u1" = Some user'
    ∧ xpOf user' = 145.
Proof.
  intros w context.
  destruct (checkAchievements_awards scenarioThresholds scenarioMilestones scenarioXpValues
              0 w "u1" context sampleUser eq_refl eq_refl)
    as (w' & created & u' & Hrun & Hu' & Ha & _ & _ & Hx).
  eexists _, w', u'. split; [exact Hrun|]. split; [vm_compute; reflexivity|].
  split; [|split; [exact Hu'|]].
  - vm_compute in Hrun. injection Hrun as <-. vm_compute. reflexivity.
  - rewrite Hx. vm_compute. reflexivity.
Defined.


(** * The day of a check-in *)

(** [POST /:id/checkIn] names the day of an instant in UTC
    ([toISOString]), [POST /] in the server's zone ([formatDateString]).
    The two differ by the whole days that the offset adds to the time of
    day: they agree for offset 0, and for any other offset there are
    instants whose day the two routes name differently. *)
Theorem formatDateString_vs_isoDate (utcOffset date day : Z) :
  formatDateString utcOffset date
  = isoDate date + (date `mod` msPerDay + utcOffset) `div` msPerDay
  ∧ formatDateString 0 date = isoDate date
  ∧ (0 < utcOffset < msPerDay →
     let lastInstant := day * msPerDay + (msPerDay - 1) in
     isoDate lastInstant = day
     ∧ formatDateString utcOffset lastInstant = day + 1
     ∧ includes (formatDateString utcOffset lastInstant) [isoDate lastInstant] = false).
Proof.
  unfold formatDateString, isoDate, msPerDay.
  assert (∀ off, (date + off) `div` 86400000
                 = date `div` 86400000 + (date `mod` 86400000 + off) `div` 86400000) as Hsplit.
  { intros off. rewrite (Z.div_mod date 86400000) at 1 by lia.
    rewrite <- Z.add_assoc, (Z.mul_comm 86400000), Z.add_comm, Z.div_add by lia. lia. }
  split; [apply Hsplit|]. split; [by rewrite Z.add_0_r|].
  intros Hoff. cbv zeta.
  assert ((day * 86400000 + (86400000 - 1) + utcOffset) `div` 86400000 = day + 1) as ->.
  { replace (day * 86400000 + (86400000 - 1) + utcOffset)
      with ((utcOffset - 1) + (day + 1) * 86400000) by lia.
    rewrite Z.div_add by lia. rewrite Z.div_small by lia. lia. }
  assert ((day * 86400000 + (86400000 - 1)) `div` 86400000 = day) as ->.
  { rewrite Z.add_comm, Z.div_add by lia. rewrite Z.div_small by lia. lia. }
  split; [done|]. split; [done|].
  unfold includes. apply bool_decide_eq_false. rewrite list_elem_of_singleton. lia.
Qed.

(** * models/CheckIn.js: the defaults *)

(** [POST /] applies the defaults of [createCheckInData] before it calls
    it, which changes nothing: the document is the one
    [createCheckInData] builds from the request as it came.  A stored
    percentage of 0 means the check-in is not completed, so a completed
    check-in sent with [completionPercentage: 0] is stored with 100. *)
Theorem createCheckInData_defaults (now : Z) (userId : string) (req : CheckInRequest)
    (checkInDate : Z) :
  let checkIn := checkInOf now userId req checkInDate in
  checkIn
  = CheckIn.createCheckInData now (req_habitId req) userId
      {| CheckIn.in_date := Some checkInDate;
         CheckIn.in_completed := req_completed req;
         CheckIn.in_completionPercentage := req_completionPercentage req;
         CheckIn.in_notes := req_notes req;
         CheckIn.in_photoUrl := req_photoUrl req;
         CheckIn.in_mood := req_mood req |}
  ∧ (CheckIn.completionPercentage checkIn = 0 → CheckIn.completed checkIn = false)
  ∧ (CheckIn.completed checkIn = true → req_completionPercentage req = Some 0 →
     CheckIn.completionPercentage checkIn = 100).
Proof.
  intros checkIn. subst checkIn. unfold checkInOf, CheckIn.createCheckInData. simpl.
  generalize (notFalse (req_completed req)) as completed.
  generalize (req_completionPercentage req) as percentage.
  intros [n|] []; unfold numOr; repeat split; try done;
    try (destruct (Z.eqb_spec n 0) as [->|Hn]; simpl; try done;
         destruct (Z.eqb_spec n 0); try done; intros; lia).
  all: intros; simplify_eq; done.
Qed.

Lemma createCheckInData_defaults_witness :
  CheckIn.completionPercentage
    (checkInOf (noon jan6) "u1"
       {| req_habitId := "h1"; req_date := None; req_completed := JBool true;
          req_completionPercentage := Some 0; req_notes := None; req_photoUrl := None;
          req_mood := None |} (noon jan6)) = 100.
Proof.
  apply (createCheckInData_defaults (noon jan6) "u1"
           {| req_habitId := "h1"; req_date := None; req_completed := JBool true;
              req_completionPercentage := Some 0; req_notes := None; req_photoUrl := None;
              req_mood := None |} (noon jan6)); reflexivity.
Defined.
